(* ===== verification/_CoqProject ===== *)
-Q . S2P
Prelude.v
Float64.v
Instructions.v
Registers.v
Alu.v
Devices.v
Gpu.v
GpuFacts.v
Bus.v
Cpu.v
Machine.v
Display.v
Main.v
