(* ===== verification/Prelude.v ===== *)
(** * A verification library for the AIZ-32 MIPS emulator

    ** The program

    The repository [aiz32mips] is a MIPS32 integer-subset emulator in
    Rust.  Its core crate ([src/aiz32mips_core/src]) has three parts that
    interact through a memory bus:

    - the CPU interpreter ([cpu.rs]): [CPU::step] fetches a word through
      the bus, decodes it ([instructions.rs]) and executes it, calling
      the ALU ([alu.rs]) for arithmetic, the bus for loads and stores, and
      itself recursively for the delay slot of a jump or taken branch; the
      state is the register file ([registers.rs]) and the two coprocessor
      banks ([cop.rs]);
    - the memory bus ([memory.rs]): it translates virtual addresses by the
      fixed KUSEG/KSEG0/KSEG1 segments and routes each byte access to the
      first registered device whose range holds the physical address;
      16- and 32-bit accesses are sequences of byte accesses, little
      endian; the devices are RAM, ROM and video memory
      ([devices/ram.rs], [devices/rom.rs], [devices/vram.rs]);
    - the GPU ([devices/gpu.rs]): a 256-byte MMIO register window with a
      parameter FIFO and a command engine that draws into the video
      memory through a raw pointer, so the GPU and the bus device share
      the same bytes; a command runs inside the byte write that stores
      the high byte of the command register.

    The front end ([src/aiz32mips_emu/src/main.rs]) builds the bus,
    copies the font into video memory, programs the GPU and steps the CPU
    in a loop while an SDL window ([ui/display.rs]) presents the frame,
    which it reads through the bus every 10000 steps.

    ** The library, file by file (in dependency order)

    - [Prelude] (this file): machine integers as [Z] with their
      wrap-around written out ([trunc], [as_u8] ... [as_u64], [signed],
      [as_i8] ... [as_i64], the wrapping [+w] and [-w] of [u32]); the
      little-endian packing of [to_le_bytes]/[from_le_bytes]; [buf], a
      [Vec<u8>] as a length and a [gmap] of the cells written (others
      read 0), with the indexing that panics out of range and a setoid
      [buf_equiv] with its [Proper] instances; the [run] monad whose
      [Panic] outcome is a Rust panic; the counted loop [for_range]; the
      tactics ([bits], [run_inv], [zeqb_lia]) and the hint databases
      [mips] and [bytes]; the typing predicates [fits n] (a value of an
      [n]-bit unsigned type) and [bytes_ok] (every cell of a [Vec<u8>]
      is a byte).
    - [Float64]: [f64] values as the Standard Library's [spec_float],
      and [f64::from_bits]/[f64::to_bits] on the binary64 layout, with
      the proof that they are inverse.
    - [Instructions] ([instructions.rs]): a Module per format ([RType],
      [IType], [JType], [Cop0Ins], [Cop1Ins], [Special2], [Special3]) with
      its record, [decode] and [encode]; the [Instruction] variant type,
      [decode] (dispatch on the top six bits) and [encode].
    - [Registers] ([registers.rs], [cop.rs]): Module [Registers] (the 32
      general registers as a list, [SpecialRegisters] as a record, [read]
      with register 0 reading 0, [write] ignoring index 0 and indices
      past 31, [read_special]/[write_special], [tick]) with the invariant
      [wf]; Modules [Cop0] and [Cop1] (float registers as their 64-bit
      patterns, read and written as [f64] values through [Float64];
      indexing past the bank panics).
    - [Alu] ([alu.rs]): [Alu.execute], [ALU::execute], choosing between
      its two halves [execute_imm] (an if-chain on the opcode of the
      immediate forms) and [execute_reg] (on the funct); it runs in
      [run] because [i32] division of [i32::MIN] by [-1] panics in Rust.
    - [Devices] ([memory.rs], [devices/*.rs]): [MemoryError], the trait
      [Device] as a class whose methods see the [Shared] store and
      return the device's new state; the [ByteStore] class, the contract
      of a memory-like device, with instances for RAM and video memory;
      Modules [Ram], [Rom], [Vram]; the trait's default methods
      [dev_read16]/[dev_read32] and [dev_write16]/[dev_write32] (their
      [?] is [dev_then]); and the interface [TypedDevice]: a predicate
      [dev_ok] on the device's state such that a read gives a byte and a
      write of a byte keeps [dev_ok] and the bytes of video memory, with
      its instances for RAM, ROM and video memory.  [Shared] holds what the source keeps
      outside the device objects: the video memory bytes (aliased by the
      bus device and the GPU's raw pointer) and the two process-wide
      [static mut] latches of the GPU's command and parameter registers.
    - [Gpu] ([devices/gpu.rs]): the GPU registers, the FIFO, every
      command ([cmd_clear] ... [cmd_blit_tilemap]), [exec_cmd], and the
      MMIO [read8]/[write8]; [Gpu] ends with the termination of LINE and
      the [lerp] law; [GpuFacts] proves the FIFO refinement, the CLEAR
      fill, that commands leave the engine idle (through the Section
      [Keeps], generic in a predicate that the queue operations keep),
      that every command keeps video memory a byte array, and gives the
      GPU its [TypedDevice] instance ([gpu_ok]: every register holds a
      value of its width).
    - [Bus] ([memory.rs]): [AnyDevice] (the [Box<dyn Device>]) and Module
      [Bus]: the device list, [find_device], byte and multi-byte
      accesses that stop at the first error, [translate_vaddr] and the
      virtual accesses; the [TypedDevice] instance of [AnyDevice]
      (dispatch to the boxed device's instance), the bus invariant
      [bus_ok] (every device [dev_ok], video memory bytes) kept by every
      write and giving typed reads.
    - [Cpu] ([cpu.rs]): the [CPU] record, [fetch], one handler per arm
      of the match of [CPU::execute] ([exec_rtype], [exec_itype] with [exec_ialu],
      [exec_regimm] and the loads and stores [exec_mem], [exec_special2],
      [exec_jtype]), each taking the delay-slot runner as a parameter;
      [exec_body] (the match), [execute] (the recursion on the delay
      slot) and [step]; the invariant [cpu_ok] (every general, special
      and PC register a [u32]) and its preservation by each handler
      (Section [Typing], parametric in the delay-slot runner).
    - [Machine] ([main.rs], [mmio_offsets.rs]): the bus [main] builds,
      its stepping loop, the machine step relation [mstep] (one
      [CPU::step] that does not panic) and the states [reachable] from
      the booted machine by its reflexive-transitive closure, and the
      scenarios of the specification run on that machine by
      [vm_compute].
    - [Display] ([ui/display.rs]): [SdlDisplay]'s observable state,
      [read_regs] (the GPU registers read through the bus),
      [ensure_texture] and [present_from_bus], which copies the frame
      from video memory through the bus.
    - [Main] ([main.rs]): the cycle-count parse ([u64::from_str]) and
      print ([u64::to_string]), the [Host] state of the loop, the loop
      body (step, counter, periodic present), the loops with the quit
      poll, [main] and the register dump.

    ** What the theorems show

    - Decoder: [decode] and [encode] are inverse on well-formed
      instructions and on every word outside the COP0 opcode (C1, C2).
    - ALU: MULT meets the signed arithmetic of HI:LO (C4); DIV leaves
      the quotient truncated towards zero and its remainder (C3), and
      panics exactly on [i32::MIN / -1] (C26); SLTIU zero-extends its
      immediate, and differs from the ISA exactly where that matters
      (C27).  The lemmas [divu_hilo], [sra_floor] and [execute_fits]
      do DIVU, SRA and the width of every result.
    - CPU: the PC after taken and untaken branches and ordinary
      instructions (C5, C6, C10); the HI:LO accumulator of MADD/MSUB
      (C8); the REGIMM branches' target and link one word off the ISA
      (C21, C22); JAL links before its delay slot runs (C23); LH reads
      the untranslated address and loads 0 from KSEG0/KSEG1 (C24).
    - Registers: read-after-write (C11); [wf] is kept by [write].
    - Bus: the RAM word round trip (C9), the segment map (C7); on four
      bytes of one RAM, [MemoryBus::write32] is equivalent to the
      trait's default [Device::write32] of that RAM (C12).
    - GPU: the FIFO refines a bounded queue (C18, C19), LINE always
      finishes within its fuel (C16), every command leaves the FIFO
      empty and [status] at 0 (C20); CLEAR at 32 bpp fills one
      contiguous block of [4 * width * height] bytes from [fb_addr],
      whatever the pitch (C17).
    - Display: a frame below [2^32] is presented byte for byte from
      video memory at [fb + y * 4 * pitch + x] (C13); a frame buffer
      offset at [0xF000_0000] or above overflows and panics (C25).
    - Main: the printed cycle count parses back to itself (C15); the
      loop presents once every [present_every] steps (C14).
    - Lemmas that hold of the model rather than of a code choice: every
      state reachable from the booted machine is well typed
      ([reachable_typed], by induction on the steps against the
      [TypedDevice] interface), the COP1 bank reads back what it is
      written ([write_f_read_f], [read_f_write_f]), and the fuel of the
      delay-slot recursion ([execute_fuel_mono],
      [execute_non_control_fuel], [execute_delay_fuel]).
    - Tests: the scenarios of the specification and end-to-end runs of
      [main] and of the display are [Example]s evaluated by
      [vm_compute] in [Machine], [Display] and [Main].

    ** Bounds and fuel

    The recursion of [CPU::execute] on delay slots is unbounded in the
    source (a chain of jumps in delay slots overflows the Rust stack);
    [Cpu.execute] takes a fuel counting the nesting and returns [Panic
    StackExhausted] when it runs out; one level suffices for an ordinary
    instruction, two for a jump with an ordinary delay slot, and more
    fuel never changes a result (the lemmas [execute_fuel_mono] and
    [execute_non_control_fuel]).  The Bresenham loop of
    LINE runs on [line_fuel = 2^17] iterations: its coordinates are
    [u16], and each iteration moves the coordinate of the longer axis
    one step towards the end point, so it stops within
    [max(|dx|, |dy|) + 1 <= 65536] iterations; C16 proves the weaker
    bound [|dx| + |dy| + 1 <= 2^17] that the fuel needs.  The printer
    of a [u64] runs on 20 digits, the length of [u64::MAX].  Integer
    [+] and [-] on the CPU's [u32] values use [wrapping_add]/
    [wrapping_sub] in the source, and are modelled as such; the
    display's [u32] sums and products are checked ([add_u32],
    [mul_u32]) as in a debug build, since their operands come from
    registers the guest writes and the overflow is reachable.  The
    bus's and the devices' own [+ 1] and [- 1] on addresses and
    lengths are written with wrap-around, as in a release build: they
    can only overflow at the top of the address space or for an empty
    ROM or RAM image, where a debug build panics ([Rom::range]); the
    window lemmas of [Devices] show that they do not wrap for a device
    that ends below 4 GiB, and the tests boot a non-empty ROM.  Other
    arithmetic is exact where
    the types cannot overflow.  The infinite loop of [main] runs up to
    a horizon the caller chooses.

    ** Not modelled

    The SDL library itself (window, texture, canvas: assumed to
    succeed) and the arrival of events in its queue (the queue at each
    poll is an input; [pump_events_quit] is modelled on it); file reading (the images are parameters) and the [println!]
    formatting (the dumps are the values printed); the payload of a
    NaN [f64] value (an [f64] of the model is a [spec_float], whose NaN
    has none; the bit patterns of the bank keep it);
    [Device::as_any] is type reflection; [CPU::memory_access] is the
    identity and [CPU::writeback] does nothing. *)

From stdpp Require Export base list gmap.
From Stdlib Require Export ZArith Lia.
From Stdlib Require Import Btauto.
From coqutil Require Import Z.bitblast.

Declare Scope mips_scope.
Delimit Scope mips_scope with mips.
Open Scope Z_scope.

Create HintDb mips.

(** [simpl] and [cbn] leave the bit operations folded: a shift by a
    literal would otherwise unfold into a chain of halvings. *)
#[global] Arguments Z.shiftr : simpl never.
#[global] Arguments Z.shiftl : simpl never.
#[global] Arguments Z.land : simpl never.
#[global] Arguments Z.lor : simpl never.
#[global] Arguments Z.lxor : simpl never.
#[global] Arguments Z.lnot : simpl never.
#[global] Arguments Z.ones : simpl never.
Create Rewrite HintDb mips.

(** ** Machine integers

    A Rust integer of [n] bits is a [Z]; a cast [x as uN] keeps the low
    [n] bits ([trunc n]), a cast to [iN] reads them in two's complement
    ([signed n]). *)

Definition trunc (n z : Z) : Z := Z.land z (Z.ones n).

Definition as_u8 (z : Z) : Z := trunc 8 z.
Definition as_u16 (z : Z) : Z := trunc 16 z.
Definition as_u32 (z : Z) : Z := trunc 32 z.
Definition as_u64 (z : Z) : Z := trunc 64 z.

Definition signed (n z : Z) : Z :=
  let t := trunc n z in if t <? 2 ^ (n - 1) then t else t - 2 ^ n.

Definition as_i8 (z : Z) : Z := signed 8 z.
Definition as_i16 (z : Z) : Z := signed 16 z.
Definition as_i32 (z : Z) : Z := signed 32 z.
Definition as_i64 (z : Z) : Z := signed 64 z.

(** [u32::wrapping_add] and [u32::wrapping_sub]. *)
Definition wrapping_add32 (a b : Z) : Z := as_u32 (a + b).
Definition wrapping_sub32 (a b : Z) : Z := as_u32 (a - b).

Infix "+w" := wrapping_add32 (at level 50, left associativity) : mips_scope.
Infix "-w" := wrapping_sub32 (at level 50, left associativity) : mips_scope.
Open Scope mips_scope.

(** A value that fits an unsigned [n]-bit integer. *)
Definition fits (n z : Z) : Prop := 0 <= z < 2 ^ n.
#[export] Instance fits_dec n z : Decision (fits n z).
Proof. unfold fits. apply _. Defined.

(** ** Little-endian bytes: [u32::to_le_bytes] and [u32::from_le_bytes] *)

Definition le_bytes32 (v : Z) : list Z :=
  [as_u8 v; as_u8 (Z.shiftr v 8); as_u8 (Z.shiftr v 16); as_u8 (Z.shiftr v 24)].

Definition from_le32 (b0 b1 b2 b3 : Z) : Z :=
  Z.lor (Z.shiftl b3 24) (Z.lor (Z.shiftl b2 16) (Z.lor (Z.shiftl b1 8) b0)).

Definition from_le16 (b0 b1 : Z) : Z := Z.lor (Z.shiftl b1 8) b0.

(** ** Panics

    A Rust panic ends the emulator; the model returns [Panic] with the
    reason.  Division overflow and slice indexing panic in every build
    profile.  [StackExhausted] is the outcome of the recursive delay-slot
    execution of the CPU when it runs out of the fuel that bounds its
    depth.  [OutOfFuel] ends an unbounded loop of the source that the
    model runs on fuel; the theorems show it is not reached.
    [ArithOverflow] is the panic of a [u32] [+] or [*] past [u32::MAX]
    in a build with overflow checks (Cargo's default debug profile). *)

Inductive panic :=
  | DivideOverflow
  | IndexOutOfBounds (index len : Z)
  | StackExhausted
  | OutOfFuel
  | ArithOverflow.

Inductive run (A : Type) : Type :=
  | Done (a : A)
  | Panic (p : panic).
Arguments Done {A} a.
Arguments Panic {A} p.

#[export] Instance run_ret : MRet run := @Done.
#[export] Instance run_bind : MBind run :=
  fun A B f m => match m with Done a => f a | Panic p => Panic p end.
#[export] Instance run_fmap : FMap run :=
  fun A B f m => match m with Done a => Done (f a) | Panic p => Panic p end.

(** [a + b] and [a * b] on [u32] operands, checked for overflow. *)
Definition add_u32 (a b : Z) : run Z :=
  if a + b <? 2 ^ 32 then Done (a + b) else Panic ArithOverflow.
Definition mul_u32 (a b : Z) : run Z :=
  if a * b <? 2 ^ 32 then Done (a * b) else Panic ArithOverflow.

(** ** Byte buffers: a [Vec<u8>] of fixed length

    Cells never written read as 0, as after [vec![0; size]]. *)

Record buf := mkBuf { buf_len : Z; buf_cells : gmap Z Z }.

Definition buf_zero (n : Z) : buf := mkBuf n ∅.

Definition buf_get (b : buf) (i : Z) : Z := default 0 (buf_cells b !! i).

Definition buf_set (b : buf) (i v : Z) : buf :=
  mkBuf (buf_len b) (<[i := v]> (buf_cells b)).

Fixpoint cells_of_list (i : Z) (l : list Z) : gmap Z Z :=
  match l with
  | [] => ∅
  | x :: r => <[i := x]> (cells_of_list (i + 1) r)
  end.

(** [Vec::from] a byte list, e.g. a ROM image read from a file. *)
Definition buf_of_list (l : list Z) : buf :=
  mkBuf (Z.of_nat (length l)) (cells_of_list 0 l).

(** [data[i]] on a slice: panics out of range. *)
Definition buf_index (b : buf) (i : Z) : run Z :=
  if (0 <=? i) && (i <? buf_len b) then Done (buf_get b i)
  else Panic (IndexOutOfBounds i (buf_len b)).

(** [data[i] = v] on a slice: panics out of range. *)
Definition buf_update (b : buf) (i v : Z) : run buf :=
  if (0 <=? i) && (i <? buf_len b) then Done (buf_set b i v)
  else Panic (IndexOutOfBounds i (buf_len b)).

(** Write a list of bytes from [p] on, without bound check. *)
Fixpoint buf_set_list (b : buf) (p : Z) (l : list Z) : buf :=
  match l with
  | [] => b
  | x :: r => buf_set_list (buf_set b p x) (p + 1) r
  end.

(** [slice[p..p + 4].copy_from_slice(&color.to_le_bytes())]: the range
    is checked against the slice length first. *)
Definition buf_store32 (b : buf) (p v : Z) : run buf :=
  if (0 <=? p) && (p + 4 <=? buf_len b) then Done (buf_set_list b p (le_bytes32 v))
  else Panic (IndexOutOfBounds (p + 4) (buf_len b)).

(** Read back four bytes as a little-endian word. *)
Definition buf_get32 (b : buf) (p : Z) : Z :=
  from_le32 (buf_get b p) (buf_get b (p + 1)) (buf_get b (p + 2)) (buf_get b (p + 3)).

(** Two buffers are equivalent when they have the same length and the
    same bytes; a cell set to 0 and a cell never written are equivalent. *)
Definition buf_equiv (b1 b2 : buf) : Prop :=
  buf_len b1 = buf_len b2 /\ forall i, buf_get b1 i = buf_get b2 i.

(** ** Counted loops

    [for_range n i body s] runs [for k in i..i+n { body(k) }] on the
    state [s], stopping at the first panic. *)
Fixpoint for_range {S : Type} (n : nat) (i : Z) (body : Z -> S -> run S) (s : S) : run S :=
  match n with
  | O => Done s
  | S n' => s' ← body i s; for_range n' (i + 1) body s'
  end.

(** ** Lemmas on machine integers *)

Lemma testbit_above (w n i : Z) : 0 <= w < 2 ^ n -> 0 <= n <= i -> Z.testbit w i = false.
Proof. intros. rewrite <- (Z.mod_small w (2 ^ n)) by lia. apply Z.mod_pow2_bits_high. lia. Qed.

(** [bits] proves an equation of bit operations bit by bit; the bits of a
    bounded operand above its width are discharged by [testbit_above]. *)
Ltac bits :=
  Z.bitblast;
  repeat match goal with
    | H : 0 <= ?w < 2 ^ ?n |- context [Z.testbit ?w ?i] =>
        rewrite (testbit_above w n i H) by lia
    | |- context [Z.testbit ?w ?i] => rewrite (Z.testbit_neg_r w i) by lia
    end;
  try reflexivity; try btauto.

Lemma trunc_mod (n z : Z) : 0 <= n -> trunc n z = z mod 2 ^ n.
Proof. intros. unfold trunc. apply Z.land_ones. lia. Qed.

Lemma trunc_range (n z : Z) : 0 <= n -> 0 <= trunc n z < 2 ^ n.
Proof. intros. rewrite trunc_mod by lia. apply Z.mod_pos_bound. lia. Qed.

Lemma trunc_small (n z : Z) : 0 <= z < 2 ^ n -> trunc n z = z.
Proof.
  intros H. assert (0 <= n \/ n < 0) as [Hn|Hn] by lia.
  - rewrite trunc_mod by lia. apply Z.mod_small. lia.
  - rewrite Z.pow_neg_r in H by lia. lia.
Qed.

Lemma trunc_trunc (n z : Z) : 0 <= n -> trunc n (trunc n z) = trunc n z.
Proof. intros. apply trunc_small. now apply trunc_range. Qed.

Lemma trunc_add_l (n a b : Z) : 0 <= n -> trunc n (trunc n a + b) = trunc n (a + b).
Proof. intros. rewrite !trunc_mod by lia. now rewrite Zplus_mod_idemp_l. Qed.

Lemma trunc_add_r (n a b : Z) : 0 <= n -> trunc n (a + trunc n b) = trunc n (a + b).
Proof. intros. rewrite !trunc_mod by lia. now rewrite Zplus_mod_idemp_r. Qed.

Lemma trunc_sub_r (n a b : Z) : 0 <= n -> trunc n (a - trunc n b) = trunc n (a - b).
Proof. intros. rewrite !trunc_mod by lia. now rewrite Zminus_mod_idemp_r. Qed.

Lemma trunc_mul (n a b : Z) : 0 <= n -> trunc n (trunc n a * trunc n b) = trunc n (a * b).
Proof. intros. rewrite !trunc_mod by lia. now rewrite <- Zmult_mod. Qed.

Lemma trunc_eq_mod (n a b : Z) : 0 <= n -> a mod 2 ^ n = b mod 2 ^ n -> trunc n a = trunc n b.
Proof. intros. rewrite !trunc_mod by lia. assumption. Qed.

Lemma signed_cases (n z : Z) : 0 < n ->
  (signed n z = trunc n z /\ trunc n z < 2 ^ (n - 1)) \/
  (signed n z = trunc n z - 2 ^ n /\ 2 ^ (n - 1) <= trunc n z).
Proof. intros. unfold signed. destruct (Z.ltb_spec (trunc n z) (2 ^ (n - 1))); auto. Qed.

Lemma pow2_pred (n : Z) : 0 < n -> 2 ^ n = 2 * 2 ^ (n - 1).
Proof. intros. rewrite <- Z.pow_succ_r by lia. f_equal. lia. Qed.

Lemma signed_range (n z : Z) : 0 < n -> - 2 ^ (n - 1) <= signed n z < 2 ^ (n - 1).
Proof.
  intros Hn. pose proof (trunc_range n z ltac:(lia)). pose proof (pow2_pred n Hn).
  destruct (signed_cases n z Hn) as [[-> ?]|[-> ?]]; lia.
Qed.

Lemma trunc_signed (n z : Z) : 0 < n -> trunc n (signed n z) = trunc n z.
Proof.
  intros Hn. destruct (signed_cases n z Hn) as [[-> ?]|[-> ?]].
  - apply trunc_trunc. lia.
  - rewrite trunc_mod by lia. rewrite <- Zminus_mod_idemp_r, Z_mod_same_full, Z.sub_0_r.
    rewrite <- trunc_mod by lia. apply trunc_trunc. lia.
Qed.

Lemma signed_mod (n z : Z) : 0 < n -> signed n z mod 2 ^ n = z mod 2 ^ n.
Proof. intros. rewrite <- !trunc_mod by lia. now apply trunc_signed. Qed.

Lemma signed_small (n z : Z) : 0 < n -> - 2 ^ (n - 1) <= z < 2 ^ (n - 1) -> signed n z = z.
Proof.
  intros Hn Hz. pose proof (pow2_pred n Hn). unfold signed. rewrite trunc_mod by lia.
  destruct (Z.leb_spec 0 z).
  - rewrite Z.mod_small by lia. destruct (Z.ltb_spec z (2 ^ (n - 1))); lia.
  - rewrite <- (Z.mod_unique z (2 ^ n) (-1) (z + 2 ^ n)) by lia.
    destruct (Z.ltb_spec (z + 2 ^ n) (2 ^ (n - 1))); lia.
Qed.

Lemma signed_trunc (n z : Z) : 0 <= n -> signed n (trunc n z) = signed n z.
Proof. intros. unfold signed. now rewrite trunc_trunc. Qed.

Lemma trunc_signed_add (n a b : Z) : 0 < n -> trunc n (signed n a + signed n b) = trunc n (a + b).
Proof.
  intros. apply trunc_eq_mod; [lia|]. rewrite Zplus_mod, !signed_mod by lia.
  now rewrite <- Zplus_mod.
Qed.

Lemma trunc_signed_sub (n a b : Z) : 0 < n -> trunc n (signed n a - signed n b) = trunc n (a - b).
Proof.
  intros. apply trunc_eq_mod; [lia|]. rewrite Zminus_mod, !signed_mod by lia.
  now rewrite <- Zminus_mod.
Qed.

Lemma as_u32_range (z : Z) : 0 <= as_u32 z < 2 ^ 32.
Proof. apply trunc_range. lia. Qed.

Lemma as_u16_range (z : Z) : 0 <= as_u16 z < 2 ^ 16.
Proof. apply trunc_range. lia. Qed.

Lemma as_u8_range (z : Z) : 0 <= as_u8 z < 2 ^ 8.
Proof. apply trunc_range. lia. Qed.

Lemma wrapping_add32_range (a b : Z) : 0 <= a +w b < 2 ^ 32.
Proof. apply as_u32_range. Qed.

Lemma wrapping_sub32_range (a b : Z) : 0 <= a -w b < 2 ^ 32.
Proof. apply as_u32_range. Qed.

#[export] Hint Resolve as_u32_range as_u16_range as_u8_range
  wrapping_add32_range wrapping_sub32_range : mips.

Lemma from_le32_le_bytes32 (v : Z) :
  from_le32 (as_u8 v) (as_u8 (Z.shiftr v 8)) (as_u8 (Z.shiftr v 16)) (as_u8 (Z.shiftr v 24))
  = as_u32 v.
Proof. unfold from_le32, as_u8, as_u32, trunc. bits. Qed.


(** The two 32-bit halves of a 64-bit pattern, as HI and LO hold them. *)
Lemma hi_lo_split (z : Z) : as_u32 (Z.shiftr z 32) * 2 ^ 32 + as_u32 z = trunc 64 z.
Proof.
  unfold as_u32. rewrite !trunc_mod by lia. rewrite Z.shiftr_div_pow2 by lia.
  replace (2 ^ 64) with (2 ^ 32 * 2 ^ 32) by reflexivity.
  rewrite Z.rem_mul_r by lia. ring.
Qed.

(** Two 32-bit halves joined into a 64-bit value, as
    [((hi as i64) << 32) | (lo as i64)] does. *)
Lemma hi_lo_join (h l : Z) :
  0 <= h < 2 ^ 32 -> 0 <= l < 2 ^ 32 -> Z.lor (trunc 64 (Z.shiftl h 32)) l = h * 2 ^ 32 + l.
Proof.
  intros Hh Hl. rewrite trunc_small by (rewrite Z.shiftl_mul_pow2 by lia; nia).
  assert (Hd : Z.land (Z.shiftl h 32) l = 0).
  { Z.bitblast. subst. destruct (Z.ltb_spec i 32).
    - now rewrite (Z.testbit_neg_r h) by lia.
    - rewrite (testbit_above l 32 i) by lia. apply andb_false_r. }
  rewrite <- Z.lxor_lor, <- Z.add_nocarry_lxor by exact Hd.
  rewrite Z.shiftl_mul_pow2 by lia. reflexivity.
Qed.

Lemma fits_land (n a b : Z) : fits n a -> fits n b -> fits n (Z.land a b).
Proof.
  unfold fits. intros Ha Hb.
  destruct (Z.ltb_spec n 0) as [Hn|Hn]; [rewrite Z.pow_neg_r in Ha by lia; lia|].
  enough (E : Z.land a b = trunc n (Z.land a b)) by (rewrite E; apply trunc_range; lia).
  unfold trunc. bits.
Qed.

Lemma fits_land_ff (x : Z) : fits 8 (Z.land x 0xFF).
Proof. unfold fits. change 0xFF with (Z.ones 8). rewrite Z.land_ones by lia. apply Z.mod_pos_bound. lia. Qed.

Lemma fits_bitwise (n a b : Z) (f : Z -> Z -> Z) :
  (f = Z.lor \/ f = Z.lxor) -> 0 <= n -> fits n a -> fits n b -> fits n (f a b).
Proof.
  intros Hf Hn Ha Hb. unfold fits in *.
  enough (E : f a b = trunc n (f a b)) by (rewrite E; apply trunc_range; lia).
  unfold trunc. destruct Hf as [->| ->]; bits.
Qed.

Lemma fits_lor (n a b : Z) : 0 <= n -> fits n a -> fits n b -> fits n (Z.lor a b).
Proof. intros. apply fits_bitwise; auto. Qed.

Lemma fits_shiftr (n a s : Z) : 0 <= s -> fits n a -> fits n (Z.shiftr a s).
Proof.
  unfold fits. intros Hs Ha. rewrite Z.shiftr_div_pow2 by lia.
  split; [apply Z.div_pos; lia|]. apply (Z.le_lt_trans _ a); [|lia].
  apply Z.div_le_upper_bound; [lia|]. pose proof (Z.pow_pos_nonneg 2 s). nia.
Qed.

Lemma fits_mod (n a b : Z) : 0 < b -> fits n a -> fits n (a mod b).
Proof.
  unfold fits. intros Hb Ha. pose proof (Z.mod_pos_bound a b Hb).
  pose proof (Z.mod_le a b ltac:(lia) Hb). lia.
Qed.

Lemma fits_div (n a b : Z) : 0 < b -> fits n a -> fits n (a / b).
Proof.
  unfold fits. intros Hb Ha. split; [apply Z.div_pos; lia|].
  apply (Z.le_lt_trans _ a); [|lia]. apply Z.div_le_upper_bound; nia.
Qed.

Lemma fits_trunc (n z : Z) : 0 <= n -> fits n (trunc n z).
Proof. apply trunc_range. Qed.

Lemma fits_01 (n : Z) (b : bool) : 1 <= n -> fits n (if b then 1 else 0).
Proof.
  unfold fits. intros. assert (2 ^ 1 <= 2 ^ n) by (apply Z.pow_le_mono_r; lia).
  destruct b; simpl in *; lia.
Qed.

Lemma fits_widen (n m z : Z) : n <= m -> fits n z -> fits m z.
Proof.
  unfold fits. intros Hnm Hz. destruct (Z.ltb_spec n 0) as [Hn|Hn].
  - rewrite Z.pow_neg_r in Hz by lia. lia.
  - assert (2 ^ n <= 2 ^ m) by (apply Z.pow_le_mono_r; lia). lia.
Qed.

Lemma fits_shiftl (n k b : Z) : 0 <= n -> 0 <= k -> fits n b -> fits (n + k) (Z.shiftl b k).
Proof.
  unfold fits. intros Hn Hk Hb. rewrite Z.shiftl_mul_pow2, Z.pow_add_r by lia.
  pose proof (Z.pow_pos_nonneg 2 k ltac:(lia) Hk). nia.
Qed.

Lemma fits_from_le16 (b0 b1 : Z) : fits 8 b0 -> fits 8 b1 -> fits 16 (from_le16 b0 b1).
Proof.
  intros H0 H1. unfold from_le16. apply fits_lor; [lia| |apply (fits_widen 8); [lia|exact H0]].
  apply (fits_shiftl 8 8); [lia|lia|exact H1].
Qed.

Lemma fits_from_le32 (b0 b1 b2 b3 : Z) :
  fits 8 b0 -> fits 8 b1 -> fits 8 b2 -> fits 8 b3 -> fits 32 (from_le32 b0 b1 b2 b3).
Proof.
  intros H0 H1 H2 H3. unfold from_le32.
  apply fits_lor; [lia|apply (fits_shiftl 8 24); [lia|lia|exact H3]|].
  apply fits_lor; [lia|apply (fits_widen 24); [lia|apply (fits_shiftl 8 16); [lia|lia|exact H2]]|].
  apply fits_lor; [lia|apply (fits_widen 16); [lia|apply (fits_shiftl 8 8); [lia|lia|exact H1]]|].
  apply (fits_widen 8); [lia|exact H0].
Qed.

Lemma fits_as_u32 (z : Z) : fits 32 (as_u32 z).
Proof. apply as_u32_range. Qed.

Lemma fits_wrapping_add32 (a b : Z) : fits 32 (a +w b).
Proof. apply as_u32_range. Qed.

Lemma fits_wrapping_sub32 (a b : Z) : fits 32 (a -w b).
Proof. apply as_u32_range. Qed.

#[export] Hint Resolve fits_wrapping_add32 fits_wrapping_sub32 fits_as_u32 fits_trunc fits_land fits_shiftr fits_mod fits_div : mips.

Lemma wrapping_sub32_small (a b : Z) : 0 <= a - b < 2 ^ 32 -> a -w b = a - b.
Proof. intros. apply trunc_small. lia. Qed.

Lemma wrapping_add32_small (a b : Z) : 0 <= a + b < 2 ^ 32 -> a +w b = a + b.
Proof. intros. apply trunc_small. lia. Qed.

Lemma wrapping_sub32_inj (a b c : Z) : fits 32 a -> fits 32 b -> a -w c = b -w c -> a = b.
Proof.
  unfold fits, wrapping_sub32, as_u32. rewrite !trunc_mod by lia. intros Ha Hb E.
  pose proof (Z.div_mod (a - c) (2 ^ 32) ltac:(lia)) as E1.
  pose proof (Z.div_mod (b - c) (2 ^ 32) ltac:(lia)) as E2.
  rewrite E in E1. set (r := (b - c) mod 2 ^ 32) in *.
  set (q1 := (a - c) / 2 ^ 32) in *. set (q2 := (b - c) / 2 ^ 32) in *.
  assert (q1 = q2) by nia. subst. lia.
Qed.

(** ** Lemmas on byte buffers *)

Lemma buf_get_set_eq (b : buf) (i v : Z) : buf_get (buf_set b i v) i = v.
Proof. unfold buf_get, buf_set. simpl. now rewrite lookup_insert_eq. Qed.

Lemma buf_get_set_ne (b : buf) (i j v : Z) : i <> j -> buf_get (buf_set b i v) j = buf_get b j.
Proof. intros. unfold buf_get, buf_set. simpl. now rewrite lookup_insert_ne. Qed.

Lemma buf_get_set (b : buf) (i j v : Z) :
  buf_get (buf_set b i v) j = if i =? j then v else buf_get b j.
Proof.
  destruct (Z.eqb_spec i j) as [->|]; [apply buf_get_set_eq | now apply buf_get_set_ne].
Qed.

(** Decide the equality tests of [Z] in the goal by [lia]. *)
Ltac zeqb_lia :=
  repeat match goal with
    | |- context [?a =? ?b] =>
        first [ rewrite (proj2 (Z.eqb_eq a b)) by lia
              | rewrite (proj2 (Z.eqb_neq a b)) by lia ]
    end.

Lemma as_u8_idem (z : Z) : as_u8 (as_u8 z) = as_u8 z.
Proof. apply trunc_trunc. lia. Qed.

Lemma buf_len_set (b : buf) (i v : Z) : buf_len (buf_set b i v) = buf_len b.
Proof. reflexivity. Qed.

Lemma buf_len_set_list (b : buf) (p : Z) (l : list Z) : buf_len (buf_set_list b p l) = buf_len b.
Proof. revert b p. induction l; intros; simpl; [|rewrite IHl]; reflexivity. Qed.

Lemma buf_get_set_list_out (b : buf) (p : Z) (l : list Z) (i : Z) :
  i < p \/ p + Z.of_nat (length l) <= i -> buf_get (buf_set_list b p l) i = buf_get b i.
Proof.
  revert b p. induction l as [|x l IH]; intros b p H; simpl; [reflexivity|].
  simpl in H. rewrite IH by lia. apply buf_get_set_ne. lia.
Qed.

Lemma buf_get_set_list_in (b : buf) (p : Z) (l : list Z) (k : nat) :
  (k < length l)%nat -> buf_get (buf_set_list b p l) (p + Z.of_nat k) = nth k l 0.
Proof.
  revert b p k. induction l as [|x l IH]; intros b p k Hk; simpl in *; [lia|].
  destruct k as [|k].
  - rewrite buf_get_set_list_out by lia. rewrite Z.add_0_r. apply buf_get_set_eq.
  - replace (p + Z.of_nat (S k)) with ((p + 1) + Z.of_nat k) by lia. apply IH. lia.
Qed.

Lemma buf_get_zero (n i : Z) : buf_get (buf_zero n) i = 0.
Proof. reflexivity. Qed.

#[export] Hint Rewrite buf_get_set_eq buf_len_set buf_len_set_list buf_get_zero : mips.

Lemma buf_store32_ok (b : buf) (p v : Z) :
  0 <= p -> p + 4 <= buf_len b -> buf_store32 b p v = Done (buf_set_list b p (le_bytes32 v)).
Proof.
  intros. unfold buf_store32. destruct (Z.leb_spec 0 p), (Z.leb_spec (p + 4) (buf_len b)); simpl;
    [reflexivity|lia..].
Qed.

Lemma buf_store32_oob (b : buf) (p v : Z) :
  0 <= p -> buf_len b < p + 4 -> buf_store32 b p v = Panic (IndexOutOfBounds (p + 4) (buf_len b)).
Proof.
  intros. unfold buf_store32. destruct (Z.leb_spec 0 p), (Z.leb_spec (p + 4) (buf_len b)); simpl;
    [lia|reflexivity..].
Qed.

(** Reading back a stored pixel gives the stored word, masked to 32 bits. *)
Lemma buf_get32_set_list (b : buf) (p v : Z) :
  buf_get32 (buf_set_list b p (le_bytes32 v)) p = as_u32 v.
Proof.
  assert (E : forall k, (k < 4)%nat ->
    buf_get (buf_set_list b p (le_bytes32 v)) (p + Z.of_nat k) = nth k (le_bytes32 v) 0)
    by (intros; apply buf_get_set_list_in; simpl; lia).
  unfold buf_get32. rewrite <- from_le32_le_bytes32.
  pose proof (E 0%nat) as E0; pose proof (E 1%nat) as E1;
    pose proof (E 2%nat) as E2; pose proof (E 3%nat) as E3.
  change (Z.of_nat 0) with 0 in E0; change (Z.of_nat 1) with 1 in E1;
    change (Z.of_nat 2) with 2 in E2; change (Z.of_nat 3) with 3 in E3.
  rewrite Z.add_0_r in E0.
  rewrite E0, E1, E2, E3 by lia. reflexivity.
Qed.

(** ** The buffer equivalence is a setoid; reads and writes respect it *)

#[export] Instance buf_equiv_Equivalence : Equivalence buf_equiv.
Proof.
  split.
  - intros b. split; reflexivity.
  - intros b1 b2 [H1 H2]. split; [easy|]. intros i. now rewrite H2.
  - intros b1 b2 b3 [H1 H2] [H3 H4]. split; [congruence|]. intros i. now rewrite H2, H4.
Qed.

#[export] Instance buf_get_Proper : Proper (buf_equiv ==> eq ==> eq) buf_get.
Proof. intros b1 b2 [_ H] i j ->. apply H. Qed.

#[export] Instance buf_len_Proper : Proper (buf_equiv ==> eq) buf_len.
Proof. intros b1 b2 [H _]. exact H. Qed.

#[export] Instance buf_set_Proper : Proper (buf_equiv ==> eq ==> eq ==> buf_equiv) buf_set.
Proof.
  intros b1 b2 [H1 H2] i ? <- v ? <-. split; [exact H1|]. intros j.
  destruct (decide (i = j)) as [<-|Hne].
  - now rewrite !buf_get_set_eq.
  - now rewrite !buf_get_set_ne.
Qed.

#[export] Instance buf_set_list_Proper : Proper (buf_equiv ==> eq ==> eq ==> buf_equiv) buf_set_list.
Proof.
  intros b1 b2 Hb p ? <- l ? <-. revert b1 b2 Hb p.
  induction l; intros b1 b2 Hb p; simpl; [exact Hb|]. apply IHl. now rewrite Hb.
Qed.

(** ** The [run] monad *)

Lemma run_bind_Done {A B} (a : A) (f : A -> run B) : (Done a ≫= f) = f a.
Proof. reflexivity. Qed.

Lemma run_bind_Panic {A B} (p : panic) (f : A -> run B) : (Panic p ≫= f) = Panic p.
Proof. reflexivity. Qed.

Lemma run_bind_Done_inv {A B} (m : run A) (f : A -> run B) (b : B) :
  (m ≫= f) = Done b -> exists a, m = Done a /\ f a = Done b.
Proof. destruct m; simpl; [eauto|discriminate]. Qed.

#[export] Hint Rewrite @run_bind_Done @run_bind_Panic : mips.

(** The value of a run that did not panic, [d] otherwise. *)
Definition result {A} (r : run A) (d : A) : A := match r with Done a => a | Panic _ => d end.

(** Split the binds of [run] in [H] into the equations of their parts. *)
Ltac run_inv H :=
  repeat match type of H with
    | context [mbind _ ?m] =>
        let E := fresh "E" in let x := fresh "x" in
        destruct m as [x|?] eqn:E;
        repeat match type of x with (_ * _)%type => destruct x as [x ?] end;
        cbn in H; try discriminate H
    end.

(** [run_inv] on every hypothesis that binds a computation. *)
Ltac run_inv_all :=
  repeat match goal with
    | H : context [mbind _ _] |- _ => progress run_inv H
    end.

(** ** Buffers of bytes

    A [Vec<u8>] holds bytes: every cell of a [buf] that models one is in
    [0, 256).  The writes of the model keep this when what they write is a
    byte. *)
Definition bytes_ok (v : buf) : Prop := forall i, fits 8 (buf_get v i).

Lemma fits_as_u8 (z : Z) : fits 8 (as_u8 z).
Proof. apply as_u8_range. Qed.

Lemma bytes_ok_zero (n : Z) : bytes_ok (buf_zero n).
Proof. intros i. rewrite buf_get_zero. unfold fits. lia. Qed.

Lemma bytes_ok_set (v : buf) (i x : Z) : fits 8 x -> bytes_ok v -> bytes_ok (buf_set v i x).
Proof. intros Hx Hv j. rewrite buf_get_set. destruct (i =? j); auto. Qed.

Lemma bytes_ok_set_list (v : buf) (p : Z) (l : list Z) :
  Forall (fits 8) l -> bytes_ok v -> bytes_ok (buf_set_list v p l).
Proof.
  intros Hl. revert v p. induction Hl as [|x l Hx Hl IH]; intros v p Hv; [exact Hv|].
  apply IH, bytes_ok_set; assumption.
Qed.

Lemma le_bytes32_fits (c : Z) : Forall (fits 8) (le_bytes32 c).
Proof. repeat constructor; apply fits_as_u8. Qed.

Lemma cells_of_list_elem (l : list Z) (k i x : Z) : cells_of_list k l !! i = Some x -> x ∈ l.
Proof.
  revert k. induction l as [|y l IH]; intros k; cbn; [rewrite lookup_empty; discriminate|].
  destruct (decide (k = i)) as [->|Hne].
  - rewrite lookup_insert_eq. intros [= ->]. left.
  - rewrite lookup_insert_ne by exact Hne. intros H. right. exact (IH _ H).
Qed.

Lemma bytes_ok_of_list (l : list Z) : Forall (fits 8) l -> bytes_ok (buf_of_list l).
Proof.
  intros Hl i. unfold buf_get, buf_of_list. cbn.
  destruct (cells_of_list 0 l !! i) as [x|] eqn:E; cbn; [|unfold fits; lia].
  rewrite Forall_forall in Hl. exact (Hl x (cells_of_list_elem _ _ _ _ E)).
Qed.

Lemma bytes_ok_store32 (v v' : buf) (p c : Z) :
  buf_store32 v p c = Done v' -> bytes_ok v -> bytes_ok v'.
Proof.
  unfold buf_store32. case_match; [|discriminate]. intros E Hv. injection E as <-.
  exact (bytes_ok_set_list _ _ _ (le_bytes32_fits c) Hv).
Qed.

Lemma bytes_ok_update (v v' : buf) (p x : Z) :
  fits 8 x -> buf_update v p x = Done v' -> bytes_ok v -> bytes_ok v'.
Proof.
  unfold buf_update. case_match; [|discriminate]. intros Hx E. injection E as <-.
  apply bytes_ok_set, Hx.
Qed.

Lemma bytes_ok_index (v : buf) (i x : Z) : buf_index v i = Done x -> bytes_ok v -> fits 8 x.
Proof. unfold buf_index. case_match; [|discriminate]. intros E Hv. injection E as <-. apply Hv. Qed.

Create HintDb bytes.
#[export] Hint Resolve fits_as_u8 bytes_ok_zero bytes_ok_set bytes_ok_set_list le_bytes32_fits
  bytes_ok_of_list : bytes.

(** A property kept by every iteration of a loop holds after it. *)
Lemma for_range_inv {S : Type} (P : S -> Prop) (n : nat) (i : Z) (body : Z -> S -> run S) (s s' : S) :
  (forall k t t', P t -> body k t = Done t' -> P t') ->
  P s -> for_range n i body s = Done s' -> P s'.
Proof.
  intros Hb. revert i s. induction n as [|n IH]; intros i s Hs; simpl.
  - intros [= <-]. exact Hs.
  - intros H. apply run_bind_Done_inv in H as (t & Ht & H). eapply IH; [|exact H]. eauto.
Qed.

(** A loop whose body appends [g k] at step [k] builds the list of the
    [g k], in order. *)
Lemma for_range_snoc {A : Type} (g : Z -> A) (n : nat) (i : Z) (body : Z -> list A -> run (list A)) (acc : list A) :
  (forall k l, i <= k < i + Z.of_nat n -> body k l = Done (l ++ [g k])) ->
  for_range n i body acc = Done (acc ++ map g (seqZ i (Z.of_nat n))).
Proof.
  revert i acc. induction n as [|n IH]; intros i acc Hb; cbn [for_range].
  - rewrite seqZ_nil by lia. by rewrite app_nil_r.
  - rewrite Hb by lia. cbn [mbind run_bind]. rewrite IH by (intros; apply Hb; lia).
    rewrite (seqZ_cons i) by lia. replace (Z.succ i) with (i + 1) by lia.
    replace (Z.pred (Z.of_nat (S n))) with (Z.of_nat n) by lia. by rewrite <- app_assoc.
Qed.
