(* ===== verification/Float64.v ===== *)
(** * IEEE-754 binary64: [f64::from_bits] and [f64::to_bits]

    The coprocessor-1 bank of [cop.rs] holds [f64] values, and exposes
    them both as values ([read_f]/[write_f]) and as their bit patterns
    ([read_bits]/[write_bits], through [f64::to_bits] and
    [f64::from_bits]).  A value is a [SpecFloat.spec_float] of the
    Standard Library (precision 53, maximal exponent 1024): a signed
    zero, a signed infinity, NaN, or [± m * 2^e] with a canonical
    mantissa.  NaN carries no payload there, so [bits_of_f64] writes the
    quiet NaN [0x7FF8_0000_0000_0000] of [f64::NAN].

    The bit layout is the sign in bit 63, the biased exponent in bits 52
    to 62 and the fraction in bits 0 to 51.  The two functions are
    inverse: on every pattern that is not a NaN ([bits_of_f64_of_bits])
    and on every valid value ([f64_of_bits_of_f64]). *)

From S2P Require Import Prelude.
From Stdlib Require Import SpecFloat.

Module Float64.

Definition prec : Z := 53.
Definition emax : Z := 1024.

Definition sign_bit (s : bool) : Z := if s then 2 ^ 63 else 0.

(** The fields of a pattern. *)
Definition fraction (b : Z) : Z := b mod 2 ^ 52.
Definition biased_exponent (b : Z) : Z := (b / 2 ^ 52) mod 2 ^ 11.
Definition sign (b : Z) : bool := 2 ^ 63 <=? b.

(** A NaN pattern: all exponent bits set and a non-zero fraction. *)
Definition is_nan_bits (b : Z) : bool :=
  (biased_exponent b =? 2047) && negb (fraction b =? 0).

(** [f64::from_bits]. *)
Definition f64_of_bits (b : Z) : spec_float :=
  let m := fraction b in
  let e := biased_exponent b in
  let s := sign b in
  if e =? 0 then
    if m =? 0 then S754_zero s else S754_finite s (Z.to_pos m) (-1074)
  else if e =? 2047 then
    if m =? 0 then S754_infinity s else S754_nan
  else S754_finite s (Z.to_pos (m + 2 ^ 52)) (e - 1075).

(** [f64::to_bits]: a mantissa below [2^52] is subnormal. *)
Definition bits_of_f64 (x : spec_float) : Z :=
  match x with
  | S754_zero s => sign_bit s
  | S754_infinity s => sign_bit s + 2047 * 2 ^ 52
  | S754_nan => 0x7FF8_0000_0000_0000
  | S754_finite s m e =>
      if Z.pos m <? 2 ^ 52 then sign_bit s + Z.pos m
      else sign_bit s + (e + 1075) * 2 ^ 52 + (Z.pos m - 2 ^ 52)
  end.

(** ** Lemmas *)

Lemma digits2_pos_log2 (p : positive) : Z.pos (digits2_pos p) = Z.log2 (Z.pos p) + 1.
Proof.
  induction p as [p IH|p IH|]; cbn [digits2_pos]; [| |reflexivity];
    rewrite Pos2Z.inj_succ, IH; [rewrite (Pos2Z.inj_xI p), Z.log2_succ_double | rewrite (Pos2Z.inj_xO p), Z.log2_double];
    lia.
Qed.

(** A pattern assembled from its three fields gives them back. *)
Lemma fields_join (s : bool) (e m : Z) :
  0 <= e < 2 ^ 11 -> 0 <= m < 2 ^ 52 ->
  fraction (sign_bit s + e * 2 ^ 52 + m) = m /\
  biased_exponent (sign_bit s + e * 2 ^ 52 + m) = e /\
  sign (sign_bit s + e * 2 ^ 52 + m) = s.
Proof.
  intros He Hm. unfold fraction, biased_exponent, sign.
  assert (Hq : (sign_bit s + e * 2 ^ 52 + m) / 2 ^ 52 = (if s then 2 ^ 11 else 0) + e).
  { symmetry. apply (Z.div_unique _ _ _ m); [lia | unfold sign_bit; destruct s; lia]. }
  rewrite Hq. split; [|split].
  - symmetry. apply (Z.mod_unique _ _ ((if s then 2 ^ 11 else 0) + e)); [lia | unfold sign_bit; destruct s; lia].
  - symmetry. apply (Z.mod_unique _ _ (if s then 1 else 0)); [lia | destruct s; lia].
  - unfold sign_bit. destruct s; [apply Z.leb_le | apply Z.leb_gt]; lia.
Qed.

(** Every 64-bit pattern is its three fields. *)
Lemma fields_split (b : Z) :
  0 <= b < 2 ^ 64 ->
  b = sign_bit (sign b) + biased_exponent b * 2 ^ 52 + fraction b /\
  0 <= biased_exponent b < 2 ^ 11 /\ 0 <= fraction b < 2 ^ 52.
Proof.
  intros Hb. unfold sign_bit, sign, biased_exponent, fraction.
  pose proof (Z.div_mod b (2 ^ 52) ltac:(lia)). pose proof (Z.mod_pos_bound b (2 ^ 52) ltac:(lia)).
  set (q := b / 2 ^ 52) in *.
  pose proof (Z.div_mod q (2 ^ 11) ltac:(lia)). pose proof (Z.mod_pos_bound q (2 ^ 11) ltac:(lia)).
  assert (0 <= q < 2 ^ 12) by (subst q; split; [apply Z.div_pos | apply Z.div_lt_upper_bound]; lia).
  destruct (Z.leb_spec (2 ^ 63) b); lia.
Qed.

Lemma sign_bit_bound (s : bool) : 0 <= sign_bit s <= 2 ^ 63.
Proof. destruct s; cbn; lia. Qed.

(** ** The two conversions are inverse *)

(** [f64::from_bits] then [f64::to_bits] gives back every pattern that
    is not a NaN. *)
Lemma bits_of_f64_of_bits (b : Z) :
  0 <= b < 2 ^ 64 -> is_nan_bits b = false -> bits_of_f64 (f64_of_bits b) = b.
Proof.
  intros Hb Hn. destruct (fields_split b Hb) as (Eb & He & Hm).
  unfold is_nan_bits in Hn. unfold f64_of_bits.
  set (e := biased_exponent b) in *. set (m := fraction b) in *. set (s := sign b) in *.
  destruct (Z.eqb_spec e 0) as [E0|E0]; [destruct (Z.eqb_spec m 0) as [M0|M0]|];
    [| |destruct (Z.eqb_spec e 2047) as [E1|E1]; [destruct (Z.eqb_spec m 0) as [M0|M0]|]];
    cbn [bits_of_f64]; try discriminate.
  - lia.
  - rewrite Z2Pos.id by lia. destruct (Z.ltb_spec m (2 ^ 52)); lia.
  - lia.
  - rewrite Z2Pos.id by lia. destruct (Z.ltb_spec (m + 2 ^ 52) (2 ^ 52)); lia.
Qed.

(** [f64::to_bits] then [f64::from_bits] gives back every valid value. *)
Lemma f64_of_bits_of_f64 (x : spec_float) :
  valid_binary prec emax x = true -> f64_of_bits (bits_of_f64 x) = x.
Proof.
  destruct x as [s|s| |s m e]; intros Hv; cbn [bits_of_f64].
  - destruct (fields_join s 0 0 ltac:(lia) ltac:(lia)) as (F & E & S).
    rewrite Z.mul_0_l, !Z.add_0_r in F, E, S. unfold f64_of_bits. rewrite F, E, S. reflexivity.
  - destruct (fields_join s 2047 0 ltac:(lia) ltac:(lia)) as (F & E & S).
    rewrite Z.add_0_r in F, E, S. unfold f64_of_bits. rewrite F, E, S. reflexivity.
  - reflexivity.
  - unfold valid_binary, bounded, canonical_mantissa, fexp, emin, prec, emax in Hv.
    apply andb_true_iff in Hv as [Hc He]. apply Z.eqb_eq in Hc. apply Z.leb_le in He.
    rewrite digits2_pos_log2 in Hc. pose proof (Z.log2_spec (Z.pos m) ltac:(lia)) as Hl.
    unfold f64_of_bits. destruct (Z.ltb_spec (Z.pos m) (2 ^ 52)) as [Hs|Hs].
    + (* subnormal: the exponent is the minimum *)
      assert (Z.log2 (Z.pos m) < 52) by (apply Z.log2_lt_pow2; lia).
      assert (e = -1074) by lia. subst e.
      destruct (fields_join s 0 (Z.pos m) ltac:(lia) ltac:(lia)) as (F & E & S).
      rewrite Z.mul_0_l, Z.add_0_r in F, E, S. rewrite F, E, S. cbn.
      destruct (Z.eqb_spec (Z.pos m) 0); [lia | reflexivity].
    + (* normal: 53 digits *)
      assert (52 <= Z.log2 (Z.pos m)) by (apply Z.log2_le_pow2; lia).
      assert (Hd : Z.log2 (Z.pos m) = 52) by lia. rewrite Hd in Hl.
      destruct (fields_join s (e + 1075) (Z.pos m - 2 ^ 52) ltac:(lia) ltac:(lia)) as (F & E & S).
      rewrite F, E, S.
      destruct (Z.eqb_spec (e + 1075) 0); [lia|]. destruct (Z.eqb_spec (e + 1075) 2047); [lia|].
      f_equal; [apply Pos2Z.inj; rewrite Z2Pos.id by lia|]; lia.
Qed.

End Float64.
