(* ===== verification/Instructions.v ===== *)
(** * Instruction formats, decoding and encoding ([instructions.rs])

    Each format of the source is a module with its record [t] (fields of
    type [u8], [u16] or [u32], here [Z]), [decode] and [encode].
    [Instruction] is the tagged union of the source, dispatched on the top
    six bits.  The theorems show that decoding and encoding are inverse:
    every 32-bit word is re-encoded exactly, except that the COP0 format
    drops bits 6..10, and every well-formed instruction is decoded back. *)

From S2P Require Import Prelude.

Module RType.
Record t := mk { opcode : Z; rs : Z; rt : Z; rd : Z; shamt : Z; funct : Z }.

Definition decode (instr : Z) : t :=
  mk (Z.land (Z.shiftr instr 26) 0x3F) (Z.land (Z.shiftr instr 21) 0x1F)
     (Z.land (Z.shiftr instr 16) 0x1F) (Z.land (Z.shiftr instr 11) 0x1F)
     (Z.land (Z.shiftr instr 6) 0x1F) (Z.land instr 0x3F).

Definition encode (r : t) : Z :=
  Z.lor (as_u32 (Z.shiftl (opcode r) 26))
    (Z.lor (as_u32 (Z.shiftl (rs r) 21))
      (Z.lor (as_u32 (Z.shiftl (rt r) 16))
        (Z.lor (as_u32 (Z.shiftl (rd r) 11))
          (Z.lor (as_u32 (Z.shiftl (shamt r) 6)) (funct r))))).

(** Every field fits the width the format gives it. *)
Definition wf (r : t) : bool :=
  bool_decide (fits 6 (opcode r) /\ fits 5 (rs r) /\ fits 5 (rt r) /\ fits 5 (rd r)
               /\ fits 5 (shamt r) /\ fits 6 (funct r)).
End RType.

Module IType.
Record t := mk { opcode : Z; rs : Z; rt : Z; imm : Z }.

Definition decode (instr : Z) : t :=
  mk (Z.land (Z.shiftr instr 26) 0x3F) (Z.land (Z.shiftr instr 21) 0x1F)
     (Z.land (Z.shiftr instr 16) 0x1F) (Z.land instr 0xFFFF).

Definition encode (i : t) : Z :=
  Z.lor (as_u32 (Z.shiftl (opcode i) 26))
    (Z.lor (as_u32 (Z.shiftl (rs i) 21))
      (Z.lor (as_u32 (Z.shiftl (rt i) 16)) (imm i))).

Definition wf (i : t) : bool :=
  bool_decide (fits 6 (opcode i) /\ fits 5 (rs i) /\ fits 5 (rt i) /\ fits 16 (imm i)).
End IType.

Module JType.
Record t := mk { opcode : Z; target : Z }.

Definition decode (instr : Z) : t :=
  mk (Z.land (Z.shiftr instr 26) 0x3F) (Z.land instr 0x03FF_FFFF).

Definition encode (j : t) : Z :=
  Z.lor (as_u32 (Z.shiftl (opcode j) 26)) (Z.land (target j) 0x03FF_FFFF).

Definition wf (j : t) : bool :=
  bool_decide (fits 6 (opcode j) /\ fits 26 (target j)).
End JType.

Module Cop0Ins.
Record t := mk { opcode : Z; rs : Z; rt : Z; rd : Z; sel : Z; funct : Z }.

(** [sel] and [funct] overlap: both are read from the low bits. *)
Definition decode (instr : Z) : t :=
  mk (Z.land (Z.shiftr instr 26) 0x3F) (Z.land (Z.shiftr instr 21) 0x1F)
     (Z.land (Z.shiftr instr 16) 0x1F) (Z.land (Z.shiftr instr 11) 0x1F)
     (Z.land instr 0x7) (Z.land instr 0x3F).

(** [sel] is not encoded, nor are bits 6..10 of the word. *)
Definition encode (c : t) : Z :=
  Z.lor (as_u32 (Z.shiftl (opcode c) 26))
    (Z.lor (as_u32 (Z.shiftl (rs c) 21))
      (Z.lor (as_u32 (Z.shiftl (rt c) 16))
        (Z.lor (as_u32 (Z.shiftl (rd c) 11)) (funct c)))).

Definition wf (c : t) : bool :=
  bool_decide (fits 6 (opcode c) /\ fits 5 (rs c) /\ fits 5 (rt c) /\ fits 5 (rd c)
               /\ fits 6 (funct c) /\ sel c = Z.land (funct c) 0x7).
End Cop0Ins.

Module Cop1Ins.
Record t := mk { opcode : Z; fmt : Z; ft : Z; fs : Z; fd : Z; funct : Z }.

Definition decode (instr : Z) : t :=
  mk (Z.land (Z.shiftr instr 26) 0x3F) (Z.land (Z.shiftr instr 21) 0x1F)
     (Z.land (Z.shiftr instr 16) 0x1F) (Z.land (Z.shiftr instr 11) 0x1F)
     (Z.land (Z.shiftr instr 6) 0x1F) (Z.land instr 0x3F).

Definition encode (c : t) : Z :=
  Z.lor (as_u32 (Z.shiftl (opcode c) 26))
    (Z.lor (as_u32 (Z.shiftl (fmt c) 21))
      (Z.lor (as_u32 (Z.shiftl (ft c) 16))
        (Z.lor (as_u32 (Z.shiftl (fs c) 11))
          (Z.lor (as_u32 (Z.shiftl (fd c) 6)) (funct c))))).

Definition wf (c : t) : bool :=
  bool_decide (fits 6 (opcode c) /\ fits 5 (fmt c) /\ fits 5 (ft c) /\ fits 5 (fs c)
               /\ fits 5 (fd c) /\ fits 6 (funct c)).
End Cop1Ins.

Module Special2.
Record t := mk { opcode : Z; rs : Z; rt : Z; rd : Z; shamt : Z; funct : Z }.

Definition decode (instr : Z) : t :=
  mk (Z.land (Z.shiftr instr 26) 0x3F) (Z.land (Z.shiftr instr 21) 0x1F)
     (Z.land (Z.shiftr instr 16) 0x1F) (Z.land (Z.shiftr instr 11) 0x1F)
     (Z.land (Z.shiftr instr 6) 0x1F) (Z.land instr 0x3F).

Definition encode (s : t) : Z :=
  Z.lor (as_u32 (Z.shiftl (opcode s) 26))
    (Z.lor (as_u32 (Z.shiftl (rs s) 21))
      (Z.lor (as_u32 (Z.shiftl (rt s) 16))
        (Z.lor (as_u32 (Z.shiftl (rd s) 11))
          (Z.lor (as_u32 (Z.shiftl (shamt s) 6)) (funct s))))).

Definition wf (s : t) : bool :=
  bool_decide (fits 6 (opcode s) /\ fits 5 (rs s) /\ fits 5 (rt s) /\ fits 5 (rd s)
               /\ fits 5 (shamt s) /\ fits 6 (funct s)).
End Special2.

Module Special3.
Record t := mk { opcode : Z; rs : Z; rt : Z; rd : Z; sa : Z; funct : Z }.

Definition decode (instr : Z) : t :=
  mk (Z.land (Z.shiftr instr 26) 0x3F) (Z.land (Z.shiftr instr 21) 0x1F)
     (Z.land (Z.shiftr instr 16) 0x1F) (Z.land (Z.shiftr instr 11) 0x1F)
     (Z.land (Z.shiftr instr 6) 0x1F) (Z.land instr 0x3F).

Definition encode (s : t) : Z :=
  Z.lor (as_u32 (Z.shiftl (opcode s) 26))
    (Z.lor (as_u32 (Z.shiftl (rs s) 21))
      (Z.lor (as_u32 (Z.shiftl (rt s) 16))
        (Z.lor (as_u32 (Z.shiftl (rd s) 11))
          (Z.lor (as_u32 (Z.shiftl (sa s) 6)) (funct s))))).

Definition wf (s : t) : bool :=
  bool_decide (fits 6 (opcode s) /\ fits 5 (rs s) /\ fits 5 (rt s) /\ fits 5 (rd s)
               /\ fits 5 (sa s) /\ fits 6 (funct s)).
End Special3.

Inductive Instruction :=
  | RType (r : RType.t)
  | IType (i : IType.t)
  | JType (j : JType.t)
  | Cop0 (c : Cop0Ins.t)
  | Cop1 (c : Cop1Ins.t)
  | Special2 (s : Special2.t)
  | Special3 (s : Special3.t)
  | Invalid (raw : Z).

(** [Instruction::decode]: the dispatch key is the top six bits. *)
Definition decode (instr : Z) : Instruction :=
  let opcode := Z.land (Z.shiftr instr 26) 0x3F in
  if opcode =? 0x00 then RType (RType.decode instr)
  else if opcode =? 0x10 then Cop0 (Cop0Ins.decode instr)
  else if opcode =? 0x11 then Cop1 (Cop1Ins.decode instr)
  else if opcode =? 0x1C then Special2 (Special2.decode instr)
  else if opcode =? 0x1F then Special3 (Special3.decode instr)
  else if (opcode =? 0x02) || (opcode =? 0x03) then JType (JType.decode instr)
  else IType (IType.decode instr).

(** [Instruction::encode]. *)
Definition encode (i : Instruction) : Z :=
  match i with
  | RType r => RType.encode r
  | IType i => IType.encode i
  | JType j => JType.encode j
  | Cop0 c => Cop0Ins.encode c
  | Cop1 c => Cop1Ins.encode c
  | Special2 s => Special2.encode s
  | Special3 s => Special3.encode s
  | Invalid val => val
  end.

(** The opcode a variant must carry for [decode] to choose it. *)
Definition opcode_selects (op : Z) (i : Instruction) : bool :=
  match i with
  | RType _ => op =? 0x00
  | Cop0 _ => op =? 0x10
  | Cop1 _ => op =? 0x11
  | Special2 _ => op =? 0x1C
  | Special3 _ => op =? 0x1F
  | JType _ => (op =? 0x02) || (op =? 0x03)
  | IType _ => negb (bool_decide (op ∈ [0x00; 0x02; 0x03; 0x10; 0x11; 0x1C; 0x1F]))
  | Invalid _ => false
  end.

(** A well-formed instruction: its fields fit and its opcode selects its
    variant.  [decode] never produces [Invalid]. *)
Definition wf (i : Instruction) : bool :=
  match i with
  | RType r => RType.wf r && opcode_selects (RType.opcode r) i
  | IType x => IType.wf x && opcode_selects (IType.opcode x) i
  | JType j => JType.wf j && opcode_selects (JType.opcode j) i
  | Cop0 c => Cop0Ins.wf c && opcode_selects (Cop0Ins.opcode c) i
  | Cop1 c => Cop1Ins.wf c && opcode_selects (Cop1Ins.opcode c) i
  | Special2 s => Special2.wf s && opcode_selects (Special2.opcode s) i
  | Special3 s => Special3.wf s && opcode_selects (Special3.opcode s) i
  | Invalid _ => false
  end.

(** ** Round trips, format by format *)

(** Unfold a format's definitions and prove a bit equation. *)
Ltac fmt_bits :=
  unfold as_u32, trunc, fits in *;
  change 0x3F with (Z.ones 6); change 0x1F with (Z.ones 5); change 0xFFFF with (Z.ones 16);
  change 0x03FF_FFFF with (Z.ones 26); change 0x7 with (Z.ones 3);
  bits.

Lemma RType_encode_decode (w : Z) : fits 32 w -> RType.encode (RType.decode w) = w.
Proof. intros H. unfold RType.encode, RType.decode. simpl. fmt_bits. Qed.

Lemma RType_decode_encode (r : RType.t) : RType.wf r = true -> RType.decode (RType.encode r) = r.
Proof.
  destruct r as [op rs rt rd sh fn]. unfold RType.wf. rewrite bool_decide_eq_true. simpl.
  intros (?&?&?&?&?&?). unfold RType.decode, RType.encode. simpl. f_equal; fmt_bits.
Qed.

Lemma IType_encode_decode (w : Z) : fits 32 w -> IType.encode (IType.decode w) = w.
Proof. intros H. unfold IType.encode, IType.decode. simpl. fmt_bits. Qed.

Lemma IType_decode_encode (i : IType.t) : IType.wf i = true -> IType.decode (IType.encode i) = i.
Proof.
  destruct i. unfold IType.wf. rewrite bool_decide_eq_true. simpl.
  intros (?&?&?&?). unfold IType.decode, IType.encode. simpl. f_equal; fmt_bits.
Qed.

Lemma JType_encode_decode (w : Z) : fits 32 w -> JType.encode (JType.decode w) = w.
Proof. intros H. unfold JType.encode, JType.decode. simpl. fmt_bits. Qed.

Lemma JType_decode_encode (j : JType.t) : JType.wf j = true -> JType.decode (JType.encode j) = j.
Proof.
  destruct j. unfold JType.wf. rewrite bool_decide_eq_true. simpl.
  intros (?&?). unfold JType.decode, JType.encode. simpl. f_equal; fmt_bits.
Qed.

Lemma Cop1_encode_decode (w : Z) : fits 32 w -> Cop1Ins.encode (Cop1Ins.decode w) = w.
Proof. intros H. unfold Cop1Ins.encode, Cop1Ins.decode. simpl. fmt_bits. Qed.

Lemma Cop1_decode_encode (c : Cop1Ins.t) :
  Cop1Ins.wf c = true -> Cop1Ins.decode (Cop1Ins.encode c) = c.
Proof.
  destruct c. unfold Cop1Ins.wf. rewrite bool_decide_eq_true. simpl.
  intros (?&?&?&?&?&?). unfold Cop1Ins.decode, Cop1Ins.encode. simpl. f_equal; fmt_bits.
Qed.

Lemma Special2_encode_decode (w : Z) : fits 32 w -> Special2.encode (Special2.decode w) = w.
Proof. intros H. unfold Special2.encode, Special2.decode. simpl. fmt_bits. Qed.

Lemma Special2_decode_encode (s : Special2.t) :
  Special2.wf s = true -> Special2.decode (Special2.encode s) = s.
Proof.
  destruct s. unfold Special2.wf. rewrite bool_decide_eq_true. simpl.
  intros (?&?&?&?&?&?). unfold Special2.decode, Special2.encode. simpl. f_equal; fmt_bits.
Qed.

Lemma Special3_encode_decode (w : Z) : fits 32 w -> Special3.encode (Special3.decode w) = w.
Proof. intros H. unfold Special3.encode, Special3.decode. simpl. fmt_bits. Qed.

Lemma Special3_decode_encode (s : Special3.t) :
  Special3.wf s = true -> Special3.decode (Special3.encode s) = s.
Proof.
  destruct s. unfold Special3.wf. rewrite bool_decide_eq_true. simpl.
  intros (?&?&?&?&?&?). unfold Special3.decode, Special3.encode. simpl. f_equal; fmt_bits.
Qed.

(** COP0 keeps every bit but 6..10, which it clears. *)
Lemma Cop0_encode_decode (w : Z) :
  fits 32 w -> Cop0Ins.encode (Cop0Ins.decode w) = Z.ldiff w (Z.shiftl (Z.ones 5) 6).
Proof. intros H. unfold Cop0Ins.encode, Cop0Ins.decode. simpl. fmt_bits. Qed.

Lemma Cop0_decode_encode (c : Cop0Ins.t) :
  Cop0Ins.wf c = true -> Cop0Ins.decode (Cop0Ins.encode c) = c.
Proof.
  destruct c as [op rs rt rd sel fn]. unfold Cop0Ins.wf. rewrite bool_decide_eq_true. simpl.
  intros (?&?&?&?&?&->). unfold Cop0Ins.decode, Cop0Ins.encode. simpl. f_equal; fmt_bits.
Qed.

(** ** Round trips of [Instruction] *)

Lemma field_fits (w s n : Z) : 0 <= n -> fits n (Z.land (Z.shiftr w s) (Z.ones n)).
Proof. intros Hn. unfold fits. rewrite Z.land_ones by lia. apply Z.mod_pos_bound. lia. Qed.

Lemma field_fits0 (w n : Z) : 0 <= n -> fits n (Z.land w (Z.ones n)).
Proof. intros Hn. rewrite <- (Z.shiftr_0_r w). now apply field_fits. Qed.

Ltac decode_fields :=
  rewrite bool_decide_eq_true; simpl;
  change 0x3F with (Z.ones 6); change 0x1F with (Z.ones 5); change 0xFFFF with (Z.ones 16);
  change 0x03FF_FFFF with (Z.ones 26); change 0x7 with (Z.ones 3);
  repeat split; first [apply field_fits | apply field_fits0]; lia.

Lemma RType_decode_wf (w : Z) : RType.wf (RType.decode w) = true.
Proof. unfold RType.wf; decode_fields. Qed.
Lemma IType_decode_wf (w : Z) : IType.wf (IType.decode w) = true.
Proof. unfold IType.wf; decode_fields. Qed.
Lemma JType_decode_wf (w : Z) : JType.wf (JType.decode w) = true.
Proof. unfold JType.wf; decode_fields. Qed.
Lemma Cop0_decode_wf (w : Z) : Cop0Ins.wf (Cop0Ins.decode w) = true.
Proof.
  unfold Cop0Ins.wf. rewrite bool_decide_eq_true. simpl.
  split_and!; try (change 0x3F with (Z.ones 6); change 0x1F with (Z.ones 5);
                   first [apply field_fits | apply field_fits0]; lia).
  rewrite <- Z.land_assoc. reflexivity.
Qed.
Lemma Cop1_decode_wf (w : Z) : Cop1Ins.wf (Cop1Ins.decode w) = true.
Proof. unfold Cop1Ins.wf; decode_fields. Qed.
Lemma Special2_decode_wf (w : Z) : Special2.wf (Special2.decode w) = true.
Proof. unfold Special2.wf; decode_fields. Qed.
Lemma Special3_decode_wf (w : Z) : Special3.wf (Special3.decode w) = true.
Proof. unfold Special3.wf; decode_fields. Qed.

Lemma decode_wf (w : Z) : wf (decode w) = true.
Proof.
  assert (Hop : 0 <= Z.land (Z.shiftr w 26) 0x3F < 64) by (apply (field_fits w 26 6); lia).
  unfold decode. cbn zeta.
  repeat match goal with
    | |- context [if ?c then _ else _] => destruct c eqn:?
    end;
  cbn [wf opcode_selects];
  rewrite ?RType_decode_wf, ?IType_decode_wf, ?JType_decode_wf, ?Cop0_decode_wf,
    ?Cop1_decode_wf, ?Special2_decode_wf, ?Special3_decode_wf; cbn [andb];
  cbn [RType.opcode IType.opcode JType.opcode Cop0Ins.opcode Cop1Ins.opcode
       Special2.opcode Special3.opcode RType.decode IType.decode JType.decode
       Cop0Ins.decode Cop1Ins.decode Special2.decode Special3.decode];
  try assumption.
  rewrite orb_false_iff, !Z.eqb_neq in *.
  rewrite negb_true_iff, bool_decide_eq_false, !not_elem_of_cons.
  split_and!; first [apply not_elem_of_nil | lia].
Qed.

(** [C2] Re-encoding a decoded 32-bit word gives the word back, for every
    word outside the COP0 opcode (whose encoder drops bits 6 to 10). *)
Lemma encode_decode (w : Z) :
  fits 32 w -> Z.land (Z.shiftr w 26) 0x3F <> 0x10 -> encode (decode w) = w.
Proof.
  intros Hw Hop. unfold decode. cbn zeta.
  repeat match goal with
    | |- context [if ?c then _ else _] => destruct c eqn:?
    end; cbn [encode];
  first [ apply RType_encode_decode | apply IType_encode_decode | apply JType_encode_decode
        | apply Cop1_encode_decode | apply Special2_encode_decode
        | apply Special3_encode_decode | idtac ]; try assumption.
  apply Z.eqb_eq in Heqb0. contradiction.
Qed.

Lemma encode_decode_cop0 (w : Z) :
  fits 32 w -> Z.land (Z.shiftr w 26) 0x3F = 0x10 ->
  encode (decode w) = Z.ldiff w (Z.shiftl (Z.ones 5) 6).
Proof. intros Hw Hop. unfold decode. cbn zeta. rewrite Hop. cbn. now apply Cop0_encode_decode. Qed.

(** Pick the branch of [decode] that the opcode of an encoded format selects. *)
Ltac pick_branch dec_enc proj x Hwf Hsel :=
  let E := fresh "E" in
  let K := fresh "K" in
  pose proof (dec_enc x Hwf) as E;
  match type of E with
  | ?dec (?enc x) = x =>
      assert (K : Z.land (Z.shiftr (enc x) 26) 0x3F = proj x)
        by (change (proj (dec (enc x)) = proj x); now rewrite E)
  end;
  unfold decode; cbn zeta; rewrite K;
  repeat match goal with
    | |- context [if ?c then _ else _] => destruct c eqn:?
    end;
  try (rewrite E; reflexivity);
  exfalso;
  rewrite ?negb_true_iff, ?bool_decide_eq_false, ?not_elem_of_cons in Hsel;
  rewrite ?orb_true_iff, ?orb_false_iff, ?Z.eqb_eq, ?Z.eqb_neq in *; intuition lia.

(** [C1] Decoding an encoded instruction gives it back, for every instruction
    whose fields fit their widths and whose opcode selects its format. *)
Lemma decode_encode (i : Instruction) : wf i = true -> decode (encode i) = i.
Proof.
  destruct i as [r|x|j|c|c|s|s|raw]; cbn [wf opcode_selects encode]; intros H;
    try discriminate; apply andb_true_iff in H as [Hwf Hsel].
  - pick_branch RType_decode_encode RType.opcode r Hwf Hsel.
  - pick_branch IType_decode_encode IType.opcode x Hwf Hsel.
  - pick_branch JType_decode_encode JType.opcode j Hwf Hsel.
  - pick_branch Cop0_decode_encode Cop0Ins.opcode c Hwf Hsel.
  - pick_branch Cop1_decode_encode Cop1Ins.opcode c Hwf Hsel.
  - pick_branch Special2_decode_encode Special2.opcode s Hwf Hsel.
  - pick_branch Special3_decode_encode Special3.opcode s Hwf Hsel.
Qed.

(** ** Decoding examples *)

(** [ADDIU r2, r0, 5] of the boot scenario. *)
Example decode_addiu : decode 0x24020005 = IType (IType.mk 0x09 0 2 5).
Proof. reflexivity. Qed.

(** [JAL 0x000002] is a J-type word. *)
Example decode_jal : decode 0x0C000002 = JType (JType.mk 0x03 2).
Proof. reflexivity. Qed.

Lemma decode_encode_witness :
  wf (IType (IType.mk 0x09 0 2 5)) = true /\
  decode (encode (IType (IType.mk 0x09 0 2 5))) = IType (IType.mk 0x09 0 2 5).
Proof. split; [reflexivity|]. apply decode_encode. reflexivity. Defined.

Lemma encode_decode_witness :
  fits 32 0x0C000002 /\ Z.land (Z.shiftr 0x0C000002 26) 0x3F <> 0x10 /\
  encode (decode 0x0C000002) = 0x0C000002.
Proof.
  split; [unfold fits; lia|]. split; [vm_compute; discriminate|].
  apply encode_decode; [unfold fits; lia | vm_compute; discriminate].
Defined.
