(* ===== verification/Registers.v ===== *)
(** * The register file and the coprocessor banks ([registers.rs], [cop.rs])

    [Registers] holds the 32 general registers (a list of 32 words, the
    array [[u32; 32]]) and the special registers (a record with the
    fields of [SpecialRegisters]).  Register indices are [usize] in the
    source, [nat] here.  [Cop0] and [Cop1] are the coprocessor banks; the
    floating-point registers of [Cop1] are kept as their 64-bit patterns,
    which is what [read_bits]/[write_bits] expose, and read and written
    as values ([read_f]/[write_f]) through the conversions of [Float64].  Indexing a bank past
    its 32 registers panics in the source, and returns [Panic] here; the
    invariant [Cop0.wf] (32 words) makes every in-range access succeed.

    The invariant [wf] says that there are 32 general registers, that
    every register holds a 32-bit value and that register 0 holds 0; every
    operation preserves it. *)

From S2P Require Import Prelude Float64.
From Stdlib Require Import SpecFloat.

Module Registers.

Record SpecialRegisters := mkSpecial {
  hi : Z; lo : Z; pc : Z; epc : Z; status : Z; cause : Z; badvaddr : Z;
  index : Z; random : Z; entrylo0 : Z; entrylo1 : Z; count : Z; compare : Z;
  entryhi : Z }.

Record Registers := mkRegisters { general : list Z; special : SpecialRegisters }.

(** [SpecialRegisters::default]: the PC is the reset vector. *)
Definition special_default : SpecialRegisters :=
  mkSpecial 0 0 0xBFC00000 0 0x00000000 0 0 0 31 0 0 0 0 0.

(** [Registers::new], i.e. [Registers::default]. *)
Definition new : Registers := mkRegisters (replicate 32 0) special_default.

(** [Registers::reset]. *)
Definition reset (r : Registers) : Registers := new.

Inductive SpecialReg :=
  | Hi | Lo | Pc | Epc | Status | Cause | BadVAddr | Index | Random
  | EntryLo0 | EntryLo1 | Count | Compare | EntryHi.

#[export] Instance SpecialReg_eq_dec : EqDecision SpecialReg.
Proof. solve_decision. Defined.

(** [read_special]. *)
Definition read_special (r : Registers) (name : SpecialReg) : Z :=
  let s := special r in
  match name with
  | Hi => hi s | Lo => lo s | Pc => pc s | Epc => epc s | Status => status s
  | Cause => cause s | BadVAddr => badvaddr s | Index => index s
  | Random => random s | EntryLo0 => entrylo0 s | EntryLo1 => entrylo1 s
  | Count => count s | Compare => compare s | EntryHi => entryhi s
  end.

(** [write_special]: the field named [name] takes [value]. *)
Definition write_special (r : Registers) (name : SpecialReg) (value : Z) : Registers :=
  let s := special r in
  let sel n old := if decide (n = name) then value else old in
  mkRegisters (general r)
    (mkSpecial (sel Hi (hi s)) (sel Lo (lo s)) (sel Pc (pc s)) (sel Epc (epc s))
       (sel Status (status s)) (sel Cause (cause s)) (sel BadVAddr (badvaddr s))
       (sel Index (index s)) (sel Random (random s)) (sel EntryLo0 (entrylo0 s))
       (sel EntryLo1 (entrylo1 s)) (sel Count (count s)) (sel Compare (compare s))
       (sel EntryHi (entryhi s))).

Definition get_pc (r : Registers) : Z := pc (special r).
Definition set_pc (r : Registers) (value : Z) : Registers := write_special r Pc value.

(** [self.general[i]] with [i < 32]; out of range the source panics,
    which no caller reaches (indices are 5-bit fields or constants). *)
Definition general_at (r : Registers) (i : nat) : Z := default 0 (general r !! i).

Definition set_general (r : Registers) (i : nat) (value : Z) : Registers :=
  mkRegisters (<[i := value]> (general r)) (special r).

Definition get_gpc (r : Registers) : Z := general_at r 28.
Definition set_gpc (r : Registers) (value : Z) : Registers := set_general r 28 value.
Definition get_sp (r : Registers) : Z := general_at r 29.
Definition set_sp (r : Registers) (value : Z) : Registers := set_general r 29 value.
Definition get_fp (r : Registers) : Z := general_at r 30.
Definition set_fp (r : Registers) (value : Z) : Registers := set_general r 30 value.

(** [read]: register 0 reads as zero; past register 31 the source panics
    and the model reads 0 ([general_at]). *)
Definition read (r : Registers) (index : nat) : Z :=
  if Nat.eqb index 0 then 0 else general_at r index.

(** [write]: writes to register 0 or past register 31 are ignored. *)
Definition write (r : Registers) (index : nat) (value : Z) : Registers :=
  if negb (Nat.eqb index 0) && Nat.ltb index 32 then set_general r index value else r.

(** [tick]: the count register wraps around. *)
Definition tick (r : Registers) : Registers :=
  write_special r Count (count (special r) +w 1).

(** [Registers::dump]: the values it prints, the general registers with
    their index, then HI, LO, PC, EPC, Status and Cause. *)
Definition dump (r : Registers) : list (nat * Z) * list Z :=
  let s := special r in
  (zip (seq 0 (length (general r))) (general r), [hi s; lo s; pc s; epc s; status s; cause s]).

(** The register-file invariant. *)
Definition special_fits (s : SpecialRegisters) : Prop :=
  Forall (fits 32) [hi s; lo s; pc s; epc s; status s; cause s; badvaddr s; index s;
                    random s; entrylo0 s; entrylo1 s; count s; compare s; entryhi s].

Definition wf (r : Registers) : Prop :=
  length (general r) = 32%nat /\ general r !! 0%nat = Some 0 /\
  Forall (fits 32) (general r) /\ special_fits (special r).

(** ** Reading and writing *)

Lemma write_zero (r : Registers) (v : Z) : write r 0 v = r.
Proof. reflexivity. Qed.

Lemma read_write_eq (r : Registers) (i : nat) (v : Z) :
  i <> 0%nat -> (i < length (general r))%nat -> (i < 32)%nat -> read (write r i v) i = v.
Proof.
  intros H0 Hl H32. unfold read, write, general_at, set_general.
  destruct (Nat.eqb_spec i 0); [lia|]. destruct (Nat.ltb_spec i 32); [|lia]. simpl.
  now rewrite list_lookup_insert_eq.
Qed.

Lemma read_write_ne (r : Registers) (i j : nat) (v : Z) :
  i <> j -> read (write r i v) j = read r j.
Proof.
  intros Hne. unfold read, write, general_at, set_general.
  destruct (negb (Nat.eqb i 0) && Nat.ltb i 32); [simpl|reflexivity].
  now rewrite list_lookup_insert_ne.
Qed.

Lemma read_special_write_eq (r : Registers) (n : SpecialReg) (v : Z) :
  read_special (write_special r n v) n = v.
Proof. destruct n; reflexivity. Qed.

Lemma read_special_write_ne (r : Registers) (n m : SpecialReg) (v : Z) :
  n <> m -> read_special (write_special r n v) m = read_special r m.
Proof.
  intros Hne. destruct n, m; first [congruence | reflexivity].
Qed.

Lemma general_write_special (r : Registers) (n : SpecialReg) (v : Z) :
  general (write_special r n v) = general r.
Proof. reflexivity. Qed.

Lemma read_write_special (r : Registers) (n : SpecialReg) (v : Z) (i : nat) :
  read (write_special r n v) i = read r i.
Proof. reflexivity. Qed.

(** ** The invariant *)

Lemma wf_new : wf new.
Proof.
  split_and!; [reflexivity|reflexivity| |].
  - apply Forall_replicate. unfold fits. lia.
  - unfold special_fits. simpl. repeat constructor; unfold fits; lia.
Qed.

Lemma wf_reset (r : Registers) : wf (reset r).
Proof. apply wf_new. Qed.

Lemma wf_set_general (r : Registers) (i : nat) (v : Z) :
  wf r -> i <> 0%nat -> fits 32 v -> wf (set_general r i v).
Proof.
  intros (Hl & H0 & Hg & Hs) Hi Hv. unfold set_general. split_and!; simpl.
  - now rewrite length_insert.
  - now rewrite list_lookup_insert_ne.
  - now apply Forall_insert.
  - exact Hs.
Qed.

(** Every write of a word to a general register keeps the
    register-file invariant: 32 registers holding words, register 0
    holding 0. *)
Lemma wf_write (r : Registers) (i : nat) (v : Z) : wf r -> fits 32 v -> wf (write r i v).
Proof.
  intros Hr Hv. unfold write. destruct (Nat.eqb_spec i 0); simpl; [exact Hr|].
  destruct (Nat.ltb i 32); [now apply wf_set_general | exact Hr].
Qed.

Lemma wf_write_special (r : Registers) (n : SpecialReg) (v : Z) :
  wf r -> fits 32 v -> wf (write_special r n v).
Proof.
  intros (Hl & H0 & Hg & Hs) Hv. split_and!; try assumption.
  unfold special_fits in *. decompose_Forall_hyps.
  destruct n; simpl; repeat (apply List.Forall_cons; [assumption|]); apply List.Forall_nil.
Qed.

Lemma wf_tick (r : Registers) : wf r -> wf (tick r).
Proof. intros Hr. apply wf_write_special; [exact Hr|]. apply wrapping_add32_range. Qed.

Lemma read_fits (r : Registers) (i : nat) : wf r -> fits 32 (read r i).
Proof.
  intros (Hl & H0 & Hg & Hs). unfold read, general_at.
  destruct (Nat.eqb i 0); [unfold fits; lia|].
  destruct (general r !! i) eqn:E; simpl.
  - eapply Forall_lookup_1 in Hg; eauto.
  - unfold fits; lia.
Qed.

Lemma read_special_fits (r : Registers) (n : SpecialReg) : wf r -> fits 32 (read_special r n).
Proof.
  intros (Hl & H0 & Hg & Hs). unfold special_fits in Hs. decompose_Forall_hyps.
  destruct n; assumption.
Qed.

(** Register 0 of the array stays 0 under every write. *)
Lemma general0_write (r : Registers) (i : nat) (v : Z) :
  general (write r i v) !! 0%nat = general r !! 0%nat.
Proof.
  unfold write. destruct (Nat.eqb_spec i 0); simpl; [reflexivity|].
  destruct (Nat.ltb i 32); [simpl; now rewrite list_lookup_insert_ne | reflexivity].
Qed.

(** ** Theorems *)

(** [C11] Reading a general register after a write: the written value
    when the write hit that register (an index from 1 to 31), the old
    value otherwise; register 0 always reads 0. *)
Theorem read_after_write (r : Registers) (i j : nat) (v : Z) :
  wf r ->
  read (write r i v) j = if Nat.eqb i j && negb (Nat.eqb i 0) && Nat.ltb i 32 then v else read r j.
Proof.
  intros (Hl & _). destruct (Nat.eqb_spec i j) as [<-|Hne]; simpl.
  - destruct (Nat.eqb_spec i 0) as [->|H0]; [reflexivity|].
    destruct (Nat.ltb_spec i 32) as [H32|H32]; simpl.
    + apply read_write_eq; lia.
    + unfold write. rewrite (proj2 (Nat.ltb_ge i 32) H32), andb_false_r. reflexivity.
  - now apply read_write_ne.
Qed.

Lemma read_after_write_witness :
  wf new /\ read (write new 5 42) 5 = 42.
Proof.
  split; [apply wf_new|]. rewrite (read_after_write new 5 5 42 wf_new). reflexivity.
Defined.

End Registers.

Module Cop0.

Record Cop0 := mkCop0 { regs : list Z }.

(** [Cop0::new], i.e. [Cop0::default]: the array [[0; 32]]. *)
Definition new : Cop0 := mkCop0 (replicate 32 0).

(** [self.regs[index]] and [self.regs[index] = value]: an index past the
    array panics. *)
Definition read (c : Cop0) (index : nat) : run Z :=
  match regs c !! index with
  | Some v => Done v
  | None => Panic (IndexOutOfBounds (Z.of_nat index) (Z.of_nat (length (regs c))))
  end.
Definition write (c : Cop0) (index : nat) (value : Z) : run Cop0 :=
  if decide (index < length (regs c))%nat then Done (mkCop0 (<[index := value]> (regs c)))
  else Panic (IndexOutOfBounds (Z.of_nat index) (Z.of_nat (length (regs c)))).

Definition status (c : Cop0) : run Z := read c 12.
Definition set_status (c : Cop0) (value : Z) : run Cop0 := write c 12 value.
Definition cause (c : Cop0) : run Z := read c 13.
Definition epc (c : Cop0) : run Z := read c 14.
Definition set_epc (c : Cop0) (value : Z) : run Cop0 := write c 14 value.
Definition badvaddr (c : Cop0) : run Z := read c 8.

(** [self.regs[12] |= bit] and [self.regs[12] &= !bit]; [!bit] on a
    [u32] is the complement within 32 bits. *)
Definition set_status_bit (c : Cop0) (bit : Z) : run Cop0 :=
  v ← read c 12; write c 12 (Z.lor v bit).
Definition clear_status_bit (c : Cop0) (bit : Z) : run Cop0 :=
  v ← read c 12; write c 12 (Z.land v (as_u32 (Z.lnot bit))).
Definition status_bit (c : Cop0) (bit : Z) : run bool :=
  v ← read c 12; Done (negb (Z.land v bit =? 0)).

(** [Cop0::dump]: the index and value of every register, in order. *)
Definition dump (c : Cop0) : list (nat * Z) := zip (seq 0 (length (regs c))) (regs c).

(** The bank is the array [[u32; 32]]. *)
Definition wf (c : Cop0) : Prop := length (regs c) = 32%nat /\ Forall (fits 32) (regs c).

Lemma cop0_wf_new : wf new.
Proof. split; [reflexivity|]. apply Forall_replicate. unfold fits. lia. Qed.

(** In range, [read] and [write] never panic, and [write] keeps [wf]. *)
Lemma cop0_read_Done (c : Cop0) (i : nat) :
  wf c -> (i < 32)%nat -> exists v, read c i = Done v /\ fits 32 v.
Proof.
  intros [Hl Hf] Hi. unfold read. destruct (regs c !! i) as [v|] eqn:E.
  - exists v. split; [reflexivity|]. exact (Forall_lookup_1 _ _ _ _ Hf E).
  - apply lookup_ge_None in E. lia.
Qed.

Lemma cop0_write_Done (c : Cop0) (i : nat) (v : Z) :
  wf c -> (i < 32)%nat -> fits 32 v ->
  exists c', write c i v = Done c' /\ wf c' /\ regs c' = <[i := v]> (regs c).
Proof.
  intros [Hl Hf] Hi Hv. unfold write. destruct (decide (i < length (regs c))%nat); [|lia].
  eexists. split; [reflexivity|]. split; [|reflexivity]. split; cbn.
  - by rewrite length_insert.
  - by apply Forall_insert.
Qed.

Lemma cop0_read_write_eq (c c' : Cop0) (i : nat) (v : Z) :
  write c i v = Done c' -> read c' i = Done v.
Proof.
  unfold write, read. destruct (decide _); [|discriminate]. intros [= <-]. cbn.
  by rewrite list_lookup_insert_eq by lia.
Qed.

(** Setting a status bit makes it read as set; clearing a 32-bit mask
    makes it read as clear. *)
Lemma status_bit_set (c c' : Cop0) (bit : Z) :
  bit <> 0 -> set_status_bit c bit = Done c' -> status_bit c' bit = Done true.
Proof.
  intros Hb. unfold set_status_bit, status_bit. destruct (read c 12) as [v|]; cbn; [|discriminate].
  intros Hw. rewrite (cop0_read_write_eq _ _ _ _ Hw). cbn.
  replace (Z.land (Z.lor v bit) bit) with bit by bits. now destruct (Z.eqb_spec bit 0).
Qed.

Lemma status_bit_clear (c c' : Cop0) (bit : Z) :
  fits 32 bit -> clear_status_bit c bit = Done c' -> status_bit c' bit = Done false.
Proof.
  intros Hb. unfold clear_status_bit, status_bit. destruct (read c 12) as [v|]; cbn; [|discriminate].
  intros Hw. rewrite (cop0_read_write_eq _ _ _ _ Hw). cbn. unfold fits, as_u32, trunc in *.
  replace (Z.land (Z.land v (Z.land (Z.lnot bit) (Z.ones 32))) bit) with 0 by bits.
  reflexivity.
Qed.

End Cop0.

Module Cop1.

(** The 32 double registers as their IEEE-754 bit patterns. *)
Record Cop1 := mkCop1 { f : list Z; fcsr : Z; fir : Z }.

(** [Cop1::new]: all registers +0.0, whose bit pattern is 0. *)
Definition new : Cop1 := mkCop1 (replicate 32 0) 0 0.

(** [self.f[index].to_bits()] and [self.f[index] = f64::from_bits(bits)]:
    the register holds the pattern; an index past the array panics. *)
Definition read_bits (c : Cop1) (index : nat) : run Z :=
  match f c !! index with
  | Some v => Done v
  | None => Panic (IndexOutOfBounds (Z.of_nat index) (Z.of_nat (length (f c))))
  end.
Definition write_bits (c : Cop1) (index : nat) (bits : Z) : run Cop1 :=
  if decide (index < length (f c))%nat then Done (mkCop1 (<[index := bits]> (f c)) (fcsr c) (fir c))
  else Panic (IndexOutOfBounds (Z.of_nat index) (Z.of_nat (length (f c)))).

Definition get_fcsr (c : Cop1) : Z := fcsr c.
Definition set_fcsr (c : Cop1) (value : Z) : Cop1 := mkCop1 (f c) value (fir c).
Definition get_fir (c : Cop1) : Z := fir c.

(** [read_f] and [write_f]: the register's value is [f64::from_bits] of
    its pattern, and a value is stored as its pattern. *)
Definition read_f (c : Cop1) (index : nat) : run spec_float :=
  b ← read_bits c index; Done (Float64.f64_of_bits b).
Definition write_f (c : Cop1) (index : nat) (value : spec_float) : run Cop1 :=
  write_bits c index (Float64.bits_of_f64 value).

(** [Cop1::dump]: the values it prints, every register with its index,
    then FCSR and FIR. *)
Definition dump (c : Cop1) : list (nat * spec_float) * Z * Z :=
  (zip (seq 0 (length (f c))) (map Float64.f64_of_bits (f c)), fcsr c, fir c).

(** The bank is the array [[f64; 32]], each register a 64-bit pattern. *)
Definition wf (c : Cop1) : Prop := length (f c) = 32%nat /\ Forall (fits 64) (f c).

Lemma cop1_wf_new : wf new.
Proof. split; [reflexivity|]. apply Forall_replicate. unfold fits. lia. Qed.

Lemma read_bits_write_bits (c c' : Cop1) (i : nat) (b : Z) :
  write_bits c i b = Done c' -> read_bits c' i = Done b.
Proof.
  unfold write_bits, read_bits. destruct (decide _); [|discriminate]. intros [= <-]. cbn.
  by rewrite list_lookup_insert_eq by lia.
Qed.

(** A value written by [write_f] is read back by [read_f]: every
    valid [f64] value, NaN included, survives [f64::to_bits] and
    [f64::from_bits]. *)
Theorem write_f_read_f (c c' : Cop1) (i : nat) (v : spec_float) :
  valid_binary Float64.prec Float64.emax v = true ->
  write_f c i v = Done c' -> read_f c' i = Done v.
Proof.
  intros Hv Hw. unfold read_f. rewrite (read_bits_write_bits _ _ _ _ Hw). cbn.
  by rewrite Float64.f64_of_bits_of_f64.
Qed.

(** Writing back the value just read leaves the bank as it was,
    unless the register holds a NaN pattern, whose payload an [f64]
    value of the model does not keep. *)
Theorem read_f_write_f (c c' : Cop1) (i : nat) (b : Z) (v : spec_float) :
  wf c -> f c !! i = Some b -> Float64.is_nan_bits b = false ->
  read_f c i = Done v -> write_f c i v = Done c' -> c' = c.
Proof.
  intros [Hl Hf] Hb Hn. unfold read_f, read_bits. rewrite Hb. intros [= <-].
  unfold write_f, write_bits. destruct (decide _) as [Hi|Hi]; [|discriminate]. intros [= <-].
  rewrite Float64.bits_of_f64_of_bits by (exact (Forall_lookup_1 _ _ _ _ Hf Hb) || exact Hn).
  rewrite list_insert_id by exact Hb. by destruct c.
Qed.

(** Witnesses: the value 1.0, [2^52 * 2^-52]. *)
Definition one_f64 : spec_float := S754_finite false 4503599627370496 (-52).
Definition bank_one : Cop1 := result (write_bits new 5 0x3FF0_0000_0000_0000) new.

Lemma write_f_read_f_witness : read_f (result (write_f new 3 one_f64) new) 3 = Done one_f64.
Proof. apply (write_f_read_f new _ 3 one_f64); vm_compute; reflexivity. Defined.

Lemma read_f_write_f_witness : result (write_f bank_one 5 one_f64) bank_one = bank_one.
Proof.
  apply (read_f_write_f bank_one _ 5 0x3FF0_0000_0000_0000 one_f64);
    [split; [reflexivity | apply (bool_decide_unpack _); vm_compute; reflexivity]
    | vm_compute; reflexivity | vm_compute; reflexivity | vm_compute; reflexivity | vm_compute; reflexivity].
Defined.

End Cop1.
