(* ===== verification/Alu.v ===== *)
(** * The ALU ([alu.rs])

    [ALU::execute] is a pure function of the operands, the opcode or
    funct field, the immediate flag and the current HI/LO.  It returns the
    result value, the new HI and LO when the operation writes them, the
    overflow flag (always false) and the operation tag.  The one way it
    can fail is the panic of Rust's signed division and remainder on
    [i32::MIN / -1], which [DIV] reaches; the model returns [Panic] there.

    The theorems give the functional behaviour of the multiply and divide
    units on HI:LO (as exact 64-bit products and the division identity),
    the comparisons and the shifts, and the bound that every result is a
    32-bit word. *)

From S2P Require Import Prelude.

Module Alu.

Inductive AluOp :=
  | Add | Sub | And | Or | Xor | Nor | Slt | Sltu | Sll | Srl | Sra
  | Mult | Multu | Div | Divu | Mfhi | Mflo | Mthi | Mtlo | Lui | Teq
  | OpNone.

Record AluResult := mkResult {
  value : Z; hi : option Z; lo : option Z; overflow : bool; op : AluOp }.

(** The result of an operation that writes only the value. *)
Definition val (v : Z) (o : AluOp) : run AluResult := Done (mkResult v None None false o).

(** Rust's [i32 % i32] and [i32 / i32]: truncating, panicking on
    [i32::MIN] by [-1] (the zero divisor is excluded by the caller). *)
Definition i32_rem (a b : Z) : run Z :=
  if (a =? - 2 ^ 31) && (b =? -1) then Panic DivideOverflow else Done (Z.rem a b).
Definition i32_div (a b : Z) : run Z :=
  if (a =? - 2 ^ 31) && (b =? -1) then Panic DivideOverflow else Done (Z.quot a b).

(** The I-type half of [ALU::execute] ([inmediate] set): the opcode
    selects the operation on [rs] and the 16-bit immediate. *)
Definition execute_imm (rs_val imm opcode : Z) : run AluResult :=
  let imm_se := as_u32 (as_i16 imm) in
  if opcode =? 0x08 then val (rs_val +w imm_se) Add
  else if opcode =? 0x09 then val (rs_val +w imm_se) Add
  else if opcode =? 0x0C then val (Z.land rs_val imm) And
  else if opcode =? 0x0D then val (Z.lor rs_val imm) Or
  else if opcode =? 0x0E then val (Z.lxor rs_val imm) Xor
  else if opcode =? 0x0A then val (if as_i32 rs_val <? as_i16 imm then 1 else 0) Slt
  else if opcode =? 0x0B then val (if rs_val <? imm then 1 else 0) Sltu
  else if opcode =? 0x0F then val (as_u32 (Z.shiftl imm 16)) Lui
  else val 0 OpNone.

(** The R-type half of [ALU::execute]: the funct field selects the
  operation on [rs], [rt], [shamt] and the current HI/LO. *)
Definition execute_reg (rs_val rt_val shamt funct hi lo : Z) : run AluResult :=
  if funct =? 0x20 then val (rs_val +w rt_val) Add
  else if funct =? 0x21 then val (rs_val +w rt_val) Add
  else if funct =? 0x22 then val (rs_val -w rt_val) Sub
  else if funct =? 0x23 then val (rs_val -w rt_val) Sub
  else if funct =? 0x24 then val (Z.land rs_val rt_val) And
  else if funct =? 0x25 then val (Z.lor rs_val rt_val) Or
  else if funct =? 0x26 then val (Z.lxor rs_val rt_val) Xor
  else if funct =? 0x27 then val (as_u32 (Z.lnot (Z.lor rs_val rt_val))) Nor
  else if funct =? 0x2A then val (if as_i32 rs_val <? as_i32 rt_val then 1 else 0) Slt
  else if funct =? 0x2B then val (if rs_val <? rt_val then 1 else 0) Sltu
  else if funct =? 0x34 then val (if rs_val =? rt_val then 1 else 0) Teq
  else if funct =? 0x00 then val (as_u32 (Z.shiftl rt_val shamt)) Sll
  else if funct =? 0x02 then val (Z.shiftr rt_val shamt) Srl
  else if funct =? 0x03 then val (as_u32 (Z.shiftr (as_i32 rt_val) shamt)) Sra
  else if funct =? 0x04 then val (as_u32 (Z.shiftl rt_val (Z.land rs_val 0x1F))) Sll
  else if funct =? 0x06 then val (Z.shiftr rt_val (Z.land rs_val 0x1F)) Srl
  else if funct =? 0x07 then
    val (as_u32 (Z.shiftr (as_i32 rt_val) (Z.land rs_val 0x1F))) Sra
  else if funct =? 0x18 then
    let prod := as_i32 rs_val * as_i32 rt_val in
    Done (mkResult 0 (Some (as_u32 (Z.shiftr prod 32))) (Some (as_u32 prod)) false Mult)
  else if funct =? 0x19 then
    let prod := rs_val * rt_val in
    Done (mkResult 0 (Some (as_u32 (Z.shiftr prod 32))) (Some (as_u32 prod)) false Multu)
  else if funct =? 0x1A then
    if negb (rt_val =? 0) then
      r ← i32_rem (as_i32 rs_val) (as_i32 rt_val);
      q ← i32_div (as_i32 rs_val) (as_i32 rt_val);
      Done (mkResult 0 (Some (as_u32 r)) (Some (as_u32 q)) false Div)
    else Done (mkResult 0 None None false Div)
  else if funct =? 0x1B then
    if negb (rt_val =? 0) then
      Done (mkResult 0 (Some (rs_val mod rt_val)) (Some (rs_val / rt_val)) false Divu)
    else Done (mkResult 0 None None false Divu)
  else if funct =? 0x10 then val hi Mfhi
  else if funct =? 0x12 then val lo Mflo
  else if funct =? 0x11 then Done (mkResult 0 (Some rs_val) None false Mthi)
  else if funct =? 0x13 then Done (mkResult 0 None (Some rs_val) false Mtlo)
  else val 0 OpNone.

(** [ALU::execute]: the immediate flag chooses the half. *)
Definition execute (rs_val rt_val shamt imm opcode funct : Z) (inmediate : bool)
    (hi lo : Z) : run AluResult :=
  if inmediate then execute_imm rs_val imm opcode
  else execute_reg rs_val rt_val shamt funct hi lo.

End Alu.

Module AluFacts.
Import Alu.

(** Unfold [execute] on a literal opcode or funct and compute the tests. *)
Ltac alu_step := unfold execute, execute_imm, execute_reg, val; simpl.

(** [C4] [MULT] leaves in HI:LO the exact signed 64-bit product. *)
Lemma mult_hilo (rs rt sh imm opc h0 l0 : Z) :
  exists h l, execute rs rt sh imm opc 0x18 false h0 l0 = Done (mkResult 0 (Some h) (Some l) false Mult)
    /\ signed 64 (h * 2 ^ 32 + l) = as_i32 rs * as_i32 rt.
Proof.
  do 2 eexists. split; [alu_step; reflexivity|].
  rewrite hi_lo_split, signed_trunc by lia. apply signed_small; [lia|].
  pose proof (signed_range 32 rs ltac:(lia)). pose proof (signed_range 32 rt ltac:(lia)).
  unfold as_i32. simpl in *. nia.
Qed.

(** [MULTU] leaves in HI:LO the exact unsigned product of two words. *)
Lemma multu_hilo (rs rt sh imm opc h0 l0 : Z) :
  fits 32 rs -> fits 32 rt ->
  exists h l, execute rs rt sh imm opc 0x19 false h0 l0 = Done (mkResult 0 (Some h) (Some l) false Multu)
    /\ h * 2 ^ 32 + l = rs * rt.
Proof.
  unfold fits. intros Hs Ht. do 2 eexists. split; [alu_step; reflexivity|].
  rewrite hi_lo_split. apply trunc_small. simpl in *. nia.
Qed.

(** A quotient or remainder of [i32] operands, away from [i32::MIN / -1],
    is again an [i32]. *)
Lemma quot_i32_range (a b : Z) :
  - 2 ^ 31 <= a < 2 ^ 31 -> b <> 0 -> ~ (a = - 2 ^ 31 /\ b = -1) ->
  - 2 ^ 31 <= Z.quot a b < 2 ^ 31.
Proof.
  intros Ha Hb Hn. assert (Z.abs b = 1 \/ 2 <= Z.abs b) as [H1|H2] by lia.
  - assert (b = 1 \/ b = -1) as [->| ->] by lia.
    + rewrite Z.quot_1_r. lia.
    + change (-1) with (- (1)). rewrite Z.quot_opp_r, Z.quot_1_r by lia. lia.
  - pose proof (Z.quot_abs a b Hb) as E. rewrite Z.quot_div_nonneg in E by lia.
    assert (Z.abs a / Z.abs b <= Z.abs a / 2) by (apply Z.div_le_compat_l; lia).
    assert (Z.abs a / 2 <= 2 ^ 30) by (apply Z.div_le_upper_bound; lia).
    lia.
Qed.

(** The signed word of an [i32] that is stored back as a [u32]. *)
Lemma as_i32_as_u32 (z : Z) : - 2 ^ 31 <= z < 2 ^ 31 -> as_i32 (as_u32 z) = z.
Proof. intros. unfold as_i32, as_u32. rewrite signed_trunc by lia. now apply signed_small. Qed.

Lemma as_i32_range (z : Z) : - 2 ^ 31 <= as_i32 z < 2 ^ 31.
Proof. apply (signed_range 32). lia. Qed.

Lemma as_i32_zero (z : Z) : fits 32 z -> (as_i32 z = 0 <-> z = 0).
Proof.
  unfold fits, as_i32. intros Hz. destruct (signed_cases 32 z ltac:(lia)) as [[E _]|[E H]];
    rewrite E; rewrite trunc_small in * by lia; simpl in *; lia.
Qed.

(** [C3] [DIV] with a non-zero divisor, away from [i32::MIN / -1], leaves the
    truncated quotient in LO and the remainder in HI: [rs = LO * rt + HI]
    with [|HI| < |rt|] and HI of the sign of [rs] (or 0), which fixes the
    quotient as the one rounded towards zero. *)
Lemma div_hilo (rs rt sh imm opc h0 l0 : Z) :
  fits 32 rt -> rt <> 0 -> ~ (as_i32 rs = - 2 ^ 31 /\ as_i32 rt = -1) ->
  exists h l, execute rs rt sh imm opc 0x1A false h0 l0 = Done (mkResult 0 (Some h) (Some l) false Div)
    /\ as_i32 rs = as_i32 l * as_i32 rt + as_i32 h /\ Z.abs (as_i32 h) < Z.abs (as_i32 rt)
    /\ 0 <= as_i32 rs * as_i32 h.
Proof.
  intros Ht Hz Hn. assert (Hz' : as_i32 rt <> 0) by (rewrite as_i32_zero; assumption).
  pose proof (as_i32_range rs). pose proof (as_i32_range rt).
  do 2 eexists. split.
  - alu_step. destruct (Z.eqb_spec rt 0); [contradiction|]. simpl.
    unfold i32_rem, i32_div.
    destruct (Z.eqb_spec (as_i32 rs) (- 2 ^ 31)), (Z.eqb_spec (as_i32 rt) (-1)); simpl;
      [tauto|reflexivity..].
  - pose proof (Z.rem_bound_abs (as_i32 rs) (as_i32 rt) Hz').
    rewrite !as_i32_as_u32 by (apply quot_i32_range || lia; assumption).
    split; [rewrite Z.mul_comm; apply Z.quot_rem; assumption|]. split; [assumption|].
    rewrite Z.mul_comm. apply Z.rem_sign_mul. assumption.
Qed.

(** [DIV] by zero leaves HI and LO alone (no trap). *)
Lemma div_by_zero (rs sh imm opc h0 l0 : Z) :
  execute rs 0 sh imm opc 0x1A false h0 l0 = Done (mkResult 0 None None false Div).
Proof. reflexivity. Qed.

(** [C26] [DIV] with a non-zero divisor panics exactly on [i32::MIN / -1]:
    Rust's [%] and [/] on [i32] overflow there, and nowhere else. *)
Lemma div_panics_iff (rs rt sh imm opc h0 l0 : Z) :
  fits 32 rt ->
  (exists p, execute rs rt sh imm opc 0x1A false h0 l0 = Panic p) <->
  rt <> 0 /\ as_i32 rs = - 2 ^ 31 /\ as_i32 rt = -1.
Proof.
  intros Ht. alu_step. destruct (Z.eqb_spec rt 0) as [->|Hz]; cbn.
  - split; [intros [p Hp]; discriminate | intros [[] _]; reflexivity].
  - unfold i32_rem, i32_div.
    destruct (Z.eqb_spec (as_i32 rs) (- 2 ^ 31)), (Z.eqb_spec (as_i32 rt) (-1)); cbn;
      (split; [intros [p Hp]; try discriminate; tauto | intros (_ & ? & ?); try tauto; eauto]).
Qed.

(** [DIVU] with a non-zero divisor: the Euclidean division of words. *)
Lemma divu_hilo (rs rt sh imm opc h0 l0 : Z) :
  fits 32 rs -> fits 32 rt -> rt <> 0 ->
  exists h l, execute rs rt sh imm opc 0x1B false h0 l0 = Done (mkResult 0 (Some h) (Some l) false Divu)
    /\ rs = l * rt + h /\ 0 <= h < rt.
Proof.
  unfold fits. intros Hs Ht Hz. do 2 eexists. split.
  - alu_step. destruct (Z.eqb_spec rt 0); [contradiction|]. reflexivity.
  - split; [rewrite Z.mul_comm; apply Z.div_mod; lia | apply Z.mod_pos_bound; lia].
Qed.

(** A result register that is written holds a word. *)
Definition opt_fits (o : option Z) : Prop := from_option (fits 32) True o.

(** Every value, HI and LO the ALU produces is a 32-bit word. *)
Lemma execute_fits (rs rt sh imm opc fn : Z) (b : bool) (h0 l0 : Z) (r : AluResult) :
  fits 32 rs -> fits 32 rt -> fits 5 sh -> fits 16 imm -> fits 32 h0 -> fits 32 l0 ->
  execute rs rt sh imm opc fn b h0 l0 = Done r ->
  fits 32 (value r) /\ opt_fits (hi r) /\ opt_fits (lo r).
Proof.
  intros Hs Ht Hsh Hi Hh Hl H. pose proof (fits_widen 16 32 imm ltac:(lia) Hi) as Hi'.
  unfold execute, execute_imm, execute_reg, val, i32_rem, i32_div in H.
  repeat match type of H with
    | context [if ?c then _ else _] => destruct c eqn:?
    end;
  cbn in H; try discriminate; injection H as <-; cbn; unfold opt_fits; cbn;
    split_and!; auto with mips; try (apply fits_01; lia);
    try (apply fits_bitwise; auto; lia);
    try (apply fits_shiftr; [|assumption]; unfold fits in Hsh; lia);
    try (apply fits_shiftr; [apply Z.land_nonneg; unfold fits in Hs; lia|assumption]).
  all: try (unfold fits in *; simpl; lia).
  all: match goal with H : negb (_ =? 0) = true |- _ =>
         apply negb_true_iff, Z.eqb_neq in H end;
    apply fits_div || apply fits_mod; try assumption; unfold fits in Ht; lia.
Qed.

(** [SRA] is the signed division by [2^shamt] rounded down: the sign of
    the operand is kept. *)
Lemma sra_floor (rs rt sh imm opc h0 l0 : Z) :
  0 <= sh ->
  exists v, execute rs rt sh imm opc 0x03 false h0 l0 = Done (mkResult v None None false Sra)
    /\ as_i32 v = as_i32 rt / 2 ^ sh.
Proof.
  intros Hsh. eexists. split; [alu_step; reflexivity|].
  rewrite Z.shiftr_div_pow2 by lia. apply as_i32_as_u32.
  pose proof (as_i32_range rt). pose proof (Z.pow_pos_nonneg 2 sh ltac:(lia) Hsh).
  split.
  - apply Z.div_le_lower_bound; [lia|]. nia.
  - apply Z.div_lt_upper_bound; [lia|]. nia.
Qed.

(** SLTIU as the MIPS ISA defines it: the immediate is sign-extended,
    then the comparison is unsigned. *)
Definition isa_sltiu (rs imm : Z) : Z := if rs <? as_u32 (as_i16 imm) then 1 else 0.

Lemma as_u32_sext16 (imm : Z) :
  fits 16 imm -> as_u32 (as_i16 imm) = if imm <? 2 ^ 15 then imm else imm + (2 ^ 32 - 2 ^ 16).
Proof.
  unfold fits, as_i16, as_u32, signed. intros Hi. rewrite (trunc_small 16 imm) by lia.
  replace (2 ^ (16 - 1)) with (2 ^ 15) by reflexivity.
  destruct (Z.ltb_spec imm (2 ^ 15)).
  - apply trunc_small. lia.
  - rewrite trunc_mod by lia. symmetry. apply (Z.mod_unique _ _ (-1)); lia.
Qed.

(** [C27] SLTIU compares [rs] with the zero-extended immediate: its
    result differs from the ISA's exactly when the immediate is negative
    as an [i16] and [rs] lies between the immediate and its sign
    extension. *)
Lemma sltiu_zero_extends (rs rt sh imm funct h0 l0 : Z) :
  fits 32 rs -> fits 16 imm ->
  exists r, execute rs rt sh imm 0x0B funct true h0 l0 = Done r /\
    (value r <> isa_sltiu rs imm <-> 2 ^ 15 <= imm /\ imm <= rs < imm + (2 ^ 32 - 2 ^ 16)).
Proof.
  intros Hr Hi. eexists. split; [alu_step; reflexivity|]. cbn [value].
  unfold isa_sltiu. rewrite as_u32_sext16 by exact Hi. unfold fits in *.
  destruct (Z.ltb_spec imm (2 ^ 15)), (Z.ltb_spec rs imm); try destruct (Z.ltb_spec rs imm);
    try destruct (Z.ltb_spec rs (imm + (2 ^ 32 - 2 ^ 16))); split; intros; lia.
Qed.

(** ** Witnesses at concrete operands *)

Lemma multu_hilo_witness :
  fits 32 0xFFFFFFFF /\ fits 32 2 /\
  exists h l, execute 0xFFFFFFFF 2 0 0 0 0x19 false 0 0 = Done (mkResult 0 (Some h) (Some l) false Multu)
    /\ h * 2 ^ 32 + l = 0xFFFFFFFF * 2.
Proof.
  split; [unfold fits; lia|]. split; [unfold fits; lia|].
  apply multu_hilo; unfold fits; lia.
Defined.

Lemma div_hilo_witness :
  fits 32 3 /\ 3 <> 0 /\ ~ (as_i32 0xFFFFFFF9 = - 2 ^ 31 /\ as_i32 3 = -1) /\
  exists h l, execute 0xFFFFFFF9 3 0 0 0 0x1A false 0 0 = Done (mkResult 0 (Some h) (Some l) false Div)
    /\ as_i32 0xFFFFFFF9 = as_i32 l * as_i32 3 + as_i32 h /\ Z.abs (as_i32 h) < Z.abs (as_i32 3)
    /\ 0 <= as_i32 0xFFFFFFF9 * as_i32 h.
Proof.
  assert (N : ~ (as_i32 0xFFFFFFF9 = - 2 ^ 31 /\ as_i32 3 = -1)) by (vm_compute; intros [? ?]; discriminate).
  split; [unfold fits; lia|]. split; [lia|]. split; [exact N|].
  apply div_hilo; [unfold fits; lia | lia | exact N].
Defined.

Lemma div_panics_iff_witness :
  (exists p, execute 0x80000000 0xFFFFFFFF 0 0 0 0x1A false 0 0 = Panic p) <->
  0xFFFFFFFF <> 0 /\ as_i32 0x80000000 = - 2 ^ 31 /\ as_i32 0xFFFFFFFF = -1.
Proof. apply div_panics_iff. unfold fits. lia. Defined.

Lemma sltiu_zero_extends_witness :
  exists r, execute 0x10000 0 0 0xFFFF 0x0B 0 true 0 0 = Done r /\
    (value r <> isa_sltiu 0x10000 0xFFFF <->
       2 ^ 15 <= 0xFFFF /\ 0xFFFF <= 0x10000 < 0xFFFF + (2 ^ 32 - 2 ^ 16)).
Proof. apply sltiu_zero_extends; unfold fits; lia. Defined.

Lemma divu_hilo_witness :
  fits 32 7 /\ fits 32 2 /\ 2 <> 0 /\
  exists h l, execute 7 2 0 0 0 0x1B false 0 0 = Done (mkResult 0 (Some h) (Some l) false Divu)
    /\ 7 = l * 2 + h /\ 0 <= h < 2.
Proof.
  split; [unfold fits; lia|]. split; [unfold fits; lia|]. split; [lia|].
  apply divu_hilo; unfold fits; lia.
Defined.

Lemma sra_floor_witness :
  0 <= 4 /\
  exists v, execute 0 0xFFFFFF00 4 0 0 0x03 false 0 0 = Done (mkResult v None None false Sra)
    /\ as_i32 v = as_i32 0xFFFFFF00 / 2 ^ 4.
Proof. split; [lia|]. apply sra_floor. lia. Defined.
End AluFacts.
