(* ===== verification/Devices.v ===== *)
(** * Devices: the [Device] trait, RAM, ROM and video memory
    ([memory.rs], [devices/ram.rs], [devices/rom.rs], [devices/vram.rs])

    The trait [Device] is the class [Device] below: an inclusive physical
    range and byte reads and writes.  Every device operation sees the
    [Shared] store, which holds what the source keeps outside the device
    objects: the bytes of the video memory, that the [GpuVram] device on
    the bus and the GPU (through its raw pointer) both use, and the two
    process-wide [static mut] latches of the GPU's command and parameter
    registers.  A write returns the device's new state, the new store and
    the [MemResult]; it runs in [run] because a GPU command can panic.

    The class [ByteStore] is the contract of a memory-like device (a byte
    written in range is read back, other bytes are unchanged, the range
    does not move); RAM and video memory are instances, ROM is not (its
    writes fail with [RomWrite] and change nothing).

    The class [TypedDevice] is the typing contract a device gives the
    bus: under its invariant [dev_ok], a byte read returns a byte, and a
    byte write keeps [dev_ok] and keeps video memory a byte array.  RAM,
    ROM and video memory are instances (their invariant is trivial, since
    their bytes are typed by [bytes_ok] or by the ROM image); the GPU's
    instance is in [GpuFacts]. *)

From S2P Require Import Prelude.

(** [MemoryError] and [MemResult<T>]. *)
Inductive MemoryError :=
  | AddressErrorLoad (a : Z)
  | AddressErrorStore (a : Z)
  | Unmapped (a : Z)
  | RomWrite (a : Z).

Inductive MemResult (A : Type) :=
  | Ok (a : A)
  | Err (e : MemoryError).
Arguments Ok {A} a.
Arguments Err {A} e.

(** The state outside the device objects. *)
Record Shared := mkShared {
  vram : buf;        (** the bytes of [GpuVram::data] *)
  cmd_tmp : Z;       (** [static mut CMD_TMP: u16] of [GpuMmio::write8] *)
  param_tmp : Z      (** [static mut TMP: u16] of [GpuMmio::write8] *)
}.

Definition with_vram (sh : Shared) (b : buf) : Shared := mkShared b (cmd_tmp sh) (param_tmp sh).

(** [RangeInclusive::contains]. *)
Definition in_range (r : Z * Z) (a : Z) : bool := (r.1 <=? a) && (a <=? r.2).

Class Device (D : Type) := {
  range : D -> Shared -> Z * Z;
  read8 : D -> Shared -> Z -> MemResult Z;
  write8 : D -> Shared -> Z -> Z -> run (D * Shared * MemResult unit)
}.

(** The contract of a memory-like device, under its validity condition
    (for RAM: a non-empty buffer that does not run past 4 GiB). *)
Class ByteStore (D : Type) `{Device D} := {
  valid : D -> Shared -> Prop;
  store_write_ok : forall d sh a v, valid d sh -> in_range (range d sh) a = true ->
    exists d' sh', write8 d sh a v = Done (d', sh', Ok tt);
  store_valid : forall d sh a v d' sh' r,
    valid d sh -> write8 d sh a v = Done (d', sh', r) -> valid d' sh';
  store_range : forall d sh a v d' sh' r,
    write8 d sh a v = Done (d', sh', r) -> range d' sh' = range d sh;
  store_read_write_eq : forall d sh a v d' sh',
    write8 d sh a v = Done (d', sh', Ok tt) -> read8 d' sh' a = Ok (as_u8 v);
  store_read_write_ne : forall d sh a b v d' sh' r,
    fits 32 a -> fits 32 b -> a <> b ->
    write8 d sh a v = Done (d', sh', r) -> read8 d' sh' b = read8 d sh b
}.

(** The typing of a device: what the source's types say of its state
    ([Vec<u8>] data, [u16] and [u8] registers), as [dev_ok], with the
    video memory of the store a buffer of bytes.  Byte writes keep it and
    byte reads then return a [u8]. *)
Class TypedDevice (D : Type) `{Device D} := {
  dev_ok : D -> Prop;
  read8_fits : forall d sh a x,
    dev_ok d -> bytes_ok (vram sh) -> read8 d sh a = Ok x -> fits 8 x;
  write8_typed : forall d sh a x d' sh' r,
    dev_ok d -> bytes_ok (vram sh) -> fits 8 x ->
    write8 d sh a x = Done (d', sh', r) -> dev_ok d' /\ bytes_ok (vram sh')
}.

(** ** The default multi-byte methods of the trait (little-endian) *)
Section DefaultMethods.
Context {D : Type} `{Device D}.

Definition dev_read16 (d : D) (sh : Shared) (paddr : Z) : MemResult Z :=
  match read8 d sh paddr with
  | Err e => Err e
  | Ok lo =>
      match read8 d sh (paddr +w 1) with
      | Err e => Err e
      | Ok hi => Ok (Z.lor (as_u16 (Z.shiftl hi 8)) lo)
      end
  end.

Definition dev_read32 (d : D) (sh : Shared) (paddr : Z) : MemResult Z :=
  match read8 d sh paddr, read8 d sh (paddr +w 1), read8 d sh (paddr +w 2),
        read8 d sh (paddr +w 3) with
  | Err e, _, _, _ | Ok _, Err e, _, _ | Ok _, Ok _, Err e, _
  | Ok _, Ok _, Ok _, Err e => Err e
  | Ok b0, Ok b1, Ok b2, Ok b3 => Ok (from_le32 b0 b1 b2 b3)
  end.

(** A byte write followed, if it succeeded, by the rest (the [?] of the
    trait's default methods). *)
Definition dev_then (m : run (D * Shared * MemResult unit))
    (k : D -> Shared -> run (D * Shared * MemResult unit)) : run (D * Shared * MemResult unit) :=
  '(d, sh, r) ← m;
  match r with Err e => Done (d, sh, Err e) | Ok _ => k d sh end.

Definition dev_write16 (d : D) (sh : Shared) (paddr value : Z) : run (D * Shared * MemResult unit) :=
  dev_then (write8 d sh paddr (Z.land value 0xFF)) (fun d sh =>
  write8 d sh (paddr +w 1) (Z.shiftr value 8)).

Definition dev_write32 (d : D) (sh : Shared) (paddr value : Z) : run (D * Shared * MemResult unit) :=
  dev_then (write8 d sh paddr (Z.land value 0xFF)) (fun d sh =>
  dev_then (write8 d sh (paddr +w 1) (Z.land (Z.shiftr value 8) 0xFF)) (fun d sh =>
  dev_then (write8 d sh (paddr +w 2) (Z.land (Z.shiftr value 16) 0xFF)) (fun d sh =>
  write8 d sh (paddr +w 3) (Z.land (Z.shiftr value 24) 0xFF)))).
End DefaultMethods.

(** ** RAM ([devices/ram.rs]) *)
Module Ram.
Record Ram := mkRam { base : Z; data : buf }.

(** [Ram::new]: [size] zero bytes. *)
Definition new (base : Z) (size : Z) : Ram := mkRam base (buf_zero size).

(** [offset]: the distance from the base, wrapping, if it is in the data. *)
Definition offset (r : Ram) (paddr : Z) : option Z :=
  let off := paddr -w base r in
  if off <? buf_len (data r) then Some off else None.

(** [Ram::range]: as [Rom::range] (the RAM of [main] is never empty). *)
Definition range (r : Ram) : Z * Z :=
  (base r, base r +w (as_u32 (buf_len (data r)) -w 1)).

Definition read8 (r : Ram) (sh : Shared) (paddr : Z) : MemResult Z :=
  match offset r paddr with
  | Some off => Ok (buf_get (data r) off)
  | None => Err (Unmapped paddr)
  end.

Definition write8 (r : Ram) (sh : Shared) (paddr value : Z) : run (Ram * Shared * MemResult unit) :=
  match offset r paddr with
  | Some off => Done (mkRam (base r) (buf_set (data r) off (as_u8 value)), sh, Ok tt)
  | None => Done (r, sh, Err (Unmapped paddr))
  end.
End Ram.

#[export] Instance Ram_Device : Device Ram.Ram :=
  {| range r _ := Ram.range r; read8 := Ram.read8; write8 := Ram.write8 |}.

(** ** ROM ([devices/rom.rs]) *)
Module Rom.
Record Rom := mkRom { base : Z; data : buf }.

(** [Rom::new] over the image bytes. *)
Definition new (base : Z) (image : list Z) : Rom := mkRom base (buf_of_list image).

Definition offset (r : Rom) (paddr : Z) : option Z :=
  let off := paddr -w base r in
  if off <? buf_len (data r) then Some off else None.

(** [Rom::range]: [base.wrapping_add(len as u32 - 1)].  The [- 1] is a
    plain [u32] subtraction: it is modelled as in a release build, where
    an empty image wraps to an empty range; a debug build panics there
    instead, on every bus access that reaches the ROM. *)
Definition range (r : Rom) : Z * Z :=
  (base r, base r +w (as_u32 (buf_len (data r)) -w 1)).

Definition read8 (r : Rom) (sh : Shared) (paddr : Z) : MemResult Z :=
  match offset r paddr with
  | Some off => Ok (buf_get (data r) off)
  | None => Err (Unmapped paddr)
  end.

(** Every write fails, whatever the address. *)
Definition write8 (r : Rom) (sh : Shared) (paddr value : Z) : run (Rom * Shared * MemResult unit) :=
  Done (r, sh, Err (RomWrite paddr)).
End Rom.

#[export] Instance Rom_Device : Device Rom.Rom :=
  {| range r _ := Rom.range r; read8 := Rom.read8; write8 := Rom.write8 |}.

(** ** Video memory ([devices/vram.rs])

    The device keeps its base; its bytes are [vram] of the shared store. *)
Module Vram.
Record GpuVram := mkVram { base : Z }.

Definition to_off (v : GpuVram) (sh : Shared) (paddr : Z) : option Z :=
  let off := paddr -w base v in
  if off <? buf_len (vram sh) then Some off else None.

(** [range_bounds]: [base + len - 1], wrapping (release arithmetic). *)
Definition range_bounds (v : GpuVram) (sh : Shared) : Z * Z :=
  (base v, (base v +w as_u32 (buf_len (vram sh))) -w 1).

Definition read8 (v : GpuVram) (sh : Shared) (paddr : Z) : MemResult Z :=
  match to_off v sh paddr with
  | Some off => Ok (buf_get (vram sh) off)
  | None => Err (Unmapped paddr)
  end.

Definition write8 (v : GpuVram) (sh : Shared) (paddr value : Z) :
    run (GpuVram * Shared * MemResult unit) :=
  match to_off v sh paddr with
  | Some off => Done (v, with_vram sh (buf_set (vram sh) off (as_u8 value)), Ok tt)
  | None => Done (v, sh, Err (Unmapped paddr))
  end.
End Vram.

#[export] Instance Vram_Device : Device Vram.GpuVram :=
  {| range := Vram.range_bounds; read8 := Vram.read8; write8 := Vram.write8 |}.

(** ** Address windows

    A device of [len] bytes at [base] that ends below 4 GiB. *)
Section Window.
Variables (base len : Z).
Hypothesis Hbase : 0 <= base.
Hypothesis Hlen : 0 < len < 2 ^ 32.
Hypothesis Hend : base + len <= 2 ^ 32.

Lemma window_end_ram : base +w (as_u32 len -w 1) = base + len - 1.
Proof.
  unfold as_u32. rewrite trunc_small by lia.
  rewrite wrapping_sub32_small by lia. rewrite wrapping_add32_small by lia. lia.
Qed.

Lemma window_end_vram : (base +w as_u32 len) -w 1 = base + len - 1.
Proof.
  unfold as_u32. rewrite trunc_small by lia.
  destruct (Z.eq_dec (base + len) (2 ^ 32)) as [E|E].
  - unfold wrapping_add32, wrapping_sub32, as_u32. rewrite E.
    change (trunc 32 (2 ^ 32)) with 0. change (trunc 32 (0 - 1)) with (2 ^ 32 - 1). lia.
  - rewrite wrapping_add32_small by lia. rewrite wrapping_sub32_small by lia. lia.
Qed.

Lemma window_test (a : Z) : fits 32 a -> ((a -w base) <? len) = in_range (base, base + len - 1) a.
Proof.
  unfold fits, in_range. intros Ha. simpl.
  destruct (Z.leb_spec base a).
  - rewrite wrapping_sub32_small by lia.
    destruct (Z.ltb_spec (a - base) len), (Z.leb_spec a (base + len - 1)); simpl; lia.
  - unfold wrapping_sub32, as_u32. rewrite trunc_mod by lia.
    rewrite <- (Z.mod_unique (a - base) (2 ^ 32) (-1) (a - base + 2 ^ 32)) by lia.
    destruct (Z.ltb_spec (a - base + 2 ^ 32) len); simpl; lia.
Qed.

Lemma window_offset (a : Z) : in_range (base, base + len - 1) a = true -> a -w base = a - base.
Proof.
  unfold in_range. simpl. rewrite andb_true_iff, !Z.leb_le. intros.
  apply wrapping_sub32_small. lia.
Qed.

Lemma window_fits (a : Z) : in_range (base, base + len - 1) a = true -> fits 32 a.
Proof. unfold in_range, fits. simpl. rewrite andb_true_iff, !Z.leb_le. lia. Qed.
End Window.

(** ** RAM and video memory are byte stores *)

Definition window_valid (base len : Z) : Prop :=
  0 <= base /\ 0 < len < 2 ^ 32 /\ base + len <= 2 ^ 32.

#[export] Instance Ram_ByteStore : ByteStore Ram.Ram.
Proof.
  refine {| valid r _ := window_valid (Ram.base r) (buf_len (Ram.data r)) |}.
  - intros r sh a v (Hb & Hl & He) Hin. simpl in *. unfold Ram.range in Hin.
    rewrite window_end_ram in Hin by lia.
    unfold Ram.write8, Ram.offset. rewrite window_test, Hin by (eauto using window_fits; lia).
    eauto.
  - intros r sh a v r' sh' res Hv. simpl. unfold Ram.write8.
    destruct (Ram.offset r a); intros [= <- <- _]; exact Hv.
  - intros r sh a v r' sh' res. simpl. unfold Ram.write8.
    destruct (Ram.offset r a); intros [= <- <- _]; reflexivity.
  - intros r sh a v r' sh'. simpl. unfold Ram.write8.
    destruct (Ram.offset r a) as [off|] eqn:E; intros [= <- <-].
    unfold Ram.read8, Ram.offset in *. simpl. rewrite E. simpl. now rewrite buf_get_set_eq.
  - intros r sh a b v r' sh' res Ha Hb Hne. simpl. unfold Ram.write8.
    destruct (Ram.offset r a) as [off|] eqn:E; intros [= <- <- _]; [|reflexivity].
    unfold Ram.read8. change (Ram.offset (Ram.mkRam (Ram.base r) (buf_set (Ram.data r) off (as_u8 v))) b)
      with (Ram.offset r b).
    destruct (Ram.offset r b) as [offb|] eqn:Eb; [|reflexivity].
    unfold Ram.offset in E, Eb.
    destruct (a -w Ram.base r <? _) in E; [|discriminate]. injection E as <-.
    destruct (b -w Ram.base r <? _) in Eb; [|discriminate]. injection Eb as <-.
    cbn [Ram.data]. rewrite buf_get_set_ne; [reflexivity|].
    intros Heq. apply Hne. eapply wrapping_sub32_inj; eauto.
Qed.

#[export] Instance Vram_ByteStore : ByteStore Vram.GpuVram.
Proof.
  refine {| valid v sh := window_valid (Vram.base v) (buf_len (vram sh)) |}.
  - intros v sh a x (Hb & Hl & He) Hin. simpl in *. unfold Vram.range_bounds in Hin.
    rewrite window_end_vram in Hin by lia.
    unfold Vram.write8, Vram.to_off. rewrite window_test, Hin by (eauto using window_fits; lia).
    eauto.
  - intros v sh a x v' sh' res Hv. simpl. unfold Vram.write8.
    destruct (Vram.to_off v sh a); intros [= <- <- _]; exact Hv.
  - intros v sh a x v' sh' res. simpl. unfold Vram.write8.
    destruct (Vram.to_off v sh a); intros [= <- <- _]; reflexivity.
  - intros v sh a x v' sh'. simpl. unfold Vram.write8.
    destruct (Vram.to_off v sh a) as [off|] eqn:E; intros [= <- <-].
    unfold Vram.read8, Vram.to_off in *. simpl. rewrite E. simpl. now rewrite buf_get_set_eq.
  - intros v sh a b x v' sh' res Ha Hb Hne. simpl. unfold Vram.write8.
    destruct (Vram.to_off v sh a) as [off|] eqn:E; intros [= <- <- _]; [|reflexivity].
    unfold Vram.read8. change (Vram.to_off v (with_vram sh (buf_set (vram sh) off (as_u8 x))) b)
      with (Vram.to_off v sh b).
    destruct (Vram.to_off v sh b) as [offb|] eqn:Eb; [|reflexivity].
    unfold Vram.to_off in E, Eb.
    destruct (a -w Vram.base v <? _) in E; [|discriminate]. injection E as <-.
    destruct (b -w Vram.base v <? _) in Eb; [|discriminate]. injection Eb as <-.
    cbn [vram with_vram]. rewrite buf_get_set_ne; [reflexivity|].
    intros Heq. apply Hne. eapply wrapping_sub32_inj; eauto.
Qed.

(** Writes to ROM fail with [RomWrite] and leave the ROM and the store as
    they were. *)
Lemma rom_write_fails (r : Rom.Rom) (sh : Shared) (a v : Z) :
  write8 r sh a v = Done (r, sh, Err (RomWrite a)).
Proof. reflexivity. Qed.

(** ** RAM, ROM and video memory hold bytes *)

#[export] Instance Ram_Typed : TypedDevice Ram.Ram.
Proof.
  refine {| dev_ok r := bytes_ok (Ram.data r) |}.
  - intros r sh a x Hr _. simpl. unfold Ram.read8. case_match; [|discriminate].
    intros [= <-]. apply Hr.
  - intros r sh a x r' sh' res Hr Hs _. simpl. unfold Ram.write8.
    case_match; intros [= <- <- _]; cbn; auto with bytes.
Defined.

#[export] Instance Rom_Typed : TypedDevice Rom.Rom.
Proof.
  refine {| dev_ok r := bytes_ok (Rom.data r) |}.
  - intros r sh a x Hr _. simpl. unfold Rom.read8. case_match; [|discriminate].
    intros [= <-]. apply Hr.
  - intros r sh a x r' sh' res Hr Hs _. simpl. unfold Rom.write8. intros [= <- <- _]. auto.
Defined.

#[export] Instance Vram_Typed : TypedDevice Vram.GpuVram.
Proof.
  refine {| dev_ok _ := True |}.
  - intros v sh a x _ Hs. simpl. unfold Vram.read8. case_match; [|discriminate].
    intros [= <-]. apply Hs.
  - intros v sh a x v' sh' res _ Hs _. simpl. unfold Vram.write8.
    case_match; intros [= <- <- _]; cbn; auto with bytes.
Defined.
