(* ===== verification/Gpu.v ===== *)
(** * The GPU: MMIO registers, parameter FIFO and command engine
    ([devices/gpu.rs])

    [GpuMmio] holds the base of the 256-byte register window, the
    registers and the FIFO.  The source's raw pointer [vram_ptr] to the
    video memory is the [vram] field of the [Shared] store: the raster
    commands read and write the same bytes as the [GpuVram] device on
    the bus.  Commands take the GPU and the video bytes and return both,
    in [run]: an out-of-range slice of the video memory panics, as in the
    source, whose clipping is only against [width] x [height].

    Loops of the source are [for_range] loops; the running pointer [p]
    of [cmd_clear] and the gradients is part of the loop state.  The
    Bresenham loop of [cmd_line] has no bound in the source: it runs here
    on a fuel of [2^17] iterations, more than its [max(|dx|,|dy|) + 1]
    iterations on [u16] end points.  The file ends with the proof that
    this fuel is enough (the loop terminates) and the end-point law of
    [lerp]; the other GPU theorems are in [GpuFacts]. *)

From S2P Require Import Prelude Devices.

Module Gpu.

Record Registers := mkRegs {
  width : Z; height : Z; pitch : Z; bpp : Z; fb_addr : Z; status : Z;
  font_addr : Z; font_w : Z; font_h : Z; palette_addr : Z }.

Definition regs_default : Registers := mkRegs 0 0 0 0 0 0 0 0 0 0.

(** [Fifo]: a buffer of 256 [u16] and the count [head]. *)
Record Fifo := mkFifo { fbuf : list Z; head : nat }.

Definition fifo_new : Fifo := mkFifo (replicate 256 0) 0.

Definition fifo_reset (f : Fifo) : Fifo := mkFifo (fbuf f) 0.

(** [push]: a full FIFO drops the value. *)
Definition fifo_push (f : Fifo) (v : Z) : Fifo :=
  if Nat.ltb (head f) (length (fbuf f)) then mkFifo (<[head f := v]> (fbuf f)) (S (head f))
  else f.

(** [read_u16]: the last value pushed (not called by the commands). *)
Definition fifo_read_u16 (f : Fifo) : Z * Fifo :=
  let i := Nat.min (head f) (length (fbuf f)) in
  if Nat.eqb i 0 then (0, f)
  else (default 0 (fbuf f !! pred (head f)), mkFifo (fbuf f) (pred (head f))).

(** [pop]: the first value; [copy_within(1..head, 0)] shifts the others
    down.  An empty FIFO yields 0. *)
Definition fifo_pop (f : Fifo) : Z * Fifo :=
  if Nat.eqb (head f) 0 then (0, f)
  else (default 0 (fbuf f !! 0%nat),
        mkFifo (take (pred (head f)) (drop 1 (fbuf f)) ++ drop (pred (head f)) (fbuf f))
               (pred (head f))).

(** [pop_u32]: low half first. *)
Definition fifo_pop_u32 (f : Fifo) : Z * Fifo :=
  let '(lo, f1) := fifo_pop f in
  let '(hi, f2) := fifo_pop f1 in
  (Z.lor lo (as_u32 (Z.shiftl hi 16)), f2).

Record GpuMmio := mkGpu { base : Z; regs : Registers; fifo : Fifo }.

(** [GpuMmio::new]. *)
Definition new (base : Z) : GpuMmio := mkGpu base regs_default fifo_new.

Definition with_regs (g : GpuMmio) (r : Registers) : GpuMmio := mkGpu (base g) r (fifo g).
Definition with_fifo (g : GpuMmio) (f : Fifo) : GpuMmio := mkGpu (base g) (regs g) f.

(** The register fields, to update one of them. *)
Inductive Reg :=
  | RWidth | RHeight | RPitch | RBpp | RFbAddr | RStatus | RFontAddr | RFontW | RFontH
  | RPaletteAddr.

#[export] Instance Reg_eq_dec : EqDecision Reg.
Proof. solve_decision. Defined.

Definition set_reg (r : Registers) (name : Reg) (value : Z) : Registers :=
  let sel n old := if decide (n = name) then value else old in
  mkRegs (sel RWidth (width r)) (sel RHeight (height r)) (sel RPitch (pitch r))
    (sel RBpp (bpp r)) (sel RFbAddr (fb_addr r)) (sel RStatus (status r))
    (sel RFontAddr (font_addr r)) (sel RFontW (font_w r)) (sel RFontH (font_h r))
    (sel RPaletteAddr (palette_addr r)).

Definition set_status (r : Registers) (s : Z) : Registers := set_reg r RStatus s.

(** [set_busy]: bit 0 of [status]. *)
Definition set_busy (g : GpuMmio) (busy : bool) : GpuMmio :=
  let r := regs g in
  with_regs g (set_status r (if busy then Z.lor (status r) 1
                             else Z.land (status r) (as_u32 (Z.lnot 1)))).

(** [pitch_bytes]: the row stride. *)
Definition pitch_bytes (g : GpuMmio) : Z :=
  if bpp (regs g) =? 32 then pitch (regs g) * 4 else pitch (regs g).

(** [clamp_to_fb]. *)
Definition clamp_to_fb (g : GpuMmio) (x y : Z) : option (Z * Z) :=
  let w := width (regs g) in
  let h := height (regs g) in
  if (x <? 0) || (y <? 0) || (x >=? w) || (y >=? h) then None else Some (x, y).

(** [put_pixel_32]. *)
Definition put_pixel_32 (g : GpuMmio) (vram : buf) (x y color : Z) : run buf :=
  if negb (bpp (regs g) =? 32) then Done vram
  else match clamp_to_fb g x y with
       | None => Done vram
       | Some (x, y) => buf_store32 vram (fb_addr (regs g) + y * pitch_bytes g + x * 4) color
       end.

(** [lerp]: per byte of the two colours, [t_num <= t_den] in every call. *)
Definition lerp (a b t_num t_den : Z) : Z :=
  let ar := Z.land (Z.shiftr a 24) 0xFF in
  let ag := Z.land (Z.shiftr a 16) 0xFF in
  let ab := Z.land (Z.shiftr a 8) 0xFF in
  let aa := Z.land (Z.shiftr a 0) 0xFF in
  let br := Z.land (Z.shiftr b 24) 0xFF in
  let bg := Z.land (Z.shiftr b 16) 0xFF in
  let bb := Z.land (Z.shiftr b 8) 0xFF in
  let ba := Z.land (Z.shiftr b 0) 0xFF in
  let lr := (ar * (t_den - t_num) + br * t_num) / t_den in
  let lg := (ag * (t_den - t_num) + bg * t_num) / t_den in
  let lb := (ab * (t_den - t_num) + bb * t_num) / t_den in
  let la := (aa * (t_den - t_num) + ba * t_num) / t_den in
  Z.lor (as_u32 (Z.shiftl (as_u32 lr) 24))
    (Z.lor (as_u32 (Z.shiftl (as_u32 lg) 16))
      (Z.lor (as_u32 (Z.shiftl (as_u32 lb) 8)) (as_u32 la))).

(** [h.saturating_sub(1).max(1)]. *)
Definition grad_den (n : Z) : Z := Z.max (Z.max (n - 1) 0) 1.

(** ** Commands *)

(** [cmd_clear]. *)
Definition cmd_clear (g : GpuMmio) (v : buf) (color : Z) : run (GpuMmio * buf) :=
  let g := set_busy g true in
  let bpp := bpp (regs g) in
  let fb_off := fb_addr (regs g) in
  let w := width (regs g) in
  let h := height (regs g) in
  v' ← (if bpp =? 32 then
          '(_, v') ← for_range (Z.to_nat h) 0 (fun _ '(p, v) =>
              for_range (Z.to_nat w) 0 (fun _ '(p, v) =>
                v' ← buf_store32 v p color; Done (p + 4, v')) (p, v)) (fb_off, v);
          Done v'
        else if (bpp =? 8) || (bpp =? 4) || (bpp =? 2) then
          let val := Z.land color 0xFF in
          '(_, v') ← for_range (Z.to_nat h) 0 (fun _ '(p, v) =>
              for_range (Z.to_nat w) 0 (fun _ '(p, v) =>
                v' ← buf_update v p val; Done (p + 1, v')) (p, v)) (fb_off, v);
          Done v'
        else Done v);
  Done (set_busy g false, v').

(** [cmd_grad_x]: the busy bit is set before the [bpp] test. *)
Definition cmd_grad_x (g : GpuMmio) (v : buf) (left right : Z) : run (GpuMmio * buf) :=
  let g := set_busy g true in
  let fb_off := fb_addr (regs g) in
  let w := width (regs g) in
  let h := height (regs g) in
  v' ← (if bpp (regs g) =? 32 then
          for_range (Z.to_nat h) 0 (fun y v =>
            '(_, v') ← for_range (Z.to_nat w) 0 (fun x '(p, v) =>
                let c := lerp left right x (grad_den w) in
                v' ← buf_store32 v p c; Done (p + 4, v'))
              (fb_off + y * (pitch (regs g) * 4), v);
            Done v') v
        else Done v);
  Done (set_busy g false, v').

(** [cmd_grad_y]. *)
Definition cmd_grad_y (g : GpuMmio) (v : buf) (top bottom : Z) : run (GpuMmio * buf) :=
  let g := set_busy g true in
  if negb (bpp (regs g) =? 32) then Done (set_busy g false, v) else
  let fb_off := fb_addr (regs g) in
  let w := width (regs g) in
  let h := height (regs g) in
  let stride := pitch_bytes g in
  v' ← for_range (Z.to_nat h) 0 (fun y v =>
         let c := lerp top bottom y (grad_den h) in
         '(_, v') ← for_range (Z.to_nat w) 0 (fun _ '(p, v) =>
             v' ← buf_store32 v p c; Done (p + 4, v')) (fb_off + y * stride, v);
         Done v') v;
  Done (set_busy g false, v').

(** [cmd_grad_xy]: four corner colours. *)
Definition cmd_grad_xy (g : GpuMmio) (v : buf) (c00 c10 c01 c11 : Z) : run (GpuMmio * buf) :=
  let g := set_busy g true in
  if negb (bpp (regs g) =? 32) then Done (set_busy g false, v) else
  let fb_off := fb_addr (regs g) in
  let w := width (regs g) in
  let h := height (regs g) in
  let stride := pitch_bytes g in
  v' ← for_range (Z.to_nat h) 0 (fun y v =>
         let left := lerp c00 c01 y (grad_den h) in
         let right := lerp c10 c11 y (grad_den h) in
         '(_, v') ← for_range (Z.to_nat w) 0 (fun x '(p, v) =>
             let c := lerp left right x (grad_den w) in
             v' ← buf_store32 v p c; Done (p + 4, v')) (fb_off + y * stride, v);
         Done v') v;
  Done (set_busy g false, v').

(** [cmd_fillrect]: clipped to the screen; each row is one slice. *)
Definition cmd_fillrect (g : GpuMmio) (v : buf) (x y w h color : Z) : run (GpuMmio * buf) :=
  let g := set_busy g true in
  if negb (bpp (regs g) =? 32) then Done (set_busy g false, v) else
  let fb_off := fb_addr (regs g) in
  let stride := pitch_bytes g in
  let max_w := width (regs g) in
  let max_h := height (regs g) in
  if (x >=? max_w) || (y >=? max_h) then Done (set_busy g false, v) else
  let rw := Z.min w (max_w - x) in
  let rh := Z.min h (max_h - y) in
  v' ← for_range (Z.to_nat rh) 0 (fun j v =>
         let ptr := fb_off + (y + j) * stride + x * 4 in
         if ptr + rw * 4 <=? buf_len v then
           for_range (Z.to_nat rw) 0 (fun px v =>
             Done (buf_set_list v (ptr + px * 4) (le_bytes32 color))) v
         else Panic (IndexOutOfBounds (ptr + rw * 4) (buf_len v))) v;
  Done (set_busy g false, v').

(** [cmd_rect_outline]: the four edges through [put_pixel_32]. *)
Definition cmd_rect_outline (g : GpuMmio) (v : buf) (x y w h color : Z) : run (GpuMmio * buf) :=
  let g := set_busy g true in
  if negb (bpp (regs g) =? 32) then Done (set_busy g false, v) else
  let x0 := x in
  let y0 := y in
  let x1 := x0 + w - 1 in
  let y1 := y0 + h - 1 in
  v ← for_range (Z.to_nat (x1 - x0 + 1)) x0 (fun xx v =>
        v ← put_pixel_32 g v xx y0 color; put_pixel_32 g v xx y1 color) v;
  v ← for_range (Z.to_nat (y1 - y0 + 1)) y0 (fun yy v =>
        v ← put_pixel_32 g v x0 yy color; put_pixel_32 g v x1 yy color) v;
  Done (set_busy g false, v).

(** The Bresenham loop of [cmd_line], on fuel. *)
Fixpoint line_loop (fuel : nat) (g : GpuMmio) (v : buf) (x0 y0 x1 y1 dx dy sx sy err color : Z)
    : run buf :=
  match fuel with
  | O => Panic OutOfFuel
  | S fuel' =>
      v ← put_pixel_32 g v x0 y0 color;
      if (x0 =? x1) && (y0 =? y1) then Done v else
      let e2 := 2 * err in
      let '(err, x0) := if e2 >=? dy then (err + dy, x0 + sx) else (err, x0) in
      let '(err, y0) := if e2 <=? dx then (err + dx, y0 + sy) else (err, y0) in
      line_loop fuel' g v x0 y0 x1 y1 dx dy sx sy err color
  end.

Definition line_fuel : nat := Z.to_nat (2 ^ 17).

(** [cmd_line]. *)
Definition cmd_line (g : GpuMmio) (v : buf) (x0 y0 x1 y1 color : Z) : run (GpuMmio * buf) :=
  let g := set_busy g true in
  if negb (bpp (regs g) =? 32) then Done (set_busy g false, v) else
  let dx := Z.abs (x1 - x0) in
  let sx := if x0 <? x1 then 1 else -1 in
  let dy := - Z.abs (y1 - y0) in
  let sy := if y0 <? y1 then 1 else -1 in
  v' ← line_loop line_fuel g v x0 y0 x1 y1 dx dy sx sy (dx + dy) color;
  Done (set_busy g false, v').

(** The bytes [v[a..a + n]], or the panic of an out-of-range slice. *)
Definition buf_slice (v : buf) (a n : Z) : run (list Z) :=
  if a + n <=? buf_len v then Done (map (fun i => buf_get v (a + Z.of_nat i)) (seq 0 (Z.to_nat n)))
  else Panic (IndexOutOfBounds (a + n) (buf_len v)).

(** [cmd_blit]: rows of [copy_w] pixels from [src_addr] (stride [src_w])
    to the screen at ([dst_x], [dst_y]). *)
Definition cmd_blit (g : GpuMmio) (v : buf) (src_addr src_w src_h dst_x dst_y : Z)
    : run (GpuMmio * buf) :=
  let g := set_busy g true in
  if negb (bpp (regs g) =? 32) then Done (set_busy g false, v) else
  let fb_off := fb_addr (regs g) in
  let stride := pitch_bytes g in
  let dst_w := width (regs g) in
  let dst_h := height (regs g) in
  if (dst_x >=? dst_w) || (dst_y >=? dst_h) then Done (set_busy g false, v) else
  let copy_w := Z.min src_w (dst_w - dst_x) in
  let copy_h := Z.min src_h (dst_h - dst_y) in
  v' ← for_range (Z.to_nat copy_h) 0 (fun j v =>
         tmp ← buf_slice v (src_addr + j * src_w * 4) (copy_w * 4);
         let dst_off := fb_off + (dst_y + j) * stride + dst_x * 4 in
         if dst_off + copy_w * 4 <=? buf_len v then Done (buf_set_list v dst_off tmp)
         else Panic (IndexOutOfBounds (dst_off + copy_w * 4) (buf_len v))) v;
  Done (set_busy g false, v').

(** [cmd_putchar]: the glyph rows are read from the video memory at
    [font_addr]; only the first byte of each glyph row is read, and the
    pixels right of the screen are skipped (not those below it). *)
Definition cmd_putchar (g : GpuMmio) (v : buf) (x y ch fg bg : Z) : run (GpuMmio * buf) :=
  let g := set_busy g true in
  let fw := font_w (regs g) in
  let fh := font_h (regs g) in
  if (fw =? 0) || (fh =? 0) then Done (set_busy g false, v) else
  let font_base := font_addr (regs g) in
  let glyph_bytes_per_row := (fw + 7) / 8 in
  let glyph_size := glyph_bytes_per_row * fh in
  let glyph_off := font_base + ch * glyph_size in
  let w := width (regs g) in
  let bpp := bpp (regs g) in
  let pitch_bytes := if bpp =? 32 then pitch (regs g) * 4 else pitch (regs g) in
  let fb_off := fb_addr (regs g) in
  v' ← for_range (Z.to_nat fh) 0 (fun j v =>
         row_byte ← buf_index v (glyph_off + j * glyph_bytes_per_row);
         for_range (Z.to_nat fw) 0 (fun i v =>
           let bit := Z.land (Z.shiftr row_byte (7 - Z.land i 7)) 1 in
           let px := x + i in
           let py := y + j in
           if px >=? w then Done v else
           let base := fb_off + py * pitch_bytes + (if bpp =? 32 then px * 4 else px) in
           if bpp =? 32 then buf_store32 v base (if negb (bit =? 0) then fg else bg)
           else if bpp =? 8 then
             buf_update v base (if negb (bit =? 0) then Z.land fg 0xFF else Z.land bg 0xFF)
           else Done v) v) v;
  Done (set_busy g false, v').

(** [cmd_puts]: [len] glyph codes popped from the FIFO, advancing by
    [font_w] each time ([u16] wrapping). *)
Definition cmd_puts (g : GpuMmio) (v : buf) (x y len fg bg : Z) : run (GpuMmio * buf) :=
  '(g', v', _) ← for_range (Z.to_nat len) 0 (fun _ '(g, v, cx) =>
      let '(ch, f) := fifo_pop (fifo g) in
      '(g, v) ← cmd_putchar (with_fifo g f) v cx y ch fg bg;
      Done (g, v, as_u16 (cx + font_w (regs g)))) (g, v, x);
  Done (g', v').

(** [cmd_blit_tilemap]: a stub that only toggles the busy bit. *)
Definition cmd_blit_tilemap (g : GpuMmio) (v : buf) : run (GpuMmio * buf) :=
  Done (set_busy (set_busy g true) false, v).

(** Pop operands: each [pop] / [pop_u32] of the source, in order. *)
Definition pop (g : GpuMmio) : Z * GpuMmio :=
  let '(x, f) := fifo_pop (fifo g) in (x, with_fifo g f).
Definition pop_u32 (g : GpuMmio) : Z * GpuMmio :=
  let '(x, f) := fifo_pop_u32 (fifo g) in (x, with_fifo g f).

(** [exec_cmd]: operands come off the FIFO in the listed order; the FIFO
    is reset after every command, known or not. *)
Definition exec_cmd (g : GpuMmio) (v : buf) (cmd : Z) : run (GpuMmio * buf) :=
  '(g, v) ← (
    if cmd =? 0x0001 then
      let '(color, g) := pop_u32 g in cmd_clear g v color
    else if cmd =? 0x0002 then
      let '(left_, g) := pop_u32 g in let '(right_, g) := pop_u32 g in
      cmd_grad_x g v left_ right_
    else if cmd =? 0x0003 then
      let '(x, g) := pop g in let '(y, g) := pop g in let '(ch, g) := pop g in
      let '(fg, g) := pop_u32 g in let '(bg, g) := pop_u32 g in
      cmd_putchar g v x y ch fg bg
    else if cmd =? 0x0004 then
      let '(x, g) := pop g in let '(y, g) := pop g in let '(len, g) := pop g in
      let '(fg, g) := pop_u32 g in let '(bg, g) := pop_u32 g in
      cmd_puts g v x y len fg bg
    else if cmd =? 0x0006 then
      let '(x, g) := pop g in let '(y, g) := pop g in let '(w, g) := pop g in
      let '(h, g) := pop g in let '(color, g) := pop_u32 g in
      cmd_fillrect g v x y w h color
    else if cmd =? 0x0007 then
      let '(top, g) := pop_u32 g in let '(bot, g) := pop_u32 g in
      cmd_grad_y g v top bot
    else if cmd =? 0x0008 then
      let '(x, g) := pop g in let '(y, g) := pop g in let '(w, g) := pop g in
      let '(h, g) := pop g in let '(color, g) := pop_u32 g in
      cmd_rect_outline g v x y w h color
    else if cmd =? 0x0009 then
      let '(x0, g) := pop g in let '(y0, g) := pop g in let '(x1, g) := pop g in
      let '(y1, g) := pop g in let '(color, g) := pop_u32 g in
      cmd_line g v x0 y0 x1 y1 color
    else if cmd =? 0x000A then
      let '(src_addr, g) := pop_u32 g in let '(src_w, g) := pop g in
      let '(src_h, g) := pop g in let '(dst_x, g) := pop g in let '(dst_y, g) := pop g in
      cmd_blit g v src_addr src_w src_h dst_x dst_y
    else if cmd =? 0x0005 then
      let '(tm, g) := pop_u32 g in let '(mw, g) := pop g in let '(mh, g) := pop g in
      let '(tw, g) := pop g in let '(th, g) := pop g in let '(ts, g) := pop_u32 g in
      cmd_blit_tilemap g v
    else if cmd =? 0x000B then
      let '(c00, g) := pop_u32 g in let '(c10, g) := pop_u32 g in
      let '(c01, g) := pop_u32 g in let '(c11, g) := pop_u32 g in
      cmd_grad_xy g v c00 c10 c01 c11
    else Done (g, v));
  Done (with_fifo g (fifo_reset (fifo g)), v).

(** ** The MMIO window *)

(** [within]: the offset in the 256-byte window. *)
Definition within (g : GpuMmio) (paddr : Z) : option Z :=
  let off := paddr -w base g in
  if off <? 0x100 then Some off else None.

(** The byte [k] of a register. *)
Definition reg_byte (r k : Z) : Z := Z.land (Z.shiftr r (k * 8)) 0xFF.

(** [read8]: unmapped offsets read as 0. *)
Definition read8 (g : GpuMmio) (paddr : Z) : MemResult Z :=
  match within g paddr with
  | None => Err (Unmapped paddr)
  | Some off =>
      let r := regs g in
      Ok (if off =? 0x00 then Z.land (width r) 0xFF
          else if off =? 0x01 then Z.shiftr (width r) 8
          else if off =? 0x02 then Z.land (height r) 0xFF
          else if off =? 0x03 then Z.shiftr (height r) 8
          else if off =? 0x04 then Z.land (pitch r) 0xFF
          else if off =? 0x05 then Z.shiftr (pitch r) 8
          else if off =? 0x06 then bpp r
          else if (0x0C <=? off) && (off <=? 0x0F) then reg_byte (status r) (off - 0x0C)
          else if (0x08 <=? off) && (off <=? 0x0B) then reg_byte (fb_addr r) (off - 0x08)
          else if (0x20 <=? off) && (off <=? 0x23) then reg_byte (font_addr r) (off - 0x20)
          else if off =? 0x24 then font_w r
          else if off =? 0x25 then font_h r
          else if (0x28 <=? off) && (off <=? 0x2B) then reg_byte (palette_addr r) (off - 0x28)
          else 0)
  end.

(** Replace byte [k] of a 32-bit register. *)
Definition set_reg_byte (r k value : Z) : Z :=
  let shift := k * 8 in
  Z.lor (Z.land r (as_u32 (Z.lnot (as_u32 (Z.shiftl 0xFF shift))))) (as_u32 (Z.shiftl value shift)).
(** [write8]: byte writes to the registers; the high byte of the
    command register runs the command, the high byte of the parameter
    register pushes a FIFO entry.  The low bytes go to the two
    process-wide latches of the shared store. *)
Definition write8 (g : GpuMmio) (sh : Shared) (paddr value : Z)
    : run (GpuMmio * Shared * MemResult unit) :=
  match within g paddr with
  | None => Done (g, sh, Err (Unmapped paddr))
  | Some off =>
      let r := regs g in
      let set n x := Done (with_regs g (set_reg r n x), sh, Ok tt) in
      if off =? 0x00 then set RWidth (Z.lor (Z.land (width r) 0xFF00) value)
      else if off =? 0x01 then set RWidth (Z.lor (Z.land (width r) 0x00FF) (as_u16 (Z.shiftl value 8)))
      else if off =? 0x02 then set RHeight (Z.lor (Z.land (height r) 0xFF00) value)
      else if off =? 0x03 then set RHeight (Z.lor (Z.land (height r) 0x00FF) (as_u16 (Z.shiftl value 8)))
      else if off =? 0x04 then set RPitch (Z.lor (Z.land (pitch r) 0xFF00) value)
      else if off =? 0x05 then set RPitch (Z.lor (Z.land (pitch r) 0x00FF) (as_u16 (Z.shiftl value 8)))
      else if off =? 0x06 then set RBpp value
      else if (0x08 <=? off) && (off <=? 0x0B) then
        set RFbAddr (set_reg_byte (fb_addr r) (off - 0x08) value)
      else if (0x10 <=? off) && (off <=? 0x11) then
        if off - 0x10 =? 0 then
          Done (g, mkShared (vram sh) (Z.lor (Z.land (cmd_tmp sh) 0xFF00) value) (param_tmp sh), Ok tt)
        else
          let cmd := Z.lor (Z.land (cmd_tmp sh) 0x00FF) (as_u16 (Z.shiftl value 8)) in
          '(g', v') ← exec_cmd g (vram sh) cmd;
          Done (g', mkShared v' 0 (param_tmp sh), Ok tt)
      else if (0x12 <=? off) && (off <=? 0x13) then
        if off - 0x12 =? 0 then
          Done (g, mkShared (vram sh) (cmd_tmp sh) (Z.lor (Z.land (param_tmp sh) 0xFF00) value), Ok tt)
        else
          let p := Z.lor (Z.land (param_tmp sh) 0x00FF) (as_u16 (Z.shiftl value 8)) in
          Done (with_fifo g (fifo_push (fifo g) p), mkShared (vram sh) (cmd_tmp sh) 0, Ok tt)
      else if (0x20 <=? off) && (off <=? 0x23) then
        set RFontAddr (set_reg_byte (font_addr r) (off - 0x20) value)
      else if off =? 0x24 then set RFontW value
      else if off =? 0x25 then set RFontH value
      else if (0x28 <=? off) && (off <=? 0x2B) then
        set RPaletteAddr (set_reg_byte (palette_addr r) (off - 0x28) value)
      else Done (g, sh, Ok tt)
  end.

(** [range]: [base..=base + 0xFF]. *)
Definition range (g : GpuMmio) : Z * Z := (base g, base g +w 0xFF).

(** ** The Bresenham loop terminates

    With [a] and [b] the steps taken along x and y, the loop keeps
    [err = dx * (1 + b) + dy * (1 + a)], never steps past the end point
    on either axis, and steps on at least one axis per iteration, so
    [(dx - a) + (- dy - b)] decreases. *)

Lemma put_pixel_32_not_oof (g : GpuMmio) (v : buf) (x y c : Z) :
  put_pixel_32 g v x y c <> Panic OutOfFuel.
Proof. unfold put_pixel_32, buf_store32. repeat case_match; discriminate. Qed.

Lemma line_loop_fuel (fuel : nat) (g : GpuMmio) (v : buf) (x y x1 y1 dx dy sx sy err c a b X0 Y0 : Z) :
  0 <= a <= dx -> 0 <= b <= - dy -> (sx = 1 \/ sx = -1) -> (sy = 1 \/ sy = -1) ->
  x = X0 + sx * a -> y = Y0 + sy * b -> x1 = X0 + sx * dx -> y1 = Y0 - sy * dy ->
  err = dx * (1 + b) + dy * (1 + a) ->
  (dx - a) + (- dy - b) < Z.of_nat fuel ->
  line_loop fuel g v x y x1 y1 dx dy sx sy err c <> Panic OutOfFuel.
Proof.
  revert v x y err a b. induction fuel as [|fuel IH];
    intros v x y err a b Ha Hb Hsx Hsy Hx Hy Hx1 Hy1 He Hm; [lia|].
  cbn [line_loop]. destruct (put_pixel_32 g v x y c) as [v'|p] eqn:Ep; cbn.
  2: { intros [= ->]. exact (put_pixel_32_not_oof g v x y c Ep). }
  destruct ((x =? x1) && (y =? y1)) eqn:Eend; [discriminate|].
  assert (Hne : ~ (a = dx /\ b = - dy)).
  { intros [-> ->]. apply andb_false_iff in Eend as [E|E]; apply Z.eqb_neq in E; nia. }
  assert (Hxa : a = dx -> 2 * err < dy).
  { intros ->. assert (b < - dy) by lia.
    assert (dx * (1 + b) <= dx * (- dy)) by (apply Z.mul_le_mono_nonneg_l; lia). nia. }
  assert (Hyb : b = - dy -> dx < 2 * err).
  { intros ->. assert (a < dx) by lia.
    assert (- dy * (1 + a) <= - dy * dx) by (apply Z.mul_le_mono_nonneg_l; lia). nia. }
  destruct (Z.geb_spec (2 * err) dy) as [E1|E1], (Z.leb_spec (2 * err) dx) as [E2|E2]; cbn.
  - apply (IH _ _ _ _ (a + 1) (b + 1)); try lia; nia.
  - apply (IH _ _ _ _ (a + 1) b); try lia; nia.
  - apply (IH _ _ _ _ a (b + 1)); try lia; nia.
  - lia.
Qed.

(** ** Theorems *)

(** [lerp] meets its end colours: at step 0 it gives the first
    colour and at the last step the second, for every byte of the
    colour and every positive number of steps. *)
Theorem lerp_bounds (a b n : Z) :
  fits 32 a -> fits 32 b -> 0 < n -> lerp a b 0 n = a /\ lerp a b n n = b.
Proof.
  unfold fits, lerp. intros Ha Hb Hn.
  rewrite Z.sub_0_r, Z.sub_diag, !Z.mul_0_r, !Z.add_0_r, !Z.add_0_l, !Z.div_mul by lia.
  unfold as_u32, trunc. change 0xFF with (Z.ones 8). split; bits.
Qed.

Lemma lerp_bounds_witness :
  lerp 0x11223344 0xFFEEDDCC 0 4 = 0x11223344 /\ lerp 0x11223344 0xFFEEDDCC 4 4 = 0xFFEEDDCC.
Proof. apply lerp_bounds; unfold fits; lia. Defined.

(** [C16] LINE between two points of [u16] coordinates always finishes
    within its fuel of [2^17] iterations: the Bresenham loop of the
    source terminates, and the fuel of the model is enough. *)
Theorem cmd_line_terminates (g : GpuMmio) (v : buf) (x0 y0 x1 y1 c : Z) :
  fits 16 x0 -> fits 16 y0 -> fits 16 x1 -> fits 16 y1 ->
  cmd_line g v x0 y0 x1 y1 c <> Panic OutOfFuel.
Proof.
  unfold fits, cmd_line. intros H0 H1 H2 H3. cbn zeta.
  destruct (negb _); [discriminate|].
  destruct (line_loop _ _ _ _ _ _ _ _ _ _ _ _ _) eqn:E; cbn; [discriminate|].
  intros [= ->]. revert E.
  apply (line_loop_fuel _ _ _ _ _ _ _ _ _ _ _ _ _ 0 0 x0 y0);
    try (destruct (Z.ltb_spec x0 x1); lia); try (destruct (Z.ltb_spec y0 y1); lia); try lia.
  unfold line_fuel. rewrite Z2Nat.id by lia. lia.
Qed.

Lemma cmd_line_terminates_witness :
  cmd_line (new 0) (buf_zero 64) 0 0 3 3 0xFFFF_FFFF <> Panic OutOfFuel.
Proof. apply cmd_line_terminates; unfold fits; lia. Defined.

End Gpu.

#[export] Instance Gpu_Device : Device Gpu.GpuMmio :=
  {| range g _ := Gpu.range g; read8 g _ := Gpu.read8 g; write8 := Gpu.write8 |}.
