(* ===== verification/GpuFacts.v ===== *)
(** * Properties of the GPU engine ([devices/gpu.rs])

    The parameter FIFO refines a bounded queue of 256 entries; every
    command leaves the FIFO empty; CLEAR fills a contiguous block of video
    memory (ignoring the pitch); and the
    busy bit of [status], set at the start of a command and cleared at its
    end, can never be seen through the MMIO window, since a command runs
    within one byte write.

    The Section [Keeps] proves once that a predicate kept by a cycle of
    the engine and by the FIFO operations is kept by every command;
    idleness is its first instance.  Every command keeps the bytes of
    video memory bytes ([exec_cmd_bytes]), and [gpu_ok] (every register
    holds a value of its width) makes the GPU a [TypedDevice]. *)

From S2P Require Import Prelude Devices Gpu.

Module GpuFacts.
Import Gpu.

(** ** The FIFO refines a bounded queue *)

Definition fifo_cap : nat := 256.

(** The FIFO's array has its 256 entries and [head] counts the queued
    ones. *)
Definition fifo_wf (f : Fifo) : Prop := length (fbuf f) = fifo_cap /\ (head f <= fifo_cap)%nat.

(** The queue the FIFO holds, oldest first. *)
Definition contents (f : Fifo) : list Z := take (head f) (fbuf f).

(** The abstract queue: a push to a full queue is dropped; a pop of an
    empty queue yields 0. *)
Definition q_push (q : list Z) (v : Z) : list Z :=
  if Nat.ltb (length q) fifo_cap then q ++ [v] else q.
Definition q_pop (q : list Z) : Z * list Z :=
  match q with [] => (0, []) | x :: r => (x, r) end.

Lemma contents_length (f : Fifo) : fifo_wf f -> length (contents f) = head f.
Proof. intros [Hl Hh]. unfold contents. rewrite length_take. lia. Qed.

Lemma fifo_new_wf : fifo_wf fifo_new /\ contents fifo_new = [].
Proof. split; [split; [reflexivity | cbn; lia] | reflexivity]. Qed.

Lemma fifo_reset_spec (f : Fifo) : fifo_wf f -> fifo_wf (fifo_reset f) /\ contents (fifo_reset f) = [].
Proof. intros [Hl Hh]. split; [split; simpl; [exact Hl | lia] | reflexivity]. Qed.

(** ** What the commands do to the engine

    A command changes the engine only through the busy bit, set at its
    start and cleared at its end, and the FIFO operands it pops.  So a
    property of the engine that survives both keeps across every command:
    the section proves it once for any such [P]. *)
Ltac via L H := eapply L; [exact H|].

(** The command [exec_cmd] ran, by its head, with one lemma per command. *)
Ltac cmd_dispatch Hcmd Lclear Lgx Lgy Lgxy Lfill Lrect Lline Lblit Lchar Lputs Ltile :=
  lazymatch type of Hcmd with
  | cmd_clear _ _ _ = _ => via Lclear Hcmd
  | cmd_grad_x _ _ _ _ = _ => via Lgx Hcmd
  | cmd_grad_y _ _ _ _ = _ => via Lgy Hcmd
  | cmd_grad_xy _ _ _ _ _ _ = _ => via Lgxy Hcmd
  | cmd_fillrect _ _ _ _ _ _ _ = _ => via Lfill Hcmd
  | cmd_rect_outline _ _ _ _ _ _ _ = _ => via Lrect Hcmd
  | cmd_line _ _ _ _ _ _ _ = _ => via Lline Hcmd
  | cmd_blit _ _ _ _ _ _ _ = _ => via Lblit Hcmd
  | cmd_putchar _ _ _ _ _ _ _ = _ => via Lchar Hcmd
  | cmd_puts _ _ _ _ _ _ _ = _ => via Lputs Hcmd
  | cmd_blit_tilemap _ _ = _ => via Ltile Hcmd
  end.

Create HintDb gpu_keep.

Section Keeps.
Variable P : GpuMmio -> Prop.
Hypothesis P_cycle : forall g, P g -> P (set_busy (set_busy g true) false).
Hypothesis P_fifo : forall g f, P g -> P (with_fifo g f).

Lemma pop_keeps (g g' : GpuMmio) (x : Z) : pop g = (x, g') -> P g -> P g'.
Proof. unfold pop. destruct (fifo_pop _). intros [= _ <-]. apply P_fifo. Qed.

Lemma pop_u32_keeps (g g' : GpuMmio) (x : Z) : pop_u32 g = (x, g') -> P g -> P g'.
Proof. unfold pop_u32. destruct (fifo_pop_u32 _). intros [= _ <-]. apply P_fifo. Qed.

#[local] Hint Resolve P_cycle P_fifo : gpu_keep.

Ltac cmd_keeps :=
  intros H Hi; cbn zeta in H; repeat case_match; run_inv H; simplify_eq; auto with gpu_keep.

Lemma cmd_clear_keeps g v c g' v' : cmd_clear g v c = Done (g', v') -> P g -> P g'.
Proof. unfold cmd_clear. cmd_keeps. Qed.
Lemma cmd_grad_x_keeps g v a b g' v' : cmd_grad_x g v a b = Done (g', v') -> P g -> P g'.
Proof. unfold cmd_grad_x. cmd_keeps. Qed.
Lemma cmd_grad_y_keeps g v a b g' v' : cmd_grad_y g v a b = Done (g', v') -> P g -> P g'.
Proof. unfold cmd_grad_y. cmd_keeps. Qed.
Lemma cmd_grad_xy_keeps g v a b c d g' v' : cmd_grad_xy g v a b c d = Done (g', v') -> P g -> P g'.
Proof. unfold cmd_grad_xy. cmd_keeps. Qed.
Lemma cmd_fillrect_keeps g v x y w h c g' v' : cmd_fillrect g v x y w h c = Done (g', v') -> P g -> P g'.
Proof. unfold cmd_fillrect. cmd_keeps. Qed.
Lemma cmd_rect_outline_keeps g v x y w h c g' v' :
  cmd_rect_outline g v x y w h c = Done (g', v') -> P g -> P g'.
Proof. unfold cmd_rect_outline. cmd_keeps. Qed.
Lemma cmd_line_keeps g v x0 y0 x1 y1 c g' v' : cmd_line g v x0 y0 x1 y1 c = Done (g', v') -> P g -> P g'.
Proof. unfold cmd_line. cmd_keeps. Qed.
Lemma cmd_blit_keeps g v a w h x y g' v' : cmd_blit g v a w h x y = Done (g', v') -> P g -> P g'.
Proof. unfold cmd_blit. cmd_keeps. Qed.
Lemma cmd_putchar_keeps g v x y ch fg bg g' v' :
  cmd_putchar g v x y ch fg bg = Done (g', v') -> P g -> P g'.
Proof. unfold cmd_putchar. cmd_keeps. Qed.
Lemma cmd_blit_tilemap_keeps g v g' v' : cmd_blit_tilemap g v = Done (g', v') -> P g -> P g'.
Proof. unfold cmd_blit_tilemap. cmd_keeps. Qed.

Lemma cmd_puts_keeps g v x y len fg bg g' v' :
  cmd_puts g v x y len fg bg = Done (g', v') -> P g -> P g'.
Proof.
  unfold cmd_puts. intros H Hi. apply run_bind_Done_inv in H as ([[g1 v1] cx] & Hl & H).
  simplify_eq. revert Hl.
  apply (for_range_inv (fun '(g, _, _) => P g)); [|exact Hi].
  intros k [[g0 v0] c0] [[g2 v2] c2] H0. destruct (fifo_pop _) as [ch f] eqn:E. intros H.
  apply run_bind_Done_inv in H as ([g3 v3] & Hc & H). simplify_eq.
  eapply cmd_putchar_keeps; [exact Hc | apply P_fifo, H0].
Qed.


(** [exec_cmd] keeps [P]: the dispatch pops the operands and runs one
    command; an unknown command only resets the FIFO. *)
Lemma exec_cmd_keeps (g : GpuMmio) (v : buf) (cmd : Z) (g' : GpuMmio) (v' : buf) :
  P g -> exec_cmd g v cmd = Done (g', v') -> P g'.
Proof.
  intros Hi H. unfold exec_cmd in H. apply run_bind_Done_inv in H as ([g1 v1] & H1 & H).
  simplify_eq. apply P_fifo.
  revert H1. repeat case_match; intros Hcmd;
    [ .. | injection Hcmd as <- <-; exact Hi ];
    cmd_dispatch Hcmd cmd_clear_keeps cmd_grad_x_keeps cmd_grad_y_keeps cmd_grad_xy_keeps
      cmd_fillrect_keeps cmd_rect_outline_keeps cmd_line_keeps cmd_blit_keeps
      cmd_putchar_keeps cmd_puts_keeps cmd_blit_tilemap_keeps;
    repeat match goal with
      | H : pop _ = (_, ?g) |- P ?g => apply (pop_keeps _ _ _ H)
      | H : pop_u32 _ = (_, ?g) |- P ?g => apply (pop_u32_keeps _ _ _ H)
      end; exact Hi.
Qed.
End Keeps.

(** ** The busy bit *)

Definition idle (g : GpuMmio) : Prop := status (regs g) = 0.

Lemma idle_with_fifo (g : GpuMmio) (f : Fifo) : idle g -> idle (with_fifo g f).
Proof. exact id. Qed.

Lemma idle_cycle (g : GpuMmio) : idle g -> idle (set_busy (set_busy g true) false).
Proof. unfold idle, set_busy. cbn. intros ->. reflexivity. Qed.

(** ** The commands write bytes

    The video memory is a [&mut [u8]]: every command leaves bytes in it.
    [sbytes] is "holds bytes" for the states of the loops of the commands
    (the buffer, the running pointer with the buffer, the engine with
    the buffer and the cursor of PUTS). *)
Class LoopState (S : Type) := sbytes : S -> Prop.
#[export] Instance buf_LoopState : LoopState buf := bytes_ok.
#[export] Instance ptr_LoopState : LoopState (Z * buf) := fun s => bytes_ok s.2.
#[export] Instance puts_LoopState : LoopState (GpuMmio * buf * Z) := fun s => bytes_ok s.1.2.

Lemma fits_if (n a b : Z) (c : bool) : fits n a -> fits n b -> fits n (if c then a else b).
Proof. destruct c; auto. Qed.

Lemma buf_slice_bytes (v : buf) (a n : Z) (l : list Z) :
  buf_slice v a n = Done l -> bytes_ok v -> Forall (fits 8) l.
Proof.
  unfold buf_slice. case_match; [|discriminate]. intros E Hv. injection E as <-.
  apply Forall_forall. intros x Hx%list_elem_of_In. apply in_map_iff in Hx as (i & <- & _). apply Hv.
Qed.

Lemma put_pixel_32_bytes (g : GpuMmio) (v v' : buf) (x y c : Z) :
  put_pixel_32 g v x y c = Done v' -> bytes_ok v -> bytes_ok v'.
Proof. unfold put_pixel_32. repeat case_match; try (intros [= <-]; exact id). apply bytes_ok_store32. Qed.

Lemma line_loop_bytes (fuel : nat) g v x0 y0 x1 y1 dx dy sx sy err c v' :
  line_loop fuel g v x0 y0 x1 y1 dx dy sx sy err c = Done v' -> bytes_ok v -> bytes_ok v'.
Proof.
  revert v x0 y0 err. induction fuel as [|n IH]; intros v x0 y0 err; [discriminate|].
  cbn [line_loop]. intros H Hv. apply run_bind_Done_inv in H as (v1 & E & H).
  apply put_pixel_32_bytes in E; [|exact Hv].
  destruct (_ && _); [injection H as <-; exact E|].
  destruct (_ >=? _), (_ <=? _); exact (IH _ _ _ _ H E).
Qed.

Create HintDb gpu_bytes.
#[export] Hint Resolve fits_land_ff fits_if bytes_ok_store32 bytes_ok_update buf_slice_bytes
  put_pixel_32_bytes line_loop_bytes : gpu_bytes.

(** Through a command: every loop keeps [sbytes] of its state. *)
Ltac unfold_sbytes :=
  unfold sbytes, buf_LoopState, ptr_LoopState, puts_LoopState in *; cbn [fst snd] in *.

Ltac bytes_tac :=
  run_inv_all; simplify_eq;
  repeat match goal with
    | H : @for_range ?T _ _ _ ?s = Done ?s' |- _ =>
        let Hs := fresh "Hs" in
        assert (Hs : @sbytes T _ s')
          by (revert H; apply (for_range_inv (@sbytes T _));
              [ intros ? ?t ? ?Ht ?Hb;
                repeat match type of t with (_ * _)%type => destruct t as [t ?] end;
                cbn beta iota zeta in Hb; repeat case_match; try discriminate; bytes_tac
              | unfold_sbytes; eauto with bytes gpu_bytes ]);
        clear H
    end;
  unfold_sbytes; eauto with bytes gpu_bytes.

Ltac cmd_bytes := intros H Hv; cbn zeta in H; repeat case_match; bytes_tac.

Lemma cmd_clear_bytes g v c g' v' : cmd_clear g v c = Done (g', v') -> bytes_ok v -> bytes_ok v'.
Proof. unfold cmd_clear. cmd_bytes. Qed.
Lemma cmd_grad_x_bytes g v a b g' v' : cmd_grad_x g v a b = Done (g', v') -> bytes_ok v -> bytes_ok v'.
Proof. unfold cmd_grad_x. cmd_bytes. Qed.
Lemma cmd_grad_y_bytes g v a b g' v' : cmd_grad_y g v a b = Done (g', v') -> bytes_ok v -> bytes_ok v'.
Proof. unfold cmd_grad_y. cmd_bytes. Qed.
Lemma cmd_grad_xy_bytes g v a b c d g' v' :
  cmd_grad_xy g v a b c d = Done (g', v') -> bytes_ok v -> bytes_ok v'.
Proof. unfold cmd_grad_xy. cmd_bytes. Qed.
Lemma cmd_fillrect_bytes g v x y w h c g' v' :
  cmd_fillrect g v x y w h c = Done (g', v') -> bytes_ok v -> bytes_ok v'.
Proof. unfold cmd_fillrect. cmd_bytes. Qed.
Lemma cmd_rect_outline_bytes g v x y w h c g' v' :
  cmd_rect_outline g v x y w h c = Done (g', v') -> bytes_ok v -> bytes_ok v'.
Proof. unfold cmd_rect_outline. cmd_bytes. Qed.
Lemma cmd_line_bytes g v x0 y0 x1 y1 c g' v' :
  cmd_line g v x0 y0 x1 y1 c = Done (g', v') -> bytes_ok v -> bytes_ok v'.
Proof. unfold cmd_line. cmd_bytes. Qed.
Lemma cmd_blit_bytes g v a w h x y g' v' : cmd_blit g v a w h x y = Done (g', v') -> bytes_ok v -> bytes_ok v'.
Proof. unfold cmd_blit. cmd_bytes. Qed.
Lemma cmd_putchar_bytes g v x y ch fg bg g' v' :
  cmd_putchar g v x y ch fg bg = Done (g', v') -> bytes_ok v -> bytes_ok v'.
Proof. unfold cmd_putchar. cmd_bytes. Qed.
#[export] Hint Resolve cmd_putchar_bytes : gpu_bytes.
Lemma cmd_blit_tilemap_bytes g v g' v' : cmd_blit_tilemap g v = Done (g', v') -> bytes_ok v -> bytes_ok v'.
Proof. intros [= _ <-]. exact id. Qed.
Lemma cmd_puts_bytes g v x y len fg bg g' v' :
  cmd_puts g v x y len fg bg = Done (g', v') -> bytes_ok v -> bytes_ok v'.
Proof. unfold cmd_puts. cmd_bytes. Qed.

(** [exec_cmd] leaves bytes in the video memory. *)
Lemma exec_cmd_bytes (g : GpuMmio) (v : buf) (cmd : Z) (g' : GpuMmio) (v' : buf) :
  bytes_ok v -> exec_cmd g v cmd = Done (g', v') -> bytes_ok v'.
Proof.
  intros Hv H. unfold exec_cmd in H. apply run_bind_Done_inv in H as ([g1 v1] & H1 & H).
  simplify_eq. revert H1. repeat case_match; intros Hcmd;
    [ .. | injection Hcmd as <- <-; exact Hv ];
    cmd_dispatch Hcmd cmd_clear_bytes cmd_grad_x_bytes cmd_grad_y_bytes cmd_grad_xy_bytes
      cmd_fillrect_bytes cmd_rect_outline_bytes cmd_line_bytes cmd_blit_bytes
      cmd_putchar_bytes cmd_puts_bytes cmd_blit_tilemap_bytes; exact Hv.
Qed.

(** ** The registers keep their types

    [width], [height] and [pitch] are [u16]; [bpp], [font_w] and [font_h]
    are [u8]; the others are [u32]. *)
Definition reg_bits (n : Reg) : Z :=
  match n with
  | RWidth | RHeight | RPitch => 16
  | RBpp | RFontW | RFontH => 8
  | RFbAddr | RStatus | RFontAddr | RPaletteAddr => 32
  end.

Definition get_reg (r : Registers) (n : Reg) : Z :=
  match n with
  | RWidth => width r | RHeight => height r | RPitch => pitch r | RBpp => bpp r
  | RFbAddr => fb_addr r | RStatus => status r | RFontAddr => font_addr r
  | RFontW => font_w r | RFontH => font_h r | RPaletteAddr => palette_addr r
  end.

Definition regs_ok (r : Registers) : Prop := forall n, fits (reg_bits n) (get_reg r n).

Definition gpu_ok (g : GpuMmio) : Prop := regs_ok (regs g).

Lemma regs_ok_set (r : Registers) (n : Reg) (x : Z) :
  fits (reg_bits n) x -> regs_ok r -> regs_ok (set_reg r n x).
Proof. intros Hx Hr m. specialize (Hr m). destruct n, m; exact Hx || exact Hr. Qed.

Lemma gpu_ok_cycle (g : GpuMmio) : gpu_ok g -> gpu_ok (set_busy (set_busy g true) false).
Proof.
  intros Hg. pose proof (Hg RStatus) as Hs. unfold gpu_ok, set_busy, set_status. cbn [regs with_regs].
  apply regs_ok_set; [|apply regs_ok_set; [|exact Hg]].
  - cbn. apply fits_land; [|apply fits_as_u32]. apply fits_lor; [lia|exact Hs|unfold fits; lia].
  - cbn. apply fits_lor; [lia|exact Hs|unfold fits; lia].
Qed.

Lemma gpu_ok_fifo (g : GpuMmio) (f : Fifo) : gpu_ok g -> gpu_ok (with_fifo g f).
Proof. exact id. Qed.

Lemma fits_hi_byte (x : Z) : fits 16 x -> fits 8 (Z.shiftr x 8).
Proof. unfold fits. intros. rewrite Z.shiftr_div_pow2 by lia. split; [apply Z.div_pos; lia|]. apply Z.div_lt_upper_bound; lia. Qed.

Lemma fits_set_reg_byte (r k x : Z) : fits 32 r -> fits 32 (set_reg_byte r k x).
Proof. intros Hr. unfold set_reg_byte. apply fits_lor; [lia| |apply fits_as_u32]. apply fits_land; [exact Hr|apply fits_as_u32]. Qed.

(** A byte read of the window is a [u8]. *)
Lemma gpu_read8_fits (g : GpuMmio) (a x : Z) : gpu_ok g -> read8 g a = Ok x -> fits 8 x.
Proof.
  intros Hg. pose proof (Hg RWidth). pose proof (Hg RHeight). pose proof (Hg RPitch).
  pose proof (Hg RBpp). pose proof (Hg RFontW). pose proof (Hg RFontH). cbn in *.
  unfold read8, reg_byte. case_match; [|discriminate]. intros [= <-].
  repeat case_match; first [assumption | apply fits_land_ff | apply fits_hi_byte; assumption | unfold fits; lia].
Qed.

(** A byte write keeps the types of the registers and the bytes of the
    video memory, whatever command it runs. *)
Lemma gpu_write8_typed (g : GpuMmio) (sh : Shared) (a x : Z) g' sh' res :
  gpu_ok g -> bytes_ok (vram sh) -> fits 8 x ->
  write8 g sh a x = Done (g', sh', res) -> gpu_ok g' /\ bytes_ok (vram sh').
Proof.
  intros Hg Hv Hx. pose proof (fits_widen 8 16 x ltac:(lia) Hx).
  pose proof (fits_widen 8 32 x ltac:(lia) Hx).
  unfold write8. case_match; [|intros [= <- <- _]; auto].
  repeat case_match; intros Hw; run_inv Hw; simplify_eq; split; try exact Hv; try exact Hg;
    try (apply regs_ok_set; [cbn|exact Hg]);
    try solve [ assumption
              | apply fits_set_reg_byte; first [apply (Hg RFbAddr) | apply (Hg RFontAddr) | apply (Hg RPaletteAddr)]
              | apply fits_lor; [lia | apply fits_land; [apply (Hg RWidth) || apply (Hg RHeight) || apply (Hg RPitch) | unfold fits; lia] | first [assumption | apply fits_trunc; lia]]].
  all: first [ eapply exec_cmd_keeps; [exact gpu_ok_cycle | exact gpu_ok_fifo | exact Hg | eassumption]
             | eapply exec_cmd_bytes; eassumption ].
Qed.


(** ** CLEAR at 32 bits per pixel

    The byte [k] of a colour repeated every four bytes, as the frame of a
    CLEAR holds it. *)
Definition le_byte (c k : Z) : Z := as_u8 (Z.shiftr c (8 * (k mod 4))).

Lemma le_byte_shift (c k n : Z) : le_byte c (k - 4 * n) = le_byte c k.
Proof.
  unfold le_byte. replace (k - 4 * n) with (k + (- n) * 4) by ring.
  now rewrite Z_mod_plus_full.
Qed.

Lemma buf_get_store32 (v : buf) (p c j : Z) :
  buf_get (buf_set_list v p (le_bytes32 c)) j =
    if (p <=? j) && (j <? p + 4) then le_byte c (j - p) else buf_get v j.
Proof.
  unfold le_bytes32. cbn [buf_set_list]. rewrite !buf_get_set.
  destruct (Z.leb_spec p j), (Z.ltb_spec j (p + 4)); cbn [andb].
  - assert (Hj : j = p \/ j = p + 1 \/ j = p + 1 + 1 \/ j = p + 1 + 1 + 1) by lia.
    destruct Hj as [-> | [-> | [-> | ->]]]; zeqb_lia; unfold le_byte.
    + rewrite Z.sub_diag. reflexivity.
    + replace (p + 1 - p) with 1 by lia. reflexivity.
    + replace (p + 1 + 1 - p) with 2 by lia. reflexivity.
    + replace (p + 1 + 1 + 1 - p) with 3 by lia. reflexivity.
  - zeqb_lia. reflexivity.
  - zeqb_lia. reflexivity.
  - lia.
Qed.

(** The inner loop of [cmd_clear]: [n] pixels from [p] on. *)
Lemma clear_row (n : nat) (i p c : Z) (v : buf) :
  0 <= p -> p + 4 * Z.of_nat n <= buf_len v ->
  exists v', for_range n i (fun _ '(p, v) => v' ← buf_store32 v p c; Done (p + 4, v')) (p, v)
               = Done (p + 4 * Z.of_nat n, v') /\ buf_len v' = buf_len v /\
    forall j, buf_get v' j = if (p <=? j) && (j <? p + 4 * Z.of_nat n) then le_byte c (j - p)
                             else buf_get v j.
Proof.
  revert i p v. induction n as [|n IH]; intros i p v Hp Hl.
  - exists v. split_and!; [f_equal; f_equal; lia | reflexivity |].
    intros j. destruct (Z.leb_spec p j), (Z.ltb_spec j (p + 4 * Z.of_nat 0)); cbn [andb];
      try reflexivity; lia.
  - cbn [for_range]. rewrite buf_store32_ok by lia. repeat (rewrite run_bind_Done; cbv beta).
    destruct (IH (i + 1) (p + 4) (buf_set_list v p (le_bytes32 c))) as (v' & E & Hl' & Hg);
      [lia | rewrite buf_len_set_list; lia |].
    exists v'. rewrite E. split_and!; [f_equal; f_equal; lia | now rewrite Hl', buf_len_set_list |].
    intros j. rewrite Hg, buf_get_store32.
    destruct (Z.leb_spec (p + 4) j), (Z.ltb_spec j (p + 4 + 4 * Z.of_nat n)),
      (Z.leb_spec p j), (Z.ltb_spec j (p + 4)), (Z.ltb_spec j (p + 4 * Z.of_nat (S n)));
      cbn [andb]; try lia; try reflexivity.
    replace (j - (p + 4)) with (j - p - 4 * 1) by lia. apply le_byte_shift.
Qed.

(** The outer loop: [m] rows of [w] pixels, one after the other. *)
Lemma clear_rows (m w : nat) (i p c : Z) (v : buf) :
  0 <= p -> p + 4 * Z.of_nat (m * w) <= buf_len v ->
  exists v', for_range m i (fun _ '(p, v) =>
                 for_range w 0 (fun _ '(p, v) => v' ← buf_store32 v p c; Done (p + 4, v')) (p, v)) (p, v)
               = Done (p + 4 * Z.of_nat (m * w), v') /\ buf_len v' = buf_len v /\
    forall j, buf_get v' j = if (p <=? j) && (j <? p + 4 * Z.of_nat (m * w)) then le_byte c (j - p)
                             else buf_get v j.
Proof.
  revert i p v. induction m as [|m IH]; intros i p v Hp Hl.
  - exists v. split_and!; [f_equal; f_equal; lia | reflexivity |].
    intros j. destruct (Z.leb_spec p j), (Z.ltb_spec j (p + 4 * Z.of_nat (0 * w))); cbn [andb];
      try reflexivity; lia.
  - cbn [for_range]. rewrite Nat2Z.inj_mul in *.
    destruct (clear_row w 0 p c v) as (v1 & E1 & Hl1 & Hg1); [lia | nia |].
    rewrite E1. cbn.
    destruct (IH (i + 1) (p + 4 * Z.of_nat w) v1) as (v' & E & Hl' & Hg); [lia | rewrite ?Nat2Z.inj_mul; nia |].
    rewrite ?Nat2Z.inj_mul in E, Hg. exists v'. rewrite E.
    split_and!; [f_equal; f_equal; lia | congruence |].
    intros j. rewrite Hg, Hg1.
    destruct (Z.leb_spec (p + 4 * Z.of_nat w) j), (Z.ltb_spec j (p + 4 * Z.of_nat w + 4 * (Z.of_nat m * Z.of_nat w))),
      (Z.leb_spec p j), (Z.ltb_spec j (p + 4 * Z.of_nat w)),
      (Z.ltb_spec j (p + 4 * (Z.of_nat (S m) * Z.of_nat w)));
      cbn [andb]; try nia; try reflexivity.
    replace (j - (p + 4 * Z.of_nat w)) with (j - p - 4 * Z.of_nat w) by lia. apply le_byte_shift.
Qed.

(** ** Theorems *)

(** [C18] A push onto the FIFO appends to the queue unless it holds 256
    entries, in which case the value is dropped; the FIFO stays well
    formed. *)
Theorem fifo_push_refines (f : Fifo) (v : Z) :
  fifo_wf f -> fifo_wf (fifo_push f v) /\ contents (fifo_push f v) = q_push (contents f) v.
Proof.
  intros Hf. pose proof (contents_length f Hf) as Hc. destruct Hf as [Hl Hh].
  unfold fifo_push, q_push. rewrite Hc, Hl.
  destruct (Nat.ltb_spec (head f) fifo_cap).
  - split; [split; simpl; [rewrite length_insert; exact Hl | lia]|].
    unfold contents. simpl.
    rewrite (take_S_r _ _ v) by (apply list_lookup_insert_eq; lia).
    rewrite take_insert. case_decide; [lia | reflexivity].
  - split; [split; assumption | reflexivity].
Qed.

(** [C19] A pop from the FIFO returns the oldest entry (0 when it is
    empty) and leaves the rest of the queue in order; the FIFO stays
    well formed. *)
Theorem fifo_pop_refines (f : Fifo) :
  fifo_wf f ->
  fifo_wf (fifo_pop f).2 /\ (fifo_pop f).1 = (q_pop (contents f)).1 /\
  contents (fifo_pop f).2 = (q_pop (contents f)).2.
Proof.
  intros [Hl Hh]. unfold fifo_pop.
  destruct (Nat.eqb_spec (head f) 0) as [Eh|Eh]; cbn [fst snd].
  - unfold contents. rewrite Eh. split_and!; [split; assumption | reflexivity | reflexivity].
  - unfold contents. destruct (head f) as [|h]; [congruence|].
    destruct (fbuf f) as [|x rest] eqn:Eb; [simpl in Hl; discriminate|].
    simpl in Hl |- *. split_and!.
    + split; simpl; [rewrite length_app, length_take, !length_drop; simpl; lia | lia].
    + reflexivity.
    + rewrite drop_0, take_app_length'; [reflexivity|]. rewrite length_take. lia.
Qed.

(** [C20] Every command, known or not, leaves the FIFO empty, and leaves
    [status] at 0 when it found it at 0: the busy bit it sets at its
    start is cleared at its end. *)
Theorem exec_cmd_idle (g : GpuMmio) (v : buf) (cmd : Z) (g' : GpuMmio) (v' : buf) :
  idle g -> exec_cmd g v cmd = Done (g', v') -> idle g' /\ head (fifo g') = 0%nat.
Proof.
  intros Hi H. split.
  - exact (exec_cmd_keeps idle idle_cycle idle_with_fifo g v cmd g' v' Hi H).
  - unfold exec_cmd in H. apply run_bind_Done_inv in H as ([g1 v1] & _ & H).
    injection H as <- _. reflexivity.
Qed.

(** [C17] CLEAR at 32 bits per pixel writes the colour, little endian,
    into the [4 * width * height] bytes from [fb_addr] on and changes no
    other byte.  The block is contiguous whatever [pitch] says: with a
    pitch wider than the width, CLEAR misses the ends of the rows that
    [put_pixel_32] and FILLRECT address. *)
Theorem cmd_clear_fills (g : GpuMmio) (v : buf) (c : Z) :
  let r := regs g in
  bpp r = 32 -> 0 <= fb_addr r -> 0 <= width r -> 0 <= height r ->
  fb_addr r + 4 * (width r * height r) <= buf_len v ->
  exists v', cmd_clear g v c = Done (set_busy (set_busy g true) false, v') /\
    forall j, buf_get v' j =
      if (fb_addr r <=? j) && (j <? fb_addr r + 4 * (width r * height r))
      then le_byte c (j - fb_addr r) else buf_get v j.
Proof.
  cbn zeta. intros Hb Hf Hw Hh Hl. unfold cmd_clear. cbn zeta.
  change (bpp (regs (set_busy g true))) with (bpp (regs g)).
  change (fb_addr (regs (set_busy g true))) with (fb_addr (regs g)).
  change (width (regs (set_busy g true))) with (width (regs g)).
  change (height (regs (set_busy g true))) with (height (regs g)).
  rewrite Hb, Z.eqb_refl.
  destruct (clear_rows (Z.to_nat (height (regs g))) (Z.to_nat (width (regs g))) 0 (fb_addr (regs g)) c v)
    as (v' & E & _ & Hg); [lia | rewrite Nat2Z.inj_mul, !Z2Nat.id by lia; nia |].
  rewrite E. repeat (rewrite run_bind_Done; cbv beta iota).
  exists v'. split; [reflexivity|]. intros j. rewrite Hg, Nat2Z.inj_mul, !Z2Nat.id by lia.
  now rewrite (Z.mul_comm (height _)).
Qed.

(** ** Witnesses *)

Lemma fifo_push_refines_witness :
  fifo_wf (fifo_push fifo_new 7) /\ contents (fifo_push fifo_new 7) = q_push (contents fifo_new) 7.
Proof. apply fifo_push_refines. apply fifo_new_wf. Defined.

Lemma fifo_pop_refines_witness :
  let f := fifo_push (fifo_push fifo_new 7) 8 in
  fifo_wf (fifo_pop f).2 /\ (fifo_pop f).1 = (q_pop (contents f)).1 /\
  contents (fifo_pop f).2 = (q_pop (contents f)).2.
Proof.
  apply fifo_pop_refines. apply fifo_push_refines, fifo_push_refines, fifo_new_wf.
Defined.

Lemma exec_cmd_idle_witness :
  let r := result (exec_cmd (new 0) (buf_zero 64) 1) (new 0, buf_zero 64) in
  idle r.1 /\ head (fifo r.1) = 0%nat.
Proof.
  apply (exec_cmd_idle (new 0) (buf_zero 64) 1 _
           (result (exec_cmd (new 0) (buf_zero 64) 1) (new 0, buf_zero 64)).2);
    [reflexivity | vm_compute; reflexivity].
Defined.

Definition clear_test_gpu : GpuMmio :=
  with_regs (new 0) (mkRegs 2 2 4 32 8 0 0 0 0 0).

Lemma cmd_clear_fills_witness :
  exists v', cmd_clear clear_test_gpu (buf_zero 64) 0x11223344 =
               Done (set_busy (set_busy clear_test_gpu true) false, v') /\
    forall j, buf_get v' j = if (8 <=? j) && (j <? 8 + 4 * (2 * 2)) then le_byte 0x11223344 (j - 8)
                             else buf_get (buf_zero 64) j.
Proof. apply (cmd_clear_fills clear_test_gpu); cbn; lia. Defined.

End GpuFacts.

(** The GPU keeps the types of its registers and writes bytes. *)
#[export] Instance Gpu_Typed : TypedDevice Gpu.GpuMmio.
Proof.
  refine {| dev_ok := GpuFacts.gpu_ok |}.
  - intros g sh a x Hg _. apply GpuFacts.gpu_read8_fits, Hg.
  - intros g sh a x g' sh' r. apply GpuFacts.gpu_write8_typed.
Defined.
