(* ===== verification/Bus.v ===== *)
(** * The memory bus ([memory.rs], [MemoryBus])

    The bus is the list of its devices, in registration order, the
    endianness flag (stored, never consulted: every access is
    little-endian) and the [Shared] store.  A device is one of the four
    device types of the source ([AnyDevice], the [Box<dyn Device>]).
    Byte accesses go to the first device whose range holds the physical
    address; 16- and 32-bit accesses are sequences of byte accesses that
    stop at the first error, so a multi-byte write that fails half-way
    keeps the bytes already written.  Virtual accesses translate first
    with the fixed KUSEG/KSEG0/KSEG1 map.

    The typing of the bus rests on the [TypedDevice] interface only:
    [AnyDevice] dispatches to the instance of the boxed device, and the
    invariant [bus_ok] (every device [dev_ok], video memory bytes) is
    kept by every write and makes every read a value of its width.  On
    a RAM, [write32] is equivalent to the trait's default method. *)

From S2P Require Import Prelude Devices Gpu GpuFacts.

Inductive AnyDevice :=
  | DRam (r : Ram.Ram)
  | DRom (r : Rom.Rom)
  | DVram (v : Vram.GpuVram)
  | DGpu (g : Gpu.GpuMmio).

(** Dynamic dispatch of the [Device] trait. *)
#[export] Instance AnyDevice_Device : Device AnyDevice := {|
  range d sh := match d with
    | DRam r => range r sh | DRom r => range r sh | DVram v => range v sh | DGpu g => range g sh
    end;
  read8 d sh a := match d with
    | DRam r => read8 r sh a | DRom r => read8 r sh a | DVram v => read8 v sh a
    | DGpu g => read8 g sh a
    end;
  write8 d sh a x := match d with
    | DRam r => '(r', sh', res) ← write8 r sh a x; Done (DRam r', sh', res)
    | DRom r => '(r', sh', res) ← write8 r sh a x; Done (DRom r', sh', res)
    | DVram v => '(v', sh', res) ← write8 v sh a x; Done (DVram v', sh', res)
    | DGpu g => '(g', sh', res) ← write8 g sh a x; Done (DGpu g', sh', res)
    end
|}.

(** Each device of the bus keeps the typing of its kind. *)
#[export] Instance AnyDevice_Typed : TypedDevice AnyDevice.
Proof.
  refine {| dev_ok d := match d with
      | DRam r => dev_ok r | DRom r => dev_ok r | DVram v => dev_ok v | DGpu g => dev_ok g
      end |}.
  - intros [r|r|v|g] sh a x;
      [ exact (read8_fits (D:=Ram.Ram) r sh a x) | exact (read8_fits (D:=Rom.Rom) r sh a x)
      | exact (read8_fits (D:=Vram.GpuVram) v sh a x) | exact (read8_fits (D:=Gpu.GpuMmio) g sh a x) ].
  - intros [r|r|v|g] sh a x d' sh' res Hd Hs Hx H;
      cbn -[Ram.write8 Rom.write8 Vram.write8 Gpu.write8] in H;
      apply run_bind_Done_inv in H as ([[d1 sh1] r1] & E & H); injection H as <- <- <-;
      [ exact (write8_typed (D:=Ram.Ram) _ _ _ _ _ _ _ Hd Hs Hx E)
      | exact (write8_typed (D:=Rom.Rom) _ _ _ _ _ _ _ Hd Hs Hx E)
      | exact (write8_typed (D:=Vram.GpuVram) _ _ _ _ _ _ _ Hd Hs Hx E)
      | exact (write8_typed (D:=Gpu.GpuMmio) _ _ _ _ _ _ _ Hd Hs Hx E) ].
Defined.

Module Bus.

Record MemoryBus := mkBus { devices : list AnyDevice; little_endian : bool; shared : Shared }.

(** [MemoryBus::new]: no device yet; the store holds the video memory
    and the GPU latches. *)
Definition new (little_endian : bool) (sh : Shared) : MemoryBus := mkBus [] little_endian sh.

(** [add_device]: registration order is search order. *)
Definition add_device (b : MemoryBus) (d : AnyDevice) : MemoryBus :=
  mkBus (devices b ++ [d]) (little_endian b) (shared b).

(** [find_device_mut]: the first device whose range holds [paddr], with
    its position in the list. *)
Fixpoint find_in (sh : Shared) (ds : list AnyDevice) (k : nat) (paddr : Z)
    : option (nat * AnyDevice) :=
  match ds with
  | [] => None
  | d :: ds' => if in_range (range d sh) paddr then Some (k, d) else find_in sh ds' (S k) paddr
  end.

Definition find_device (b : MemoryBus) (paddr : Z) : option (nat * AnyDevice) :=
  find_in (shared b) (devices b) 0 paddr.

Definition read8 (b : MemoryBus) (paddr : Z) : MemResult Z :=
  match find_device b paddr with
  | Some (_, d) => Devices.read8 d (shared b) paddr
  | None => Err (Unmapped paddr)
  end.

(** [read16]: two byte reads, low address first ([u16::from_le_bytes]). *)
Definition read16 (b : MemoryBus) (paddr : Z) : MemResult Z :=
  match read8 b paddr with
  | Err e => Err e
  | Ok b0 =>
      match read8 b (paddr +w 1) with
      | Err e => Err e
      | Ok b1 => Ok (from_le16 b0 b1)
      end
  end.

(** [read32]: four byte reads in address order ([u32::from_le_bytes]). *)
Definition read32 (b : MemoryBus) (paddr : Z) : MemResult Z :=
  match read8 b paddr with
  | Err e => Err e
  | Ok b0 =>
      match read8 b (paddr +w 1) with
      | Err e => Err e
      | Ok b1 =>
          match read8 b (paddr +w 2) with
          | Err e => Err e
          | Ok b2 =>
              match read8 b (paddr +w 3) with
              | Err e => Err e
              | Ok b3 => Ok (from_le32 b0 b1 b2 b3)
              end
          end
      end
  end.

(** [write8]: the device found is replaced by its new state. *)
Definition write8 (b : MemoryBus) (paddr value : Z) : run (MemoryBus * MemResult unit) :=
  match find_device b paddr with
  | Some (k, d) =>
      '(d', sh', res) ← Devices.write8 d (shared b) paddr value;
      Done (mkBus (<[k := d']> (devices b)) (little_endian b) sh', res)
  | None => Done (b, Err (Unmapped paddr))
  end.

(** Byte writes in order, stopping at the first error (the [?] of the
    source). *)
Fixpoint write_bytes (b : MemoryBus) (paddr : Z) (i : Z) (bytes : list Z)
    : run (MemoryBus * MemResult unit) :=
  match bytes with
  | [] => Done (b, Ok tt)
  | x :: rest =>
      '(b', res) ← write8 b (paddr +w i) x;
      match res with
      | Err e => Done (b', Err e)
      | Ok _ => write_bytes b' paddr (i + 1) rest
      end
  end.

(** [write16]: [to_le_bytes], low byte first. *)
Definition write16 (b : MemoryBus) (paddr value : Z) : run (MemoryBus * MemResult unit) :=
  write_bytes b paddr 0 [as_u8 value; as_u8 (Z.shiftr value 8)].

(** [write32]: the bytes of [to_le_bytes] at [paddr + i]. *)
Definition write32 (b : MemoryBus) (paddr value : Z) : run (MemoryBus * MemResult unit) :=
  write_bytes b paddr 0 (le_bytes32 value).

(** [translate_vaddr]: KUSEG is the identity, KSEG0 and KSEG1 both map
    onto the low 512 MiB, the rest (KSEG2/3) is unmapped. *)
Definition translate_vaddr (vaddr : Z) : MemResult Z :=
  if (0x0000_0000 <=? vaddr) && (vaddr <=? 0x7FFF_FFFF) then Ok vaddr
  else if (0x8000_0000 <=? vaddr) && (vaddr <=? 0x9FFF_FFFF) then Ok (vaddr -w 0x8000_0000)
  else if (0xA000_0000 <=? vaddr) && (vaddr <=? 0xBFFF_FFFF) then Ok (vaddr -w 0xA000_0000)
  else Err (Unmapped vaddr).

Definition read8_virt (b : MemoryBus) (vaddr : Z) : MemResult Z :=
  match translate_vaddr vaddr with Err e => Err e | Ok p => read8 b p end.
Definition read16_virt (b : MemoryBus) (vaddr : Z) : MemResult Z :=
  match translate_vaddr vaddr with Err e => Err e | Ok p => read16 b p end.
Definition read32_virt (b : MemoryBus) (vaddr : Z) : MemResult Z :=
  match translate_vaddr vaddr with Err e => Err e | Ok p => read32 b p end.

Definition write8_virt (b : MemoryBus) (vaddr v : Z) : run (MemoryBus * MemResult unit) :=
  match translate_vaddr vaddr with Err e => Done (b, Err e) | Ok p => write8 b p v end.
Definition write16_virt (b : MemoryBus) (vaddr v : Z) : run (MemoryBus * MemResult unit) :=
  match translate_vaddr vaddr with Err e => Done (b, Err e) | Ok p => write16 b p v end.
Definition write32_virt (b : MemoryBus) (vaddr v : Z) : run (MemoryBus * MemResult unit) :=
  match translate_vaddr vaddr with Err e => Done (b, Err e) | Ok p => write32 b p v end.

(** ** A bus whose first device is a RAM

    The machine of [main] registers its RAM first; every access to an
    address of the RAM goes to it. *)

Lemma ram_in_range (r : Ram.Ram) (a : Z) :
  window_valid (Ram.base r) (buf_len (Ram.data r)) ->
  Ram.base r <= a < Ram.base r + buf_len (Ram.data r) -> in_range (Ram.range r) a = true.
Proof.
  intros (Hb & Hl & He) Ha. unfold Ram.range. rewrite window_end_ram by lia.
  unfold in_range. simpl. apply andb_true_iff. split; apply Z.leb_le; lia.
Qed.

Lemma ram_offset_in (r : Ram.Ram) (a : Z) :
  window_valid (Ram.base r) (buf_len (Ram.data r)) ->
  Ram.base r <= a < Ram.base r + buf_len (Ram.data r) -> Ram.offset r a = Some (a - Ram.base r).
Proof.
  intros (Hb & Hl & He) Ha. unfold Ram.offset.
  rewrite wrapping_sub32_small by lia. destruct (Z.ltb_spec (a - Ram.base r) (buf_len (Ram.data r))); [reflexivity | lia].
Qed.

Lemma read8_head_ram (r : Ram.Ram) (ds : list AnyDevice) (le : bool) (sh : Shared) (a : Z) :
  window_valid (Ram.base r) (buf_len (Ram.data r)) ->
  Ram.base r <= a < Ram.base r + buf_len (Ram.data r) ->
  read8 (mkBus (DRam r :: ds) le sh) a = Ok (buf_get (Ram.data r) (a - Ram.base r)).
Proof.
  intros Hv Ha. unfold read8, find_device. cbn [find_in devices shared].
  change (range (DRam r) sh) with (Ram.range r). rewrite ram_in_range by assumption.
  change (Devices.read8 (DRam r) sh a) with (Ram.read8 r sh a). unfold Ram.read8.
  rewrite ram_offset_in by assumption. reflexivity.
Qed.

Lemma write8_head_ram (r : Ram.Ram) (ds : list AnyDevice) (le : bool) (sh : Shared) (a v : Z) :
  window_valid (Ram.base r) (buf_len (Ram.data r)) ->
  Ram.base r <= a < Ram.base r + buf_len (Ram.data r) ->
  write8 (mkBus (DRam r :: ds) le sh) a v =
    Done (mkBus (DRam (Ram.mkRam (Ram.base r) (buf_set (Ram.data r) (a - Ram.base r) (as_u8 v))) :: ds) le sh,
          Ok tt).
Proof.
  intros Hv Ha. unfold write8, find_device. cbn [find_in devices shared].
  change (range (DRam r) sh) with (Ram.range r). rewrite ram_in_range by assumption.
  cbn -[Ram.write8]. unfold Ram.write8. rewrite ram_offset_in by assumption. reflexivity.
Qed.

Ltac ram_side :=
  cbn [Ram.base Ram.data]; rewrite ?buf_len_set; first [assumption | lia].

(** [C9] On a bus whose first device is a RAM, a word written at a
    physical address of the RAM is read back: the four byte writes
    succeed and the four byte reads assemble the word. *)
Theorem ram_write32_read32 (r : Ram.Ram) (ds : list AnyDevice) (le : bool) (sh : Shared) (p v : Z) :
  window_valid (Ram.base r) (buf_len (Ram.data r)) ->
  Ram.base r <= p -> p + 4 <= Ram.base r + buf_len (Ram.data r) ->
  exists b', write32 (mkBus (DRam r :: ds) le sh) p v = Done (b', Ok tt) /\
             read32 b' p = Ok (as_u32 v).
Proof.
  intros Hv H1 H2. pose proof Hv as (Hb & Hl & He).
  assert (Hw : forall k, 0 <= k < 4 -> p +w k = p + k) by (intros; apply wrapping_add32_small; lia).
  unfold write32, le_bytes32. cbn [write_bytes].
  rewrite !Hw by lia.
  do 4 (rewrite write8_head_ram by ram_side; rewrite run_bind_Done; cbv beta iota).
  eexists. split; [reflexivity|].
  unfold read32. rewrite !Hw by lia.
  rewrite !read8_head_ram by ram_side. cbn [Ram.base Ram.data].
  rewrite !buf_get_set. zeqb_lia. rewrite !as_u8_idem.
  f_equal. apply from_le32_le_bytes32.
Qed.

(** ** Device lookup *)

Lemma find_in_lookup (sh : Shared) (ds : list AnyDevice) (k0 k : nat) (a : Z) (d : AnyDevice) :
  find_in sh ds k0 a = Some (k, d) -> (k0 <= k)%nat /\ ds !! (k - k0)%nat = Some d.
Proof.
  revert k0. induction ds as [|d' ds IH]; intros k0; simpl; [discriminate|].
  destruct (in_range _ _).
  - intros [= <- <-]. rewrite Nat.sub_diag. auto.
  - intros H. destruct (IH (S k0) H) as [Hle Hl]. split; [lia|].
    replace (k - k0)%nat with (S (k - S k0)) by lia. exact Hl.
Qed.

Lemma find_device_lookup (b : MemoryBus) (a : Z) (k : nat) (d : AnyDevice) :
  find_device b a = Some (k, d) -> devices b !! k = Some d.
Proof.
  intros H. apply find_in_lookup in H as [_ H]. rewrite Nat.sub_0_r in H. exact H.
Qed.

(** A byte write that the bus routes to a ROM fails with
    [RomWrite] at that address and leaves the whole bus as it was, so a
    later read sees the original byte. *)
Theorem rom_write8_unchanged (b : MemoryBus) (a v : Z) (k : nat) (r : Rom.Rom) :
  find_device b a = Some (k, DRom r) -> write8 b a v = Done (b, Err (RomWrite a)).
Proof.
  intros H. pose proof (find_device_lookup b a k _ H) as Hl.
  unfold write8. rewrite H. cbn. rewrite list_insert_id by exact Hl.
  destruct b; reflexivity.
Qed.

(** [C7] Address translation: KUSEG is mapped as it is, KSEG0 and KSEG1
    both alias the low 512 MiB of physical memory, KSEG2 and KSEG3 are
    unmapped. *)
Theorem translate_vaddr_segments (v : Z) :
  fits 32 v ->
  translate_vaddr v =
    if v <? 0x8000_0000 then Ok v
    else if v <? 0xC000_0000 then Ok (v mod 0x2000_0000)
    else Err (Unmapped v).
Proof.
  unfold fits, translate_vaddr. intros Hv.
  destruct (Z.ltb_spec v 0x8000_0000).
  - replace ((0 <=? v) && (v <=? 0x7FFF_FFFF)) with true by (symmetry; apply andb_true_iff; lia).
    reflexivity.
  - replace ((0 <=? v) && (v <=? 0x7FFF_FFFF)) with false by (symmetry; apply andb_false_iff; lia).
    destruct (Z.ltb_spec v 0xA000_0000).
    + replace ((0x8000_0000 <=? v) && (v <=? 0x9FFF_FFFF)) with true
        by (symmetry; apply andb_true_iff; lia).
      destruct (Z.ltb_spec v 0xC000_0000); [|lia].
      rewrite wrapping_sub32_small by lia. f_equal. apply (Z.mod_unique _ _ 4); lia.
    + replace ((0x8000_0000 <=? v) && (v <=? 0x9FFF_FFFF)) with false
        by (symmetry; apply andb_false_iff; lia).
      destruct (Z.ltb_spec v 0xC000_0000).
      * replace ((0xA000_0000 <=? v) && (v <=? 0xBFFF_FFFF)) with true
          by (symmetry; apply andb_true_iff; lia).
        rewrite wrapping_sub32_small by lia. f_equal. apply (Z.mod_unique _ _ 5); lia.
      * replace ((0xA000_0000 <=? v) && (v <=? 0xBFFF_FFFF)) with false
          by (symmetry; apply andb_false_iff; lia).
        reflexivity.
Qed.

(** ** The bus and the trait's default word write

    [MemoryBus::write32] looks a device up for each byte; the trait's
    default [Device::write32] writes the four bytes to one device.  On
    four addresses that one RAM claims they do the same thing. *)

Lemma find_in_update (sh : Shared) (ds : list AnyDevice) (k0 k : nat) (a : Z) (d d' : AnyDevice) :
  find_in sh ds k0 a = Some (k, d) -> range d' sh = range d sh ->
  find_in sh (<[(k - k0)%nat := d']> ds) k0 a = Some (k, d').
Proof.
  revert k0. induction ds as [|d0 ds IH]; intros k0; cbn [find_in]; [discriminate|].
  destruct (in_range (range d0 sh) a) eqn:E.
  - intros H Hr. injection H as <- <-. rewrite Nat.sub_diag.
    change (<[0%nat := d']> (d0 :: ds)) with (d' :: ds). cbn [find_in]. rewrite Hr, E. reflexivity.
  - intros H Hr. destruct (find_in_lookup _ _ _ _ _ _ H) as [Hle _].
    replace (k - k0)%nat with (S (k - S k0)) by lia.
    change (<[S (k - S k0) := d']> (d0 :: ds)) with (d0 :: <[(k - S k0)%nat := d']> ds).
    cbn [find_in]. rewrite E. exact (IH _ H Hr).
Qed.

Lemma ram_write8_done (r : Ram.Ram) (sh : Shared) (a x : Z) :
  exists r' res, Ram.write8 r sh a x = Done (r', sh, res) /\ Ram.range r' = Ram.range r.
Proof. unfold Ram.write8. destruct (Ram.offset r a); eexists _, _; split; reflexivity. Qed.

(** One byte write of the bus at an address the RAM at [k] claims. *)
Lemma write8_ram_at (b : MemoryBus) (a x : Z) (k : nat) (r : Ram.Ram) :
  find_device b a = Some (k, DRam r) ->
  write8 b a x = '(r', sh', res) ← Ram.write8 r (shared b) a x;
                 Done (mkBus (<[k := DRam r']> (devices b)) (little_endian b) sh', res).
Proof.
  intros E. unfold write8. rewrite E. cbn.
  destruct (ram_write8_done r (shared b) a x) as (r' & res & E' & _). rewrite E'. reflexivity.
Qed.

Lemma find_device_ram_update (b : MemoryBus) (a : Z) (k : nat) (r r' : Ram.Ram) :
  find_device b a = Some (k, DRam r) -> Ram.range r' = Ram.range r ->
  find_device (mkBus (<[k := DRam r']> (devices b)) (little_endian b) (shared b)) a = Some (k, DRam r').
Proof.
  intros E Hr. unfold find_device in *. cbn.
  pose proof (find_in_update _ _ 0 k a _ (DRam r') E Hr) as H. rewrite Nat.sub_0_r in H. exact H.
Qed.

(** One byte of [write32] on each side: the bus finds the RAM at [k]. *)
Ltac ram_byte F sh a r0 R0 i x r1 R1 :=
  rewrite (write8_ram_at _ _ _ _ _ (F i ltac:(lia) r0 R0)); cbn [devices shared little_endian];
  let e := fresh "e" in let E := fresh "E" in
  destruct (ram_write8_done r0 sh (a +w i) (as_u8 x)) as (r1 & [[]|e] & E & R1);
  change (Z.land x 255) with (as_u8 x); rewrite E; cbn [mbind run_bind]; cbn beta iota;
  rewrite ?list_insert_insert_eq;
  [ rewrite R0 in R1 | lazymatch goal with |- Done _ = Done _ => reflexivity end ].

(** [C12] [MemoryBus::write32] on four addresses of one RAM does what the
    trait's default [Device::write32] of that RAM does: the same bytes in
    the same order, stopping at the same first error, with the RAM's new
    state put back in its slot of the bus. *)
Theorem write32_ram_default (b : MemoryBus) (a v : Z) (k : nat) (r : Ram.Ram) :
  fits 32 a -> (forall i, 0 <= i < 4 -> find_device b (a +w i) = Some (k, DRam r)) ->
  write32 b a v =
    '(r', sh', res) ← dev_write32 r (shared b) a v;
    Done (mkBus (<[k := DRam r']> (devices b)) (little_endian b) sh', res).
Proof.
  intros Ha Hf.
  assert (F : forall i, 0 <= i < 4 -> forall r', Ram.range r' = Ram.range r ->
            find_device (mkBus (<[k := DRam r']> (devices b)) (little_endian b) (shared b)) (a +w i)
            = Some (k, DRam r'))
    by (intros; eapply find_device_ram_update; [apply Hf; assumption | assumption]).
  unfold write32, le_bytes32, dev_write32, dev_then. cbn [write_bytes Devices.write8 Ram_Device].
  change (0 + 1) with 1. change (1 + 1) with 2. change (2 + 1) with 3.
  assert (A0 : a +w 0 = a) by (unfold fits in Ha; rewrite wrapping_add32_small by lia; lia).
  rewrite A0. pose proof (Hf 0 ltac:(lia)) as F0. rewrite A0 in F0.
  rewrite (write8_ram_at _ _ _ _ _ F0).
  destruct (ram_write8_done r (shared b) a (as_u8 v)) as (r1 & [[]|e1] & E1 & R1);
    change (Z.land v 255) with (as_u8 v); rewrite E1; cbn [mbind run_bind]; cbn beta iota; [|reflexivity].
  ram_byte F (shared b) a r1 R1 1 (Z.shiftr v 8) r2 R2.
  ram_byte F (shared b) a r2 R2 2 (Z.shiftr v 16) r3 R3.
  ram_byte F (shared b) a r3 R3 3 (Z.shiftr v 24) r4 R4.
  reflexivity.
Qed.

(** ** The bus holds bytes

    [bus_ok]: every device keeps its typing and the video memory holds
    bytes.  Reads then return a [u8], [u16] or [u32], and writes of bytes
    keep [bus_ok], whichever device they reach. *)
Definition bus_ok (b : MemoryBus) : Prop :=
  Forall dev_ok (devices b) /\ bytes_ok (vram (shared b)).

(** No device answers at or above [k] when every device's range ends
    below [k]. *)
Lemma find_in_above (sh : Shared) (ds : list AnyDevice) (j : nat) (k a : Z) :
  Forall (fun d => (range d sh).2 < k) ds -> k <= a -> find_in sh ds j a = None.
Proof.
  revert j. induction ds as [|d ds IH]; intros j Hf Ha; [reflexivity|].
  apply Forall_cons in Hf as [Hd Hds]. cbn [find_in]. unfold in_range.
  destruct (Z.leb_spec a (range d sh).2); [lia|]. rewrite andb_false_r. auto.
Qed.

Lemma read16_above (b : MemoryBus) (k a : Z) :
  Forall (fun d => (range d (shared b)).2 < k) (devices b) -> k <= a -> read16 b a = Err (Unmapped a).
Proof. intros Hf Ha. unfold read16, read8, find_device. by rewrite (find_in_above _ _ _ k). Qed.

Lemma read8_fits (b : MemoryBus) (a x : Z) : bus_ok b -> read8 b a = Ok x -> fits 8 x.
Proof.
  intros [Hd Hs]. unfold read8. destruct (find_device b a) as [[k d]|] eqn:E; [|discriminate].
  apply find_device_lookup in E. apply Devices.read8_fits; [|exact Hs].
  exact (Forall_lookup_1 _ _ _ _ Hd E).
Qed.

Lemma read16_fits (b : MemoryBus) (a x : Z) : bus_ok b -> read16 b a = Ok x -> fits 16 x.
Proof.
  intros Hb. unfold read16.
  destruct (read8 b a) eqn:E0; [|discriminate]. destruct (read8 b (a +w 1)) eqn:E1; [|discriminate].
  intros [= <-]. apply fits_from_le16; eapply read8_fits; eassumption.
Qed.

Lemma read32_fits (b : MemoryBus) (a x : Z) : bus_ok b -> read32 b a = Ok x -> fits 32 x.
Proof.
  intros Hb. unfold read32.
  destruct (read8 b a) eqn:E0; [|discriminate]. destruct (read8 b (a +w 1)) eqn:E1; [|discriminate].
  destruct (read8 b (a +w 2)) eqn:E2; [|discriminate]. destruct (read8 b (a +w 3)) eqn:E3; [|discriminate].
  intros [= <-]. apply fits_from_le32; eapply read8_fits; eassumption.
Qed.

Lemma write8_ok (b b' : MemoryBus) (a x : Z) (res : MemResult unit) :
  bus_ok b -> fits 8 x -> write8 b a x = Done (b', res) -> bus_ok b'.
Proof.
  intros [Hd Hs] Hx. unfold write8. destruct (find_device b a) as [[k d]|] eqn:E.
  - apply find_device_lookup in E. intros H. run_inv H. simplify_eq.
    destruct (write8_typed _ _ _ _ _ _ _ (Forall_lookup_1 _ _ _ _ Hd E) Hs Hx E0) as [Hd' Hs'].
    split; [apply Forall_insert; assumption | exact Hs'].
  - intros [= <- _]. split; assumption.
Qed.

Lemma write_bytes_ok (b b' : MemoryBus) (p i : Z) (l : list Z) (res : MemResult unit) :
  Forall (fits 8) l -> bus_ok b -> write_bytes b p i l = Done (b', res) -> bus_ok b'.
Proof.
  intros Hl. revert b i. induction Hl as [|x l Hx Hl IH]; intros b i Hb; cbn.
  - intros [= <- _]. exact Hb.
  - intros H. apply run_bind_Done_inv in H as ([b1 r1] & E & H).
    apply (write8_ok _ _ _ _ _ Hb Hx) in E.
    destruct r1; [eapply IH; eassumption | injection H as <- _; exact E].
Qed.

Lemma write16_ok (b b' : MemoryBus) (a x : Z) (res : MemResult unit) :
  bus_ok b -> write16 b a x = Done (b', res) -> bus_ok b'.
Proof. apply write_bytes_ok. repeat constructor; apply fits_as_u8. Qed.

Lemma write32_ok (b b' : MemoryBus) (a x : Z) (res : MemResult unit) :
  bus_ok b -> write32 b a x = Done (b', res) -> bus_ok b'.
Proof. apply write_bytes_ok, le_bytes32_fits. Qed.

Ltac virt := intros Hb; unfold read8_virt, read16_virt, read32_virt,
  write8_virt, write16_virt, write32_virt; destruct (translate_vaddr _);
  [|intros; match goal with Hw : _ = _ |- _ => first [discriminate Hw | injection Hw as <- _; exact Hb] end].

Lemma read8_virt_fits (b : MemoryBus) (a x : Z) : bus_ok b -> read8_virt b a = Ok x -> fits 8 x.
Proof. virt. apply read8_fits, Hb. Qed.
Lemma read32_virt_fits (b : MemoryBus) (a x : Z) : bus_ok b -> read32_virt b a = Ok x -> fits 32 x.
Proof. virt. apply read32_fits, Hb. Qed.
Lemma write8_virt_ok (b b' : MemoryBus) (a x : Z) (res : MemResult unit) :
  bus_ok b -> fits 8 x -> write8_virt b a x = Done (b', res) -> bus_ok b'.
Proof. virt. apply write8_ok, Hb. Qed.
Lemma write16_virt_ok (b b' : MemoryBus) (a x : Z) (res : MemResult unit) :
  bus_ok b -> write16_virt b a x = Done (b', res) -> bus_ok b'.
Proof. virt. apply write16_ok, Hb. Qed.
Lemma write32_virt_ok (b b' : MemoryBus) (a x : Z) (res : MemResult unit) :
  bus_ok b -> write32_virt b a x = Done (b', res) -> bus_ok b'.
Proof. virt. apply write32_ok, Hb. Qed.

Lemma bus_ok_add_device (b : MemoryBus) (d : AnyDevice) :
  bus_ok b -> dev_ok d -> bus_ok (add_device b d).
Proof. intros [Hd Hs] H. split; [apply Forall_app; split; [exact Hd | constructor; [exact H | constructor]] | exact Hs]. Qed.

(** ** Witnesses *)

Definition test_shared : Shared := mkShared (buf_zero 0) 0 0.

Lemma ram_write32_read32_witness :
  exists b', write32 (mkBus [DRam (Ram.new 0 16)] true test_shared) 4 0xDEADBEEF = Done (b', Ok tt) /\
             read32 b' 4 = Ok (as_u32 0xDEADBEEF).
Proof. apply ram_write32_read32; cbn; [unfold window_valid; cbn; lia | lia | lia]. Defined.

Lemma rom_write8_unchanged_witness :
  write8 (mkBus [DRom (Rom.new 0x1FC0_0000 [1; 2; 3])] true test_shared) 0x1FC0_0001 9 =
  Done (mkBus [DRom (Rom.new 0x1FC0_0000 [1; 2; 3])] true test_shared, Err (RomWrite 0x1FC0_0001)).
Proof. apply (rom_write8_unchanged _ _ _ 0 (Rom.new 0x1FC0_0000 [1; 2; 3])). vm_compute. reflexivity. Defined.

Lemma translate_vaddr_segments_witness :
  translate_vaddr 0xBFC0_0000 = Ok (0xBFC0_0000 mod 0x2000_0000).
Proof. rewrite translate_vaddr_segments by (unfold fits; lia). reflexivity. Defined.

Definition ram16_bus : MemoryBus := mkBus [DRam (Ram.new 0 16)] true test_shared.

Lemma write32_ram_default_witness :
  write32 ram16_bus 4 0xDEADBEEF =
    '(r', sh', res) ← dev_write32 (Ram.new 0 16) (shared ram16_bus) 4 0xDEADBEEF;
    Done (mkBus (<[0%nat := DRam r']> (devices ram16_bus)) (little_endian ram16_bus) sh', res).
Proof.
  refine (write32_ram_default ram16_bus 4 0xDEADBEEF 0 (Ram.new 0 16) _ _); [unfold fits; lia|].
  intros i Hi. assert (i = 0 \/ i = 1 \/ i = 2 \/ i = 3) as [-> | [-> | [-> | ->]]] by lia;
    vm_compute; reflexivity.
Defined.

End Bus.
