(* ===== verification/Cpu.v ===== *)
(** * The CPU interpreter ([cpu.rs])

    [CPU] holds the register file and the two coprocessor banks.  [step]
    fetches the word at the PC through the bus (a failed fetch leaves the
    CPU as it was), decodes it and executes it.  Execution of a jump or a
    taken branch fetches and executes the next instruction, the delay
    slot, recursively, before it sets the PC; the recursion of the source
    has no bound, so [execute] runs on a fuel that counts the nesting of
    delay slots and returns [Panic StackExhausted] when it runs out (the
    stack overflow of the source).  One level suffices for every
    instruction but a jump or a branch; [execute_fuel_mono] shows that
    more fuel never changes a result.

    The return value of [execute] feeds [writeback], which does nothing:
    it is not modelled.  [memory_access] is the identity and unused.

    The invariant [cpu_ok] (every register a [u32]) is kept by each
    handler, in the Section [Typing] whose hypothesis is that the
    delay-slot runner keeps it, and so by [execute] and [step] on a bus
    that satisfies [bus_ok]. *)

From S2P Require Import Prelude Instructions Registers Alu Devices Gpu Bus.

Module Cpu.
Import Registers.

Record CPU := mkCPU { registers : Registers.Registers; cop0 : Cop0.Cop0; cop1 : Cop1.Cop1 }.

Definition with_regs (c : CPU) (r : Registers.Registers) : CPU := mkCPU r (cop0 c) (cop1 c).

Definition get_pc (c : CPU) : Z := Registers.get_pc (registers c).
Definition set_pc (c : CPU) (v : Z) : CPU := with_regs c (Registers.set_pc (registers c) v).
Definition reg (c : CPU) (i : Z) : Z := Registers.read (registers c) (Z.to_nat i).
Definition set_reg (c : CPU) (i v : Z) : CPU := with_regs c (Registers.write (registers c) (Z.to_nat i) v).
Definition get_hi (c : CPU) : Z := hi (special (registers c)).
Definition get_lo (c : CPU) : Z := lo (special (registers c)).
Definition set_hi (c : CPU) (v : Z) : CPU := with_regs c (write_special (registers c) Hi v).
Definition set_lo (c : CPU) (v : Z) : CPU := with_regs c (write_special (registers c) Lo v).

(** [CPU::reset]: the stack pointer below the top of the first MiB of
    KSEG0, [gp] and [ra] at the reset vector. *)
Definition reset (c : CPU) : CPU :=
  let r := Registers.reset (registers c) in
  let r := set_sp r (0x8000_0000 + 0x0010_0000 - 0x1000) in
  let r := set_gpc r 0xBFC0_0000 in
  let r := Registers.write r 31 0xBFC0_0000 in
  mkCPU r Cop0.new Cop1.new.

(** [CPU::new] resets a default CPU. *)
Definition new : CPU := reset (mkCPU Registers.new Cop0.new Cop1.new).

(** [fetch]: on success the PC moves past the word. *)
Definition fetch (c : CPU) (b : Bus.MemoryBus) : option Z * CPU :=
  let pc := get_pc c in
  match Bus.read32_virt b pc with
  | Ok instr => (Some instr, set_pc c (pc +w 4))
  | Err _ => (None, c)
  end.

Definition unwrap_or (m : MemResult Z) (d : Z) : Z :=
  match m with Ok v => v | Err _ => d end.

(** The branch offset [((imm as i16 as i32) << 2) as u32]. *)
Definition branch_offset (imm : Z) : Z := as_u32 (Z.shiftl (as_i16 imm) 2).

(** Write back a produced HI and LO. *)
Definition write_hilo (c : CPU) (h l : option Z) : CPU :=
  let c := match h with Some v => set_hi c v | None => c end in
  match l with Some v => set_lo c v | None => c end.

(** The 64-bit accumulator [((hi as i64) << 32) | (lo as i64)]. *)
Definition acc64 (c : CPU) : Z := Z.lor (trunc 64 (Z.shiftl (get_hi c) 32)) (get_lo c).

(** Split a 64-bit result into HI and LO. *)
Definition set_acc64 (c : CPU) (res : Z) : CPU :=
  set_lo (set_hi c (as_u32 (Z.shiftr res 32))) (as_u32 (Z.land res 0xFFFF_FFFF)).

(** The runner of a delay slot: the
    [if let Some(v) = self.fetch(bus) { ... self.execute(bus, d) }] of
    the source, passed to the handlers below by [execute]. *)
Definition Delay : Type := CPU -> Bus.MemoryBus -> run (CPU * Bus.MemoryBus).

(** The [Instruction::RType] arm of [execute]: JR and JALR run the delay
    slot and jump to [rs]; every other funct goes to the ALU, whose HI, LO
    and value are written back ([rd = 0] is not written). *)
Definition exec_rtype (delay : Delay) (c : CPU) (b : Bus.MemoryBus) (r : RType.t)
    : run (CPU * Bus.MemoryBus) :=
  let rs_val := reg c (RType.rs r) in
  let rt_val := reg c (RType.rt r) in
  if RType.funct r =? 0x08 then
    '(c, b) ← delay c b; Done (set_pc c rs_val, b)
  else if RType.funct r =? 0x09 then
    let link := get_pc c +w 4 in
    let c := if negb (RType.rd r =? 0) then set_reg c (RType.rd r) link else c in
    '(c, b) ← delay c b; Done (set_pc c rs_val, b)
  else
    res ← Alu.execute rs_val rt_val (RType.shamt r) 0 (RType.opcode r) (RType.funct r)
            false (get_hi c) (get_lo c);
    let c := write_hilo c (Alu.hi res) (Alu.lo res) in
    let c := if negb (RType.rd r =? 0) then set_reg c (RType.rd r) (Alu.value res) else c in
    Done (c, b).

(** The REGIMM arm (opcode [0x01]) of the I-type instructions: the delay
    slot runs whether or not the branch is taken; the link and the target
    are computed from the PC after the delay slot. *)
Definition exec_regimm (delay : Delay) (c : CPU) (b : Bus.MemoryBus) (i : IType.t)
    : run (CPU * Bus.MemoryBus) :=
  let rs_val := reg c (IType.rs i) in
  let '(cond, link) :=
    if IType.rt i =? 0x00 then (as_i32 rs_val <? 0, false)
    else if IType.rt i =? 0x01 then (as_i32 rs_val >=? 0, false)
    else if IType.rt i =? 0x10 then (as_i32 rs_val <? 0, true)
    else if IType.rt i =? 0x11 then (as_i32 rs_val >=? 0, true)
    else (false, false) in
  '(c, b) ← delay c b;
  if cond then
    let c := if link then set_reg c 31 (get_pc c +w 4) else c in
    Done (set_pc c (get_pc c +w branch_offset (IType.imm i)), b)
  else Done (c, b).

(** The loads and stores of the I-type arm, at [rs + imm]: [None] for the
    other opcodes (the [_ => {}] that falls through to the ALU).  LW and
    the byte accesses translate the address; LH, LHU and SH use it as a
    physical address.  A failed load yields 0 (LW then writes nothing); a
    failed store is ignored. *)
Definition exec_mem (c : CPU) (b : Bus.MemoryBus) (i : IType.t)
    : option (run (CPU * Bus.MemoryBus)) :=
  let rs_val := reg c (IType.rs i) in
  let rt_val := reg c (IType.rt i) in
  let imm_u := as_u32 (as_i16 (IType.imm i)) in
  let opc := IType.opcode i in
  let load (val : Z) := Done ((if negb (IType.rt i =? 0) then set_reg c (IType.rt i) val else c), b) in
  let addr := rs_val +w imm_u in
  if opc =? 0x23 then Some
    match Bus.read32_virt b addr with
    | Ok val => load val
    | Err _ => Done (c, b)
    end
  else if opc =? 0x2B then Some ('(b, _) ← Bus.write32_virt b addr rt_val; Done (c, b))
  else if opc =? 0x20 then Some (load (as_u32 (as_i8 (unwrap_or (Bus.read8_virt b addr) 0))))
  else if opc =? 0x24 then Some (load (unwrap_or (Bus.read8_virt b addr) 0))
  else if opc =? 0x21 then Some (load (as_u32 (as_i16 (unwrap_or (Bus.read16 b addr) 0))))
  else if opc =? 0x25 then Some (load (unwrap_or (Bus.read16 b addr) 0))
  else if opc =? 0x28 then
    Some ('(b, _) ← Bus.write8_virt b addr (Z.land rt_val 0xFF); Done (c, b))
  else if opc =? 0x29 then
    Some ('(b, _) ← Bus.write16 b addr (Z.land rt_val 0xFFFF); Done (c, b))
  else None.

(** The [Instruction::IType] arm: the four two-way branches, REGIMM,
    the loads and stores, and the immediate ALU operations written to
    [rt]. *)
(** The I-type ALU operations, after the branches, REGIMM and the loads
    and stores: [ALU::execute] in immediate mode, its value written to
    [rt] unless [rt] is 0. *)
Definition exec_ialu (c : CPU) (b : Bus.MemoryBus) (i : IType.t) : run (CPU * Bus.MemoryBus) :=
  let rs_val := reg c (IType.rs i) in
  let rt_val := reg c (IType.rt i) in
  res ← Alu.execute rs_val rt_val 0 (IType.imm i) (IType.opcode i) 0 true (get_hi c) (get_lo c);
  Done ((if negb (IType.rt i =? 0) then set_reg c (IType.rt i) (Alu.value res) else c), b).

Definition exec_itype (delay : Delay) (c : CPU) (b : Bus.MemoryBus) (i : IType.t)
    : run (CPU * Bus.MemoryBus) :=
  let rs_val := reg c (IType.rs i) in
  let rt_val := reg c (IType.rt i) in
  let pc_next := get_pc c in
  let opc := IType.opcode i in
  let taken (cond : bool) :=
    if cond then '(c, b) ← delay c b; Done (set_pc c (pc_next +w branch_offset (IType.imm i)), b)
    else Done (c, b) in
  if opc =? 0x04 then taken (rs_val =? rt_val)
  else if opc =? 0x05 then taken (negb (rs_val =? rt_val))
  else if opc =? 0x06 then taken (as_i32 rs_val <=? 0)
  else if opc =? 0x07 then taken (as_i32 rs_val >? 0)
  else if opc =? 0x01 then exec_regimm delay c b i
  else match exec_mem c b i with
  | Some r => r
  | None => exec_ialu c b i
  end.

(** The [Instruction::Special2] arm: MADD, MADDU, MSUB and MSUBU update
    the 64-bit accumulator HI:LO; MUL writes the low word of the product to
    [rd] (even [rd = 0], through [Registers::write]) and the whole product
    to HI:LO; other functs do nothing. *)
Definition exec_special2 (c : CPU) (b : Bus.MemoryBus) (s : Special2.t) : run (CPU * Bus.MemoryBus) :=
  let f := Special2.funct s in
  if f =? 0x00 then
    let prod := as_i64 (as_i32 (reg c (Special2.rs s)) * as_i32 (reg c (Special2.rt s))) in
    Done (set_acc64 c (as_i64 (as_i64 (acc64 c) + prod)), b)
  else if f =? 0x01 then
    let prod := as_u64 (reg c (Special2.rs s) * reg c (Special2.rt s)) in
    Done (set_acc64 c (as_u64 (acc64 c + prod)), b)
  else if f =? 0x02 then
    let prod := as_i64 (as_i32 (reg c (Special2.rs s)) * as_i32 (reg c (Special2.rt s))) in
    let c := set_reg c (Special2.rd s) (as_u32 prod) in
    Done (set_acc64 c prod, b)
  else if f =? 0x04 then
    let prod := as_i64 (as_i32 (reg c (Special2.rs s)) * as_i32 (reg c (Special2.rt s))) in
    Done (set_acc64 c (as_i64 (as_i64 (acc64 c) - prod)), b)
  else if f =? 0x05 then
    let prod := as_u64 (reg c (Special2.rs s) * reg c (Special2.rt s)) in
    Done (set_acc64 c (as_u64 (acc64 c - prod)), b)
  else Done (c, b).

(** The [Instruction::JType] arm: J and JAL; JAL links before the delay
    slot runs. *)
Definition exec_jtype (delay : Delay) (c : CPU) (b : Bus.MemoryBus) (j : JType.t)
    : run (CPU * Bus.MemoryBus) :=
  let pc_next := get_pc c in
  let target := Z.lor (Z.land pc_next 0xF000_0000) (as_u32 (Z.shiftl (JType.target j) 2)) in
  let c := if JType.opcode j =? 0x03 then set_reg c 31 (pc_next +w 4) else c in
  '(c, b) ← delay c b; Done (set_pc c target, b).

(** The body of [execute]: the match on the instruction; the COP0, COP1,
    SPECIAL3 and invalid instructions do nothing. *)
Definition exec_body (delay : Delay) (c : CPU) (b : Bus.MemoryBus) (instr : Instruction)
    : run (CPU * Bus.MemoryBus) :=
  match instr with
  | RType r => exec_rtype delay c b r
  | IType i => exec_itype delay c b i
  | Special2 s => exec_special2 c b s
  | JType j => exec_jtype delay c b j
  | _ => Done (c, b)
  end.

(** [execute] on the nesting fuel of delay slots: the delay slot is
    fetched, decoded and executed if the fetch succeeds. *)
Fixpoint execute (fuel : nat) (c : CPU) (b : Bus.MemoryBus) (instr : Instruction)
    : run (CPU * Bus.MemoryBus) :=
  match fuel with
  | O => Panic StackExhausted
  | S fuel' =>
      exec_body (fun c b =>
        match fetch c b with
        | (Some v, c) => execute fuel' c b (decode v)
        | (None, c) => Done (c, b)
        end) c b instr
  end.

(** [step]: fetch, decode, execute. *)
Definition step (fuel : nat) (c : CPU) (b : Bus.MemoryBus) : run (CPU * Bus.MemoryBus) :=
  match fetch c b with
  | (None, c) => Done (c, b)
  | (Some w, c) => execute fuel c b (decode w)
  end.

(** Jumps and branches: the instructions that run a delay slot. *)
Definition is_control (i : Instruction) : bool :=
  match i with
  | RType r => (RType.funct r =? 0x08) || (RType.funct r =? 0x09)
  | IType x => bool_decide (IType.opcode x ∈ [0x01; 0x04; 0x05; 0x06; 0x07])
  | JType _ => true
  | _ => false
  end.

(** Unfold [exec_body] into its handlers. *)
Ltac unfold_exec :=
  unfold exec_body, exec_rtype, exec_itype, exec_ialu, exec_regimm, exec_mem, exec_special2, exec_jtype.

(** ** Accessors *)

Lemma get_pc_set_pc (c : CPU) (v : Z) : get_pc (set_pc c v) = v.
Proof. reflexivity. Qed.

Lemma get_pc_set_reg (c : CPU) (i v : Z) : get_pc (set_reg c i v) = get_pc c.
Proof.
  unfold get_pc, set_reg, Registers.write. simpl.
  destruct (_ && _); reflexivity.
Qed.

Lemma get_pc_set_hi (c : CPU) (v : Z) : get_pc (set_hi c v) = get_pc c.
Proof. reflexivity. Qed.

Lemma get_pc_set_lo (c : CPU) (v : Z) : get_pc (set_lo c v) = get_pc c.
Proof. reflexivity. Qed.

Lemma get_pc_write_hilo (c : CPU) (h l : option Z) : get_pc (write_hilo c h l) = get_pc c.
Proof. destruct h, l; reflexivity. Qed.

Lemma get_pc_set_acc64 (c : CPU) (r : Z) : get_pc (set_acc64 c r) = get_pc c.
Proof. reflexivity. Qed.

#[export] Hint Rewrite get_pc_set_pc get_pc_set_reg get_pc_set_hi get_pc_set_lo
  get_pc_write_hilo get_pc_set_acc64 : mips.

Lemma reg_set_reg_eq (c : CPU) (i v : Z) :
  0 < i < 32 -> length (general (registers c)) = 32%nat -> reg (set_reg c i v) i = v.
Proof.
  intros Hi Hl. unfold reg, set_reg. simpl. apply Registers.read_write_eq; lia.
Qed.

Lemma reg_set_reg_ne (c : CPU) (i j v : Z) :
  0 <= i -> 0 <= j -> i <> j -> reg (set_reg c i v) j = reg c j.
Proof. intros. unfold reg, set_reg. simpl. apply Registers.read_write_ne. lia. Qed.

Lemma reg_set_pc (c : CPU) (v i : Z) : reg (set_pc c v) i = reg c i.
Proof. reflexivity. Qed.

(** ** Fuel *)

(** [r2] agrees with [r1] unless [r1] ran out of fuel. *)
Definition agree {A} (r1 r2 : run A) : Prop := r1 <> Panic StackExhausted -> r2 = r1.

Lemma agree_refl {A} (r : run A) : agree r r.
Proof. intros _. reflexivity. Qed.

Lemma agree_bind {A B} (m1 m2 : run A) (f : A -> run B) :
  agree m1 m2 -> agree (m1 ≫= f) (m2 ≫= f).
Proof.
  intros H Hne. destruct m1 as [a|p].
  - rewrite H by discriminate. reflexivity.
  - simpl in Hne. rewrite H by congruence. reflexivity.
Qed.

Lemma exec_body_agree (d1 d2 : CPU -> Bus.MemoryBus -> run (CPU * Bus.MemoryBus)) c b i :
  (forall c b, agree (d1 c b) (d2 c b)) -> agree (exec_body d1 c b i) (exec_body d2 c b i).
Proof.
  intros Hd. destruct i; unfold_exec; cbn zeta;
    repeat case_match; first [apply agree_refl | apply agree_bind; apply Hd].
Qed.

Lemma execute_agree (n : nat) c b i : agree (execute n c b i) (execute (S n) c b i).
Proof.
  revert c b i. induction n as [|n IH]; intros c b i.
  - intros H. contradiction.
  - apply exec_body_agree. intros c' b'.
    destruct (fetch c' b') as [[v|] c'']; [apply IH | apply agree_refl].
Qed.

(** The delay slot runner is called only with the bus it was given and
    with the PC unchanged. *)
Lemma exec_body_delay_ext (d1 d2 : CPU -> Bus.MemoryBus -> run (CPU * Bus.MemoryBus)) c b i :
  (forall c', get_pc c' = get_pc c -> d1 c' b = d2 c' b) ->
  exec_body d1 c b i = exec_body d2 c b i.
Proof.
  intros Hd. destruct i; unfold_exec; cbn zeta;
    repeat case_match; try reflexivity;
    rewrite Hd by (autorewrite with mips; reflexivity); reflexivity.
Qed.

(** An instruction that is not a jump or a branch never runs its delay
    slot runner. *)
Lemma exec_body_non_control (d1 d2 : CPU -> Bus.MemoryBus -> run (CPU * Bus.MemoryBus)) c b i :
  is_control i = false -> exec_body d1 c b i = exec_body d2 c b i.
Proof.
  intros H. destruct i as [r|x|j| | | | |]; try reflexivity; simpl in H.
  - apply orb_false_iff in H as [H1 H2]. unfold_exec. rewrite H1, H2. reflexivity.
  - rewrite bool_decide_eq_false, !not_elem_of_cons in H.
    unfold_exec. cbn zeta.
    destruct (Z.eqb_spec (IType.opcode x) 0x04); [exfalso; tauto|].
    destruct (Z.eqb_spec (IType.opcode x) 0x05); [exfalso; tauto|].
    destruct (Z.eqb_spec (IType.opcode x) 0x06); [exfalso; tauto|].
    destruct (Z.eqb_spec (IType.opcode x) 0x07); [exfalso; tauto|].
    destruct (Z.eqb_spec (IType.opcode x) 0x01); [exfalso; tauto|]. reflexivity.
  - discriminate.
Qed.

(** Instructions other than jumps and branches leave the PC alone. *)
Lemma exec_body_pc (d : CPU -> Bus.MemoryBus -> run (CPU * Bus.MemoryBus)) c b i c' b' :
  is_control i = false -> exec_body d c b i = Done (c', b') -> get_pc c' = get_pc c.
Proof.
  intros Hi. rewrite (exec_body_non_control d (fun c b => Done (c, b))) by exact Hi.
  destruct i; unfold_exec; cbn zeta; repeat (case_match; cbn iota); intros Hrun;
    try (exfalso; simpl in Hi;
         repeat match goal with E : (_ =? _) = true |- _ => apply Z.eqb_eq in E; rewrite E in Hi end;
         discriminate);
    run_inv_all; simplify_eq; autorewrite with mips; reflexivity.
Qed.

(** ** The register-file shape

    Thirty-two general registers, register 0 holding 0: what every
    operation on the CPU keeps, whatever the values written. *)
Definition shape (c : CPU) : Prop :=
  length (general (registers c)) = 32%nat /\ general (registers c) !! 0%nat = Some 0.

Lemma shape_set_reg (c : CPU) (i v : Z) : shape c -> shape (set_reg c i v).
Proof.
  intros [Hl H0]. unfold shape, set_reg. simpl. rewrite Registers.general0_write.
  split; [|exact H0]. unfold Registers.write.
  destruct (_ && _); [simpl; rewrite length_insert|]; exact Hl.
Qed.

Lemma shape_with_special (c : CPU) (n : SpecialReg) (v : Z) :
  shape c -> shape (with_regs c (write_special (registers c) n v)).
Proof. exact id. Qed.

Lemma shape_set_pc (c : CPU) (v : Z) : shape c -> shape (set_pc c v).
Proof. apply shape_with_special. Qed.

Lemma shape_write_hilo (c : CPU) (h l : option Z) : shape c -> shape (write_hilo c h l).
Proof. destruct h, l; exact id. Qed.

Lemma shape_set_acc64 (c : CPU) (r : Z) : shape c -> shape (set_acc64 c r).
Proof. exact id. Qed.

Lemma shape_if (c : CPU) (b : bool) (f : CPU -> CPU) :
  (forall c, shape c -> shape (f c)) -> shape c -> shape (if b then f c else c).
Proof. destruct b; auto. Qed.

Create HintDb cpu_shape.
#[export] Hint Resolve shape_set_reg shape_set_pc shape_write_hilo shape_set_acc64 : cpu_shape.

Lemma shape_new : shape new.
Proof. split; reflexivity. Qed.

Lemma exec_body_shape (d : CPU -> Bus.MemoryBus -> run (CPU * Bus.MemoryBus)) c b i c' b' :
  (forall c b c' b', shape c -> d c b = Done (c', b') -> shape c') ->
  shape c -> exec_body d c b i = Done (c', b') -> shape c'.
Proof.
  intros Hd Hc. destruct i; unfold_exec; cbn zeta; repeat (case_match; cbn iota); intros Hrun;
    run_inv_all; simplify_eq;
    repeat match goal with
      | E : d ?c0 ?b0 = Done (?c1, _) |- _ =>
          assert (shape c1) by (eapply Hd; [|exact E]; auto with cpu_shape); clear E
      end;
    auto with cpu_shape.
Qed.

Lemma execute_shape (n : nat) c b i c' b' :
  shape c -> execute n c b i = Done (c', b') -> shape c'.
Proof.
  revert c b i c' b'. induction n as [|n IH]; intros c b i c' b' Hc; [discriminate|].
  apply exec_body_shape; [|exact Hc]. intros c0 b0 c1 b1 H0.
  unfold fetch. destruct (Bus.read32_virt _ _); [|congruence].
  apply IH. auto with cpu_shape.
Qed.

Lemma step_fetch_ok (n : nat) c b w :
  Bus.read32_virt b (get_pc c) = Ok w ->
  step n c b = execute n (set_pc c (get_pc c +w 4)) b (decode w).
Proof. intros E. unfold step, fetch. rewrite E. reflexivity. Qed.

(** The delay slot runner of [execute], from a CPU whose PC is [pc]: a
    delay slot that is not a jump or a branch leaves the PC after it. *)
Lemma delay_slot_pc (n : nat) c b w c' b' :
  Bus.read32_virt b (get_pc c) = Ok w -> is_control (decode w) = false ->
  match fetch c b with
  | (Some v, c) => execute n c b (decode v)
  | (None, c) => Done (c, b)
  end = Done (c', b') -> get_pc c' = get_pc c +w 4.
Proof.
  intros E Hi. unfold fetch. rewrite E. destruct n as [|n]; [discriminate|].
  cbn [execute]. intros H. apply exec_body_pc in H; [|exact Hi]. rewrite H. reflexivity.
Qed.

Lemma reg_shape_write (c : CPU) (i v : Z) :
  shape c -> 0 < i < 32 -> reg (set_reg c i v) i = v.
Proof. intros [Hl _] Hi. apply reg_set_reg_eq; [exact Hi | exact Hl]. Qed.

Lemma delay_slot_shape (n : nat) c b c' b' :
  shape c ->
  match fetch c b with
  | (Some v, c) => execute n c b (decode v)
  | (None, c) => Done (c, b)
  end = Done (c', b') -> shape c'.
Proof.
  intros Hc. unfold fetch. destruct (Bus.read32_virt _ _); [|congruence].
  apply execute_shape. auto with cpu_shape.
Qed.

(** A taken REGIMM branch: the delay slot runs first, then the link (for
    BLTZAL and BGEZAL) and the target are computed from the PC after it. *)
Lemma step_regimm_state (n : nat) c b w i w2 c' b' :
  Bus.read32_virt b (get_pc c) = Ok w -> decode w = IType i -> IType.opcode i = 0x01 ->
  ((IType.rt i = 0x00 \/ IType.rt i = 0x10) /\ as_i32 (reg c (IType.rs i)) < 0) \/
  ((IType.rt i = 0x01 \/ IType.rt i = 0x11) /\ 0 <= as_i32 (reg c (IType.rs i))) ->
  Bus.read32_virt b (get_pc c +w 4) = Ok w2 -> is_control (decode w2) = false ->
  step n c b = Done (c', b') ->
  exists c2, get_pc c2 = (get_pc c +w 4) +w 4 /\ (shape c -> shape c2) /\
    let c3 := if (IType.rt i =? 0x10) || (IType.rt i =? 0x11)
              then set_reg c2 31 (get_pc c2 +w 4) else c2 in
    c' = set_pc c3 (get_pc c3 +w branch_offset (IType.imm i)).
Proof.
  intros E Hd Hop Hc E2 Hi2. rewrite (step_fetch_ok _ _ _ _ E).
  destruct n as [|n]; [discriminate|]. cbn [execute]. rewrite Hd.
  unfold_exec. cbn zeta. rewrite !reg_set_pc, Hop. cbn -[Alu.execute fetch execute].
  intros Hrun.
  destruct Hc as [[[Hr|Hr] H]|[[Hr|Hr] H]]; rewrite Hr in Hrun |- *; cbn -[Alu.execute fetch execute] in Hrun;
    [ rewrite (proj2 (Z.ltb_lt _ _) H) in Hrun
    | rewrite (proj2 (Z.ltb_lt _ _) H) in Hrun
    | rewrite (proj2 (Z.geb_le _ _) H) in Hrun
    | rewrite (proj2 (Z.geb_le _ _) H) in Hrun ];
    apply run_bind_Done_inv in Hrun as ([c2 b2] & Hdel & Hrun); exists c2; (split_and!;
    [ pose proof (delay_slot_pc n (set_pc c (get_pc c +w 4)) b w2 c2 b2) as Hp;
      rewrite get_pc_set_pc in Hp; exact (Hp E2 Hi2 Hdel)
    | intros Hs; eapply delay_slot_shape; [|exact Hdel]; auto with cpu_shape
    | simplify_eq; reflexivity ]).
Qed.

(** ** The HI:LO accumulator *)

Lemma acc64_value (c : CPU) :
  fits 32 (get_hi c) -> fits 32 (get_lo c) -> acc64 c = get_hi c * 2 ^ 32 + get_lo c.
Proof. apply hi_lo_join. Qed.

Lemma set_acc64_value (c : CPU) (r : Z) :
  get_hi (set_acc64 c r) * 2 ^ 32 + get_lo (set_acc64 c r) = trunc 64 r.
Proof.
  change (as_u32 (Z.shiftr r 32) * 2 ^ 32 + as_u32 (Z.land r 0xFFFF_FFFF) = trunc 64 r).
  rewrite <- hi_lo_split. f_equal. unfold as_u32, trunc. change 0xFFFF_FFFF with (Z.ones 32). bits.
Qed.

(** ** The registers stay words

    [cpu_ok]: the register file is well formed ([Registers.wf]: 32
    general registers, [r0 = 0], every general and special register a
    [u32]).  Every handler keeps it, and keeps [Bus.bus_ok], when its
    delay-slot runner does: the values it writes come from registers, the
    ALU, the bus (bytes, assembled little-endian) or wrapping arithmetic. *)
Definition cpu_ok (c : CPU) : Prop := Registers.wf (registers c).

Lemma reg_fits (c : CPU) (i : Z) : cpu_ok c -> fits 32 (reg c i).
Proof. apply Registers.read_fits. Qed.

Lemma special_fits_of (c : CPU) (n : SpecialReg) : cpu_ok c -> fits 32 (read_special (registers c) n).
Proof. apply Registers.read_special_fits. Qed.

Lemma get_pc_fits (c : CPU) : cpu_ok c -> fits 32 (get_pc c).
Proof. apply (special_fits_of c Pc). Qed.
Lemma get_hi_fits (c : CPU) : cpu_ok c -> fits 32 (get_hi c).
Proof. apply (special_fits_of c Hi). Qed.
Lemma get_lo_fits (c : CPU) : cpu_ok c -> fits 32 (get_lo c).
Proof. apply (special_fits_of c Lo). Qed.

Lemma ok_set_reg (c : CPU) (i v : Z) : fits 32 v -> cpu_ok c -> cpu_ok (set_reg c i v).
Proof. intros Hv Hc. apply Registers.wf_write; assumption. Qed.

Lemma ok_with_special (c : CPU) (n : SpecialReg) (v : Z) :
  fits 32 v -> cpu_ok c -> cpu_ok (with_regs c (write_special (registers c) n v)).
Proof. intros Hv Hc. apply Registers.wf_write_special; assumption. Qed.

Lemma ok_set_pc (c : CPU) (v : Z) : fits 32 v -> cpu_ok c -> cpu_ok (set_pc c v).
Proof. apply ok_with_special. Qed.

Lemma ok_write_hilo (c : CPU) (h l : option Z) :
  AluFacts.opt_fits h -> AluFacts.opt_fits l -> cpu_ok c -> cpu_ok (write_hilo c h l).
Proof.
  intros Hh Hl Hc. unfold write_hilo.
  destruct l; [apply ok_with_special; [exact Hl|]|]; (destruct h; [apply ok_with_special|]; assumption).
Qed.

Lemma ok_set_acc64 (c : CPU) (r : Z) : cpu_ok c -> cpu_ok (set_acc64 c r).
Proof. intros Hc. apply ok_with_special, ok_with_special; auto with mips. Qed.

Lemma ok_if (c : CPU) (b : bool) (f : CPU -> CPU) :
  (cpu_ok c -> cpu_ok (f c)) -> cpu_ok c -> cpu_ok (if b then f c else c).
Proof. destruct b; auto. Qed.

Lemma unwrap_or_fits (n : Z) (m : MemResult Z) :
  0 <= n -> (forall x, m = Ok x -> fits n x) -> fits n (unwrap_or m 0).
Proof. intros Hn H. destruct m; [now apply H | unfold fits; cbn; lia]. Qed.

Lemma fits_jump_target (pc t : Z) : fits 32 pc -> fits 32 (Z.lor (Z.land pc 0xF000_0000) (as_u32 (Z.shiftl t 2))).
Proof. intros. apply fits_lor; [lia| |apply fits_as_u32]. apply fits_land; [assumption|unfold fits; lia]. Qed.

Lemma load8_fits (b : Bus.MemoryBus) (a : Z) : Bus.bus_ok b -> fits 32 (unwrap_or (Bus.read8_virt b a) 0).
Proof.
  intros Hb. apply (fits_widen 8); [lia|]. apply unwrap_or_fits; [lia|].
  intros x. apply Bus.read8_virt_fits, Hb.
Qed.

Lemma load16_fits (b : Bus.MemoryBus) (a : Z) : Bus.bus_ok b -> fits 32 (unwrap_or (Bus.read16 b a) 0).
Proof.
  intros Hb. apply (fits_widen 16); [lia|]. apply unwrap_or_fits; [lia|].
  intros x. apply Bus.read16_fits, Hb.
Qed.

Create HintDb cpu_ok.
#[export] Hint Resolve reg_fits get_pc_fits get_hi_fits get_lo_fits ok_set_reg ok_set_pc
  ok_write_hilo ok_set_acc64 fits_jump_target fits_as_u32 fits_wrapping_add32
  load8_fits load16_fits : cpu_ok.

Section Typing.
Variable d : Delay.
Hypothesis Hd : forall c b c' b',
  cpu_ok c -> Bus.bus_ok b -> d c b = Done (c', b') -> cpu_ok c' /\ Bus.bus_ok b'.

(** Close the goals of a handler: the delay slot keeps the typing, the
    ALU and the bus give words and keep the bus. *)
Ltac typing_tac :=
  run_inv_all; simplify_eq;
  repeat match goal with
    | E : d ?c ?b = Done (?c1, ?b1) |- _ =>
        destruct (Hd c b c1 b1 ltac:(auto 6 with cpu_ok) ltac:(assumption) E); clear E
    | E : Alu.execute ?rs ?rt ?sh ?imm ?o ?f ?im ?h ?l = Done ?res |- _ =>
        destruct (AluFacts.execute_fits rs rt sh imm o f im h l res
                    ltac:(auto with cpu_ok) ltac:(auto with cpu_ok)
                    ltac:(first [assumption | unfold fits; lia]) ltac:(first [assumption | unfold fits; lia])
                    ltac:(auto with cpu_ok) ltac:(auto with cpu_ok) E) as (? & ? & ?); clear E
    | E : Bus.write32_virt ?b _ _ = Done (?b1, _), Hb : Bus.bus_ok ?b |- _ =>
        apply (Bus.write32_virt_ok _ _ _ _ _ Hb) in E
    | E : Bus.write8_virt ?b _ _ = Done (?b1, _), Hb : Bus.bus_ok ?b |- _ =>
        apply (Bus.write8_virt_ok _ _ _ _ _ Hb (fits_land_ff _)) in E
    | E : Bus.write16 ?b _ _ = Done (?b1, _), Hb : Bus.bus_ok ?b |- _ =>
        apply (Bus.write16_ok _ _ _ _ _ Hb) in E
    | E : Bus.read32_virt ?b _ = Ok _, Hb : Bus.bus_ok ?b |- _ =>
        apply (Bus.read32_virt_fits _ _ _ Hb) in E
    end;
  split; auto 6 with cpu_ok.

Lemma exec_rtype_ok c b r c' b' :
  fits 5 (RType.shamt r) -> cpu_ok c -> Bus.bus_ok b ->
  exec_rtype d c b r = Done (c', b') -> cpu_ok c' /\ Bus.bus_ok b'.
Proof.
  intros Hsh Hc Hb. unfold exec_rtype. cbn zeta. repeat case_match; intros Hrun; typing_tac.
Qed.

Lemma exec_regimm_ok c b i c' b' :
  cpu_ok c -> Bus.bus_ok b -> exec_regimm d c b i = Done (c', b') -> cpu_ok c' /\ Bus.bus_ok b'.
Proof.
  intros Hc Hb. unfold exec_regimm. cbn zeta.
  repeat (case_match; cbn iota); intros Hrun; typing_tac.
Qed.

Lemma exec_mem_ok c b i c' b' :
  cpu_ok c -> Bus.bus_ok b -> exec_mem c b i = Some (Done (c', b')) -> cpu_ok c' /\ Bus.bus_ok b'.
Proof.
  intros Hc Hb. unfold exec_mem. cbn zeta.
  repeat case_match; intros Hrun; try discriminate; injection Hrun as Hrun; typing_tac.
Qed.

Lemma exec_itype_ok c b i c' b' :
  fits 16 (IType.imm i) -> cpu_ok c -> Bus.bus_ok b ->
  exec_itype d c b i = Done (c', b') -> cpu_ok c' /\ Bus.bus_ok b'.
Proof.
  intros Himm Hc Hb. unfold exec_itype, exec_ialu. cbn zeta.
  repeat (case_match; cbn iota); intros Hrun;
    first [ apply exec_regimm_ok in Hrun; assumption
          | subst; eapply exec_mem_ok; [exact Hc | exact Hb | eassumption]
          | typing_tac ].
Qed.

Lemma exec_special2_ok c b s c' b' :
  cpu_ok c -> exec_special2 c b s = Done (c', b') -> cpu_ok c' /\ b' = b.
Proof.
  intros Hc. unfold exec_special2. cbn zeta.
  repeat case_match; intros [= <- <-]; split; auto with cpu_ok.
Qed.

Lemma exec_jtype_ok c b j c' b' :
  cpu_ok c -> Bus.bus_ok b -> exec_jtype d c b j = Done (c', b') -> cpu_ok c' /\ Bus.bus_ok b'.
Proof.
  intros Hc Hb. unfold exec_jtype. cbn zeta. repeat case_match; intros Hrun; typing_tac.
Qed.

(** A well-formed instruction keeps the typing. *)
Lemma exec_body_ok c b i c' b' :
  Instructions.wf i = true -> cpu_ok c -> Bus.bus_ok b ->
  exec_body d c b i = Done (c', b') -> cpu_ok c' /\ Bus.bus_ok b'.
Proof.
  intros Hi Hc Hb. destruct i as [r|x|j| | |s| |]; cbn [exec_body]; try (intros [= <- <-]; auto).
  - cbn in Hi. apply andb_true_iff in Hi as [Hi _]. apply bool_decide_eq_true in Hi.
    apply exec_rtype_ok; tauto.
  - cbn in Hi. apply andb_true_iff in Hi as [Hi _]. apply bool_decide_eq_true in Hi.
    apply exec_itype_ok; tauto.
  - apply exec_jtype_ok; assumption.
  - intros H. apply exec_special2_ok in H as [? ->]; auto.
Qed.
End Typing.

Lemma fetch_ok (c c' : CPU) (b : Bus.MemoryBus) (o : option Z) :
  cpu_ok c -> fetch c b = (o, c') -> cpu_ok c'.
Proof. unfold fetch. intros Hc. case_match; intros [= _ <-]; auto with cpu_ok. Qed.

Lemma execute_ok (n : nat) c b i c' b' :
  Instructions.wf i = true -> cpu_ok c -> Bus.bus_ok b ->
  execute n c b i = Done (c', b') -> cpu_ok c' /\ Bus.bus_ok b'.
Proof.
  revert c b i c' b'. induction n as [|n IH]; intros c b i c' b'; [discriminate|].
  cbn [execute]. apply exec_body_ok. intros c0 b0 c1 b1 Hc Hb.
  destruct (fetch c0 b0) as [[w|] c2] eqn:E; apply fetch_ok in E; [|exact Hc| |exact Hc].
  - apply IH; [apply decode_wf | exact E | exact Hb].
  - intros [= <- <-]. auto.
Qed.

(** A step of the CPU keeps the register file well formed and the bus
    holding bytes. *)
Lemma step_ok (n : nat) c b c' b' :
  cpu_ok c -> Bus.bus_ok b -> step n c b = Done (c', b') -> cpu_ok c' /\ Bus.bus_ok b'.
Proof.
  intros Hc Hb. unfold step. destruct (fetch c b) as [[w|] c2] eqn:E; apply fetch_ok in E; auto.
  - apply execute_ok; [apply decode_wf | exact E | exact Hb].
  - intros [= <- <-]. auto.
Qed.

Lemma cpu_ok_new : cpu_ok new.
Proof.
  unfold cpu_ok, new, reset. cbn [registers].
  apply Registers.wf_write; [|unfold fits; lia].
  unfold set_gpc, set_sp.
  apply Registers.wf_set_general; [|lia|unfold fits; lia].
  apply Registers.wf_set_general; [apply Registers.wf_reset | lia | unfold fits; lia].
Qed.

(** What MADD, MADDU, MSUB and MSUBU do to the accumulator in the MIPS32
    ISA, before the result is cut to 64 bits. *)
Definition acc_update (f x y acc : Z) : Z :=
  if f =? 0x00 then acc + as_i32 x * as_i32 y
  else if f =? 0x01 then acc + x * y
  else if f =? 0x04 then acc - as_i32 x * as_i32 y
  else acc - x * y.

(** More fuel never changes an outcome of [execute] that did not
    run out of fuel: the fuel only bounds the nesting of delay slots. *)
Theorem execute_fuel_mono (n m : nat) c b i r :
  (n <= m)%nat -> execute n c b i = r -> r <> Panic StackExhausted -> execute m c b i = r.
Proof.
  intros Hle E Hne. induction Hle as [|m Hle IH]; [exact E|].
  rewrite <- IH. apply execute_agree. congruence.
Qed.

(** An instruction other than a jump or a branch needs one level of
    fuel: with more it does the same. *)
Theorem execute_non_control_fuel (n : nat) c b i :
  is_control i = false -> execute (S n) c b i = execute 1 c b i.
Proof. intros H. simpl. apply exec_body_non_control. exact H. Qed.

(** A jump or branch whose delay slot is not itself a jump or a
    branch needs two levels of fuel. *)
Theorem execute_delay_fuel (n : nat) c b i :
  (forall w, Bus.read32_virt b (get_pc c) = Ok w -> is_control (decode w) = false) ->
  execute (S (S n)) c b i = execute 2 c b i.
Proof.
  intros Hd. cbn [execute]. apply exec_body_delay_ext. intros c' Hpc. unfold fetch.
  rewrite Hpc. destruct (Bus.read32_virt b (get_pc c)) eqn:E; [|reflexivity].
  cbn [execute]. apply exec_body_non_control. now apply Hd.
Qed.

(** A failed fetch leaves the CPU and the bus as they were. *)
Theorem step_fetch_error (n : nat) c b e :
  Bus.read32_virt b (get_pc c) = Err e -> step n c b = Done (c, b).
Proof. intros E. unfold step, fetch. rewrite E. reflexivity. Qed.

(** [C10] After an instruction that is not a jump or a branch, the PC is
    the next word. *)
Theorem step_pc_next (n : nat) c b w c' b' :
  Bus.read32_virt b (get_pc c) = Ok w -> is_control (decode w) = false ->
  step (S n) c b = Done (c', b') -> get_pc c' = get_pc c +w 4.
Proof.
  intros E Hi. unfold step, fetch. rewrite E. cbn [execute]. intros H.
  apply exec_body_pc in H; [|exact Hi]. rewrite H. reflexivity.
Qed.

(** [C5] A taken BEQ, BNE, BLEZ or BGTZ sets the PC to the address of
    its delay slot plus the sign-extended offset times four, whatever the
    delay slot does. *)
Theorem step_branch_taken (n : nat) c b w i c' b' :
  Bus.read32_virt b (get_pc c) = Ok w -> decode w = IType i ->
  let rs_val := reg c (IType.rs i) in
  let rt_val := reg c (IType.rt i) in
  (IType.opcode i = 0x04 /\ rs_val = rt_val) \/ (IType.opcode i = 0x05 /\ rs_val <> rt_val) \/
  (IType.opcode i = 0x06 /\ as_i32 rs_val <= 0) \/ (IType.opcode i = 0x07 /\ 0 < as_i32 rs_val) ->
  step n c b = Done (c', b') ->
  get_pc c' = (get_pc c +w 4) +w branch_offset (IType.imm i).
Proof.
  intros E Hd; cbn zeta; intros Hc. rewrite (step_fetch_ok _ _ _ _ E).
  destruct n as [|n]; [discriminate|]. cbn [execute]. rewrite Hd.
  unfold_exec. cbn zeta. rewrite !reg_set_pc, get_pc_set_pc.
  destruct Hc as [[-> H]|[[-> H]|[[-> H]|[-> H]]]]; cbn -[Alu.execute];
    [ rewrite (proj2 (Z.eqb_eq _ _) H)
    | rewrite (proj2 (Z.eqb_neq _ _) H)
    | rewrite (proj2 (Z.leb_le _ _) H)
    | rewrite (proj2 (Z.gtb_lt _ _) H) ];
    intros Hrun; run_inv Hrun; simplify_eq; reflexivity.
Qed.

(** [C6] A BEQ, BNE, BLEZ or BGTZ that is not taken only moves the PC
    past itself: its delay slot is not run by the branch, and nothing
    else changes. *)
Theorem step_branch_not_taken (n : nat) c b w i :
  Bus.read32_virt b (get_pc c) = Ok w -> decode w = IType i ->
  let rs_val := reg c (IType.rs i) in
  let rt_val := reg c (IType.rt i) in
  (IType.opcode i = 0x04 /\ rs_val <> rt_val) \/ (IType.opcode i = 0x05 /\ rs_val = rt_val) \/
  (IType.opcode i = 0x06 /\ 0 < as_i32 rs_val) \/ (IType.opcode i = 0x07 /\ as_i32 rs_val <= 0) ->
  step (S n) c b = Done (set_pc c (get_pc c +w 4), b).
Proof.
  intros E Hd; cbn zeta; intros Hc. rewrite (step_fetch_ok _ _ _ _ E).
  cbn [execute]. rewrite Hd. unfold_exec. cbn zeta. rewrite !reg_set_pc.
  destruct Hc as [[-> H]|[[-> H]|[[-> H]|[-> H]]]]; cbn -[Alu.execute];
    [ rewrite (proj2 (Z.eqb_neq _ _) H)
    | rewrite (proj2 (Z.eqb_eq _ _) H)
    | rewrite (proj2 (Z.leb_gt _ _) H)
    | destruct (Z.gtb_spec (as_i32 (reg c (IType.rs i))) 0); [lia|] ]; reflexivity.
Qed.

(** [C21] A taken BLTZ, BGEZ, BLTZAL or BGEZAL whose delay slot is an
    ordinary instruction sets the PC to the branch address plus 8 plus
    the offset: the offset is added to the PC after the delay slot, one
    word past the target of the ISA and of [step_branch_taken]. *)
Theorem step_regimm_taken (n : nat) c b w i w2 c' b' :
  Bus.read32_virt b (get_pc c) = Ok w -> decode w = IType i -> IType.opcode i = 0x01 ->
  ((IType.rt i = 0x00 \/ IType.rt i = 0x10) /\ as_i32 (reg c (IType.rs i)) < 0) \/
  ((IType.rt i = 0x01 \/ IType.rt i = 0x11) /\ 0 <= as_i32 (reg c (IType.rs i))) ->
  Bus.read32_virt b (get_pc c +w 4) = Ok w2 -> is_control (decode w2) = false ->
  step n c b = Done (c', b') ->
  get_pc c' = ((get_pc c +w 4) +w 4) +w branch_offset (IType.imm i).
Proof.
  intros E Hd Hop Hc E2 Hi2 Hs.
  destruct (step_regimm_state n c b w i w2 c' b' E Hd Hop Hc E2 Hi2 Hs) as (c2 & Hpc & _ & ->).
  rewrite get_pc_set_pc. destruct (_ || _); autorewrite with mips; now rewrite Hpc.
Qed.

(** [C22] A taken BLTZAL or BGEZAL whose delay slot is an ordinary
    instruction links register 31 to the branch address plus 12, one word
    past the return address of the ISA (the branch address plus 8). *)
Theorem step_regimm_link (n : nat) c b w i w2 c' b' :
  shape c ->
  Bus.read32_virt b (get_pc c) = Ok w -> decode w = IType i -> IType.opcode i = 0x01 ->
  (IType.rt i = 0x10 /\ as_i32 (reg c (IType.rs i)) < 0) \/
  (IType.rt i = 0x11 /\ 0 <= as_i32 (reg c (IType.rs i))) ->
  Bus.read32_virt b (get_pc c +w 4) = Ok w2 -> is_control (decode w2) = false ->
  step n c b = Done (c', b') ->
  reg c' 31 = ((get_pc c +w 4) +w 4) +w 4.
Proof.
  intros Hsh E Hd Hop Hc E2 Hi2 Hs.
  assert (Hc' : ((IType.rt i = 0x00 \/ IType.rt i = 0x10) /\ as_i32 (reg c (IType.rs i)) < 0) \/
                ((IType.rt i = 0x01 \/ IType.rt i = 0x11) /\ 0 <= as_i32 (reg c (IType.rs i))))
    by (destruct Hc as [[? ?]|[? ?]]; [left|right]; auto).
  destruct (step_regimm_state n c b w i w2 c' b' E Hd Hop Hc' E2 Hi2 Hs) as (c2 & Hpc & Hsh2 & ->).
  replace ((IType.rt i =? 0x10) || (IType.rt i =? 0x11)) with true
    by (destruct Hc as [[-> _]|[-> _]]; reflexivity).
  rewrite reg_set_pc, reg_shape_write by auto with lia. now rewrite Hpc.
Qed.

(** J and JAL set the PC to the 256 MiB region of their delay slot
    combined with the target field times four, whatever the delay slot
    does. *)
Theorem step_jump_target (n : nat) c b w j c' b' :
  Bus.read32_virt b (get_pc c) = Ok w -> decode w = JType j ->
  step n c b = Done (c', b') ->
  get_pc c' = Z.lor (Z.land (get_pc c +w 4) 0xF000_0000) (as_u32 (Z.shiftl (JType.target j) 2)).
Proof.
  intros E Hd. rewrite (step_fetch_ok _ _ _ _ E).
  destruct n as [|n]; [discriminate|]. cbn [execute]. rewrite Hd.
  unfold_exec. cbn zeta. rewrite get_pc_set_pc. intros Hrun.
  apply run_bind_Done_inv in Hrun as ([c2 b2] & _ & Hrun). simplify_eq. reflexivity.
Qed.

(** JR and JALR set the PC to the value register rs held before
    the instruction, also when JALR links into rs itself. *)
Theorem step_jump_register (n : nat) c b w r c' b' :
  Bus.read32_virt b (get_pc c) = Ok w -> decode w = RType r ->
  RType.funct r = 0x08 \/ RType.funct r = 0x09 ->
  step n c b = Done (c', b') -> get_pc c' = reg c (RType.rs r).
Proof.
  intros E Hd Hf. rewrite (step_fetch_ok _ _ _ _ E).
  destruct n as [|n]; [discriminate|]. cbn [execute]. rewrite Hd.
  unfold_exec. cbn zeta. rewrite !reg_set_pc.
  destruct Hf as [-> | ->]; cbn -[Alu.execute fetch execute set_reg]; intros Hrun;
    apply run_bind_Done_inv in Hrun as ([c2 b2] & _ & Hrun); simplify_eq; reflexivity.
Qed.

(** [C8] MADD, MADDU, MSUB and MSUBU add the signed or unsigned product
    of rs and rt to, or subtract it from, the 64-bit accumulator HI:LO
    modulo 2^64, and change nothing else. *)
Theorem exec_accumulate d c b s :
  let f := Special2.funct s in
  f = 0x00 \/ f = 0x01 \/ f = 0x04 \/ f = 0x05 ->
  fits 32 (get_hi c) -> fits 32 (get_lo c) ->
  exists c', exec_body d c b (Special2 s) = Done (c', b) /\
    get_hi c' * 2 ^ 32 + get_lo c' =
      trunc 64 (acc_update f (reg c (Special2.rs s)) (reg c (Special2.rt s))
                           (get_hi c * 2 ^ 32 + get_lo c)) /\
    get_pc c' = get_pc c /\ (forall k, reg c' k = reg c k).
Proof.
  cbn zeta. intros Hf Hh Hl. unfold_exec; unfold acc_update. rewrite acc64_value by assumption.
  destruct Hf as [-> | [-> | [-> | ->]]]; cbn [Z.eqb Pos.eqb];
    (eexists; split_and!; [reflexivity | rewrite set_acc64_value | reflexivity | reflexivity]);
    unfold as_i64, as_u64.
  - rewrite trunc_signed, trunc_signed_add by lia. reflexivity.
  - rewrite trunc_trunc, trunc_add_r by lia. reflexivity.
  - rewrite trunc_signed, trunc_signed_sub by lia. reflexivity.
  - rewrite trunc_trunc, trunc_sub_r by lia. reflexivity.
Qed.

(** A step keeps the register file's shape: 32 general registers,
    register 0 holding 0. *)
Theorem step_shape (n : nat) c b c' b' :
  shape c -> step n c b = Done (c', b') -> shape c'.
Proof.
  intros Hc. unfold step, fetch. destruct (Bus.read32_virt _ _); [|congruence].
  apply execute_shape. auto with cpu_shape.
Qed.

(** [C23] JAL writes the link before its delay slot runs: the slot,
    fetched at [pc + 4], starts from a CPU whose r31 already holds
    [pc + 8], and the jump keeps every register the slot leaves, so a
    slot that writes r31 overrides the link. *)
Theorem step_jal_link_before_slot (n : nat) c b w j w2 c2 b2 :
  Bus.read32_virt b (get_pc c) = Ok w -> decode w = JType j -> JType.opcode j = 0x03 ->
  Bus.read32_virt b (get_pc c +w 4) = Ok w2 ->
  execute n (set_pc (set_reg (set_pc c (get_pc c +w 4)) 31 ((get_pc c +w 4) +w 4)) ((get_pc c +w 4) +w 4))
    b (decode w2) = Done (c2, b2) ->
  step (S n) c b =
    Done (set_pc c2 (Z.lor (Z.land (get_pc c +w 4) 0xF000_0000) (as_u32 (Z.shiftl (JType.target j) 2))), b2).
Proof.
  intros E Hd Hop E2 Hs. rewrite (step_fetch_ok _ _ _ _ E). cbn [execute]. rewrite Hd.
  cbn [exec_body]. unfold exec_jtype. cbn zeta. rewrite Hop, get_pc_set_pc. cbn [Z.eqb Pos.eqb].
  unfold fetch. rewrite get_pc_set_reg, get_pc_set_pc, E2, Hs. reflexivity.
Qed.

(** [C24] LH (and LHU) reads the bus at the untranslated address: at a
    KSEG0 or KSEG1 address, on a bus with no device at or above 2 GiB
    (the bus of [main]), the load finds no device and writes 0 to [rt],
    whatever the memory the address maps to holds; LB and LW translate
    the same address first. *)
Theorem lh_kseg_reads_zero (c : CPU) (b : Bus.MemoryBus) (i : IType.t) :
  IType.opcode i = 0x21 ->
  Forall (fun d => (range d (Bus.shared b)).2 < 0x8000_0000) (Bus.devices b) ->
  0x8000_0000 <= reg c (IType.rs i) +w as_u32 (as_i16 (IType.imm i)) ->
  exec_mem c b i = Some (Done ((if negb (IType.rt i =? 0) then set_reg c (IType.rt i) 0 else c), b)).
Proof.
  intros Hop Hf Ha. unfold exec_mem. cbn zeta. rewrite Hop. cbn [Z.eqb Pos.eqb].
  rewrite (Bus.read16_above _ _ _ Hf Ha). reflexivity.
Qed.

End Cpu.
