(* ===== verification/Machine.v ===== *)
(** * The emulator's machine ([aiz32mips_emu/src/main.rs], [mmio_offsets.rs])

    [boot] builds the bus of [main]: 2 MiB of RAM at 0, the ROM image at
    [0x1FC0_0000], 4 MiB of video memory at [0x1000_0000] holding the font
    image at [0x0020_0000], and the GPU window at [0x1F80_2000], in that
    order, then programs a 320x200 frame of 32 bits per pixel through the
    bus.  [run_steps] is the loop of [main] that steps the CPU a number of
    times; the display and the full loop of [main] are in [Display] and
    [Main].

    The theorems of this file run the scenarios of the specification on
    this machine, with the definitions evaluated by [vm_compute]: they are
    the end-to-end tests of the development.

    The machine steps by [mstep], one [CPU::step] that does not panic;
    a state is [reachable] when the booted machine steps to it.  Every
    reachable state is typed ([reachable_typed]), by induction on the
    steps from the typing of the boot. *)

From S2P Require Import Prelude Instructions Registers Alu Devices Gpu GpuFacts Bus Cpu.

Module Machine.

(** [mmio_offsets.rs]. *)
Definition GPU_MMIO_BASE : Z := 0x1F80_2000.
Definition REG_WIDTH : Z := GPU_MMIO_BASE + 0x00.
Definition REG_HEIGHT : Z := GPU_MMIO_BASE + 0x02.
Definition REG_PITCH : Z := GPU_MMIO_BASE + 0x04.
Definition REG_BPP : Z := GPU_MMIO_BASE + 0x06.
Definition REG_FBADDR : Z := GPU_MMIO_BASE + 0x08.
Definition REG_STATUS : Z := GPU_MMIO_BASE + 0x0C.
Definition REG_CMD : Z := GPU_MMIO_BASE + 0x10.
Definition REG_FONTADDR : Z := GPU_MMIO_BASE + 0x20.

(** The MMIO helpers of [main]: virtual writes whose errors are ignored. *)
Definition write8 (b : Bus.MemoryBus) (addr v : Z) : run Bus.MemoryBus :=
  '(b, _) ← Bus.write8_virt b addr v; Done b.
Definition write16 (b : Bus.MemoryBus) (addr v : Z) : run Bus.MemoryBus :=
  '(b, _) ← Bus.write16_virt b addr v; Done b.
Definition write32 (b : Bus.MemoryBus) (addr v : Z) : run Bus.MemoryBus :=
  '(b, _) ← Bus.write32_virt b addr v; Done b.

Definition vram_base : Z := 0x1000_0000.
Definition vram_size : Z := 4 * 1024 * 1024.
Definition fb_off : Z := 0.
Definition font_addr : Z := 0x0020_0000.

(** The bus of [main]: the devices in registration order, the font
    copied into video memory (the slice [copy_from_slice] panics if the
    font does not fit), then the initial GPU configuration. *)
Definition boot (rom_data font_rom_data : list Z) : run Bus.MemoryBus :=
  if negb (font_addr + Z.of_nat (length font_rom_data) <=? vram_size)
  then Panic (IndexOutOfBounds (font_addr + Z.of_nat (length font_rom_data)) vram_size) else
  let sh := mkShared (buf_set_list (buf_zero vram_size) font_addr font_rom_data) 0 0 in
  let bus := Bus.new true sh in
  let bus := Bus.add_device bus (DRam (Ram.new 0x0000_0000 0x0020_0000)) in
  let bus := Bus.add_device bus (DRom (Rom.new 0x1FC0_0000 rom_data)) in
  let bus := Bus.add_device bus (DVram (Vram.mkVram vram_base)) in
  let bus := Bus.add_device bus (DGpu (Gpu.new GPU_MMIO_BASE)) in
  bus ← write16 bus REG_WIDTH 320;
  bus ← write16 bus REG_HEIGHT 200;
  bus ← write16 bus REG_PITCH 320;
  bus ← write8 bus REG_BPP 32;
  bus ← write32 bus REG_FBADDR fb_off;
  write32 bus REG_FONTADDR font_addr.

(** The loop of [main] over [cycles] steps. *)
Fixpoint run_steps (cycles : nat) (fuel : nat) (c : Cpu.CPU) (b : Bus.MemoryBus)
    : run (Cpu.CPU * Bus.MemoryBus) :=
  match cycles with
  | O => Done (c, b)
  | S k => '(c, b) ← Cpu.step fuel c b; run_steps k fuel c b
  end.

(** The machine of [main]: the CPU and the bus. *)
Definition Machine : Type := Cpu.CPU * Bus.MemoryBus.

(** One iteration of the loop of [main], [cpu.step(&mut bus)], as a
    relation: a step that does not panic, on any depth of nested delay
    slots the Rust stack allows. *)
Inductive mstep : Machine -> Machine -> Prop :=
  | mstep_step (n : nat) (c c' : Cpu.CPU) (b b' : Bus.MemoryBus) :
      Cpu.step n c b = Done (c', b') -> mstep (c, b) (c', b').

(** The states [main] reaches: [CPU::new()] on the bus [boot] built,
    then any number of steps. *)
Definition reachable (rom font : list Z) (s : Machine) : Prop :=
  exists b0, boot rom font = Done b0 /\ rtc mstep (Cpu.new, b0) s.

(** ** Test programs *)

(** A ROM image of little-endian words. *)
Definition rom_of_words (ws : list Z) : list Z := ws ≫= le_bytes32.

(** Boot with the program and no font, reset the CPU and run [k] steps
    with enough fuel for four nested delay slots. *)
Definition run_program (ws : list Z) (k : nat) : run (Cpu.CPU * Bus.MemoryBus) :=
  b ← boot (rom_of_words ws) [];
  run_steps k 4 Cpu.new b.

(** Registers [rs] and the PC after a run, or [None] on a panic. *)
Definition regs_after (ws : list Z) (k : nat) (rs : list Z) : option (list Z * Z) :=
  match run_program ws k with
  | Done (c, _) => Some (map (Cpu.reg c) rs, Cpu.get_pc c)
  | Panic _ => None
  end.

(** The bytes of physical memory at [a], [a + 1], ..., as the bus reads
    them. *)
Definition bytes_at (b : Bus.MemoryBus) (a : Z) (n : nat) : list (MemResult Z) :=
  map (fun i => Bus.read8 b (a + i)) (seqZ 0 (Z.of_nat n)).

(** The booted bus of a program. *)
Definition test_bus (ws : list Z) : Bus.MemoryBus :=
  result (boot (rom_of_words ws) []) (Bus.new true (mkShared (buf_zero 0) 0 0)).

(** A sequence of 16-bit MMIO writes, as a program would issue them. *)
Fixpoint writes16 (b : Bus.MemoryBus) (ws : list (Z * Z)) : run Bus.MemoryBus :=
  match ws with
  | [] => Done b
  | (a, v) :: ws => b ← write16 b a v; writes16 b ws
  end.

Definition REG_PARAM : Z := GPU_MMIO_BASE + 0x12.

(** The 32-bit words of the frame at the start of video memory after
    booting with a one-word ROM image and issuing the MMIO writes [ws]
    (an empty image would make [Rom::range] panic in a debug build). *)
Definition frame_after (ws : list (Z * Z)) (n : nat) : run (list (MemResult Z)) :=
  b ← boot [0; 0; 0; 0] [];
  b ← writes16 b ws;
  Done (map (fun i => Bus.read32 b (vram_base + 4 * i)) (seqZ 0 (Z.of_nat n))).

(** ** Scenarios of the specification *)

(** ADDIU r2,r0,5 then BNE r2,r0,+1 then NOP from the reset vector:
    after three steps r2 is 5 and the PC is [0xBFC0_000C].  The BNE is
    taken (r2 is not 0): its delay slot runs inside the branch and the
    third step fails to fetch past the end of the ROM. *)
Example scenario_addiu_bne :
  regs_after [0x24020005; 0x14400001; 0x00000000] 3 [2] = Some ([5], 0xBFC0_000C).
Proof. vm_compute. reflexivity. Qed.

(** JAL to [0xBFC0_0008] with a NOP in its delay slot and
    ADDIU r8,r0,0x42 at the target: after one step the PC is the target
    and r31 the address after the delay slot; after two steps r8 is
    0x42. *)
Example scenario_jal :
  regs_after [0x0FF00002; 0x00000000; 0x24080042] 1 [31; 8] = Some ([0xBFC0_0008; 0], 0xBFC0_0008) /\
  regs_after [0x0FF00002; 0x00000000; 0x24080042] 2 [31; 8] = Some ([0xBFC0_0008; 0x42], 0xBFC0_000C).
Proof. split; vm_compute; reflexivity. Qed.

(** SW of 0xDEADBEEF to RAM at 0x100 and LW back: r2 is
    0xDEADBEEF and the bytes at 0x100..0x103 are EF BE AD DE. *)
Example scenario_sw_lw :
  regs_after [0x3C01DEAD; 0x3421BEEF; 0xAC010100; 0x8C020100] 4 [2] = Some ([0xDEADBEEF], 0xBFC0_0010) /\
  (match run_program [0x3C01DEAD; 0x3421BEEF; 0xAC010100; 0x8C020100] 4 with
   | Done (_, b) => Some (bytes_at b 0x100 4) | Panic _ => None end) =
    Some [Ok 0xEF; Ok 0xBE; Ok 0xAD; Ok 0xDE].
Proof. split; vm_compute; reflexivity. Qed.

(** MULT of 0x10000 by 0x10000 then MFHI r3 and MFLO r4: r3 is 1
    and r4 is 0. *)
Example scenario_mult :
  regs_after [0x3C010001; 0x3C020001; 0x00220018; 0x00001810; 0x00002012] 5 [3; 4] =
    Some ([1; 0], 0xBFC0_0014).
Proof. vm_compute. reflexivity. Qed.

(** CLEAR through the MMIO window of a 4x2 frame at 32 bits per
    pixel with colour 0x11223344 pushed as two halves: the eight pixels
    hold the colour and the word after the frame is untouched. *)
Example scenario_gpu_clear :
  frame_after [(REG_WIDTH, 4); (REG_HEIGHT, 2); (REG_PITCH, 4);
               (REG_PARAM, 0x3344); (REG_PARAM, 0x1122); (REG_CMD, 0x0001)] 9 =
    Done (repeat (Ok 0x11223344) 8 ++ [Ok 0]).
Proof. vm_compute. reflexivity. Qed.

(** CLEAR to 0 then LINE from (0,0) to (3,3) in white on a 4x4
    frame: exactly the four pixels of the diagonal are white. *)
Example scenario_gpu_line :
  frame_after [(REG_WIDTH, 4); (REG_HEIGHT, 4); (REG_PITCH, 4);
               (REG_PARAM, 0); (REG_PARAM, 0); (REG_CMD, 0x0001);
               (REG_PARAM, 0); (REG_PARAM, 0); (REG_PARAM, 3); (REG_PARAM, 3);
               (REG_PARAM, 0xFFFF); (REG_PARAM, 0xFFFF); (REG_CMD, 0x0009)] 16 =
    Done (map (fun i => Ok (if i mod 5 =? 0 then 0xFFFF_FFFF else 0)) (seqZ 0 16)).
Proof. vm_compute. reflexivity. Qed.

(** ** Behaviours that depart from the specification or the ISA *)

(** JAL whose delay slot writes r31 (ADDIU r31,r0,7): r31 ends at
    7.  The link is written before the delay slot runs, so the delay
    slot's write wins; the specification's order (delay slot, then
    link) would leave the return address [0xBFC0_0008]. *)
Example jal_delay_slot_overwrites_link :
  regs_after [0x0FF00002; 0x241F0007; 0x24080042] 1 [31] = Some ([7], 0xBFC0_0008).
Proof. vm_compute. reflexivity. Qed.

(** LH and LB at the same KSEG1 address of the ROM (LUI r1,0xBFC0;
    LH r2,0(r1); LB r3,0(r1)): LB reads the sign-extended byte 0xC0,
    LH reads 0, because LH goes to the physical bus with the virtual
    address, where no device answers. *)
Example lh_skips_translation :
  regs_after [0x3C01BFC0; 0x84220000; 0x80230000] 3 [2; 3] = Some ([0; 0xFFFF_FFC0], 0xBFC0_000C).
Proof. vm_compute. reflexivity. Qed.

(** DIV of 0x80000000 by 0xFFFFFFFF (LUI r1,0x8000; ADDIU
    r2,r0,-1; DIV r1,r2) panics the emulator with the overflow of
    [i32] division. *)
Example div_overflow_program :
  run_program [0x3C018000; 0x2402FFFF; 0x0022001A] 3 = Panic DivideOverflow.
Proof. vm_compute. reflexivity. Qed.

(** ** Typing of the reachable states

    [boot] builds a bus that holds bytes from ROM and font images of
    bytes ([fs::read] gives [Vec<u8>]), and every step keeps the CPU's
    register file well formed and the bus holding bytes. *)

Lemma gpu_new_ok (base : Z) : GpuFacts.gpu_ok (Gpu.new base).
Proof. intros n. destruct n; cbn; unfold fits; lia. Qed.

(** Through the MMIO writes of [boot]. *)
Ltac bus_chain :=
  repeat match goal with
    | E : Bus.write8_virt ?b _ ?v = Done (?b1, _), Hb : Bus.bus_ok ?b |- _ =>
        apply (Bus.write8_virt_ok _ _ _ v _ Hb ltac:(unfold fits; lia)) in E; clear Hb
    | E : Bus.write16_virt ?b _ _ = Done (?b1, _), Hb : Bus.bus_ok ?b |- _ =>
        apply (Bus.write16_virt_ok _ _ _ _ _ Hb) in E; clear Hb
    | E : Bus.write32_virt ?b _ _ = Done (?b1, _), Hb : Bus.bus_ok ?b |- _ =>
        apply (Bus.write32_virt_ok _ _ _ _ _ Hb) in E; clear Hb
    end.

Lemma boot_ok (rom font : list Z) (b : Bus.MemoryBus) :
  Forall (fits 8) rom -> Forall (fits 8) font -> boot rom font = Done b -> Bus.bus_ok b.
Proof.
  intros Hr Hf. unfold boot. case_match; [discriminate|].
  unfold write8, write16, write32. intros Hboot. run_inv_all. simplify_eq.
  match goal with E : Bus.write16_virt ?b0 REG_WIDTH _ = _ |- _ =>
    assert (Hb : Bus.bus_ok b0) end.
  { repeat apply Bus.bus_ok_add_device.
    - split; [constructor | apply bytes_ok_set_list; auto with bytes].
    - exact (bytes_ok_zero _).
    - exact (bytes_ok_of_list _ Hr).
    - exact I.
    - exact (gpu_new_ok _). }
  bus_chain. assumption.
Qed.

Lemma mstep_typed (s s' : Machine) :
  mstep s s' -> Cpu.cpu_ok s.1 /\ Bus.bus_ok s.2 -> Cpu.cpu_ok s'.1 /\ Bus.bus_ok s'.2.
Proof. intros [n c c' b b' H] [Hc Hb]. exact (Cpu.step_ok n c b c' b' Hc Hb H). Qed.

Lemma rtc_mstep_typed (s s' : Machine) :
  rtc mstep s s' -> Cpu.cpu_ok s.1 /\ Bus.bus_ok s.2 -> Cpu.cpu_ok s'.1 /\ Bus.bus_ok s'.2.
Proof. induction 1; eauto using mstep_typed. Qed.

(** Type safety of the emulator: from ROM and font images of
    bytes, every state [main] reaches keeps 32 general registers with
    [r0 = 0], every general and special register (PC, HI, LO, ...) a
    [u32], every byte of RAM, ROM and video memory a [u8] and the GPU
    registers within their [u16], [u8] and [u32] types. *)
Theorem reachable_typed (rom font : list Z) (c : Cpu.CPU) (b : Bus.MemoryBus) :
  Forall (fits 8) rom -> Forall (fits 8) font -> reachable rom font (c, b) ->
  Cpu.cpu_ok c /\ Bus.bus_ok b.
Proof.
  intros Hr Hf (b0 & Hb0 & Hs).
  exact (rtc_mstep_typed _ _ Hs (conj Cpu.cpu_ok_new (boot_ok _ _ _ Hr Hf Hb0))).
Qed.

(** ** Witnesses: the CPU theorems at concrete programs *)

Definition step_result (n : nat) (c : Cpu.CPU) (b : Bus.MemoryBus) : Cpu.CPU * Bus.MemoryBus :=
  result (Cpu.step n c b) (c, b).

Definition addiu_bus : Bus.MemoryBus := test_bus [0x24020005].
Definition jal_bus : Bus.MemoryBus := test_bus [0x0FF00002; 0x00000000; 0x24080042].
Definition beq_bus : Bus.MemoryBus := test_bus [0x10000001; 0x00000000].
Definition bne_bus : Bus.MemoryBus := test_bus [0x14000001; 0x00000000].
Definition bgezal_bus : Bus.MemoryBus := test_bus [0x04110001; 0x00000000].
Definition jr_bus : Bus.MemoryBus := test_bus [0x00000008; 0x00000000].

Lemma execute_fuel_mono_witness :
  Cpu.execute 3 Cpu.new addiu_bus (decode 0x24020005) = Cpu.execute 1 Cpu.new addiu_bus (decode 0x24020005).
Proof.
  apply (Cpu.execute_fuel_mono 1 3); [lia | reflexivity | vm_compute; discriminate].
Defined.

Lemma execute_non_control_fuel_witness :
  Cpu.execute 5 Cpu.new addiu_bus (decode 0x24020005) = Cpu.execute 1 Cpu.new addiu_bus (decode 0x24020005).
Proof. apply (Cpu.execute_non_control_fuel 4). vm_compute. reflexivity. Defined.

Lemma execute_delay_fuel_witness :
  Cpu.execute 4 (Cpu.set_pc Cpu.new 0xBFC0_0004) jal_bus (decode 0x0FF00002) =
  Cpu.execute 2 (Cpu.set_pc Cpu.new 0xBFC0_0004) jal_bus (decode 0x0FF00002).
Proof.
  apply (Cpu.execute_delay_fuel 2). intros w E. vm_compute in E.
  injection E as <-. vm_compute. reflexivity.
Defined.

Lemma step_fetch_error_witness : Cpu.step 4 Cpu.new (test_bus []) = Done (Cpu.new, test_bus []).
Proof. apply (Cpu.step_fetch_error 4 _ _ (Unmapped 0x1FC0_0000)). vm_compute. reflexivity. Defined.

Lemma step_pc_next_witness :
  Cpu.get_pc (step_result 4 Cpu.new addiu_bus).1 = Cpu.get_pc Cpu.new +w 4.
Proof.
  apply (Cpu.step_pc_next 3 Cpu.new addiu_bus 0x24020005 _ (step_result 4 Cpu.new addiu_bus).2);
    vm_compute; reflexivity.
Defined.

Lemma step_branch_taken_witness :
  Cpu.get_pc (step_result 4 Cpu.new beq_bus).1 = (Cpu.get_pc Cpu.new +w 4) +w Cpu.branch_offset 1.
Proof.
  apply (Cpu.step_branch_taken 4 Cpu.new beq_bus 0x10000001 (IType.mk 4 0 0 1)
           _ (step_result 4 Cpu.new beq_bus).2);
    [vm_compute; reflexivity | vm_compute; reflexivity | left; split; reflexivity
    | vm_compute; reflexivity].
Defined.

Lemma step_branch_not_taken_witness :
  Cpu.step 4 Cpu.new bne_bus = Done (Cpu.set_pc Cpu.new (Cpu.get_pc Cpu.new +w 4), bne_bus).
Proof.
  apply (Cpu.step_branch_not_taken 3 Cpu.new bne_bus 0x14000001 (IType.mk 5 0 0 1));
    [vm_compute; reflexivity | vm_compute; reflexivity | right; left; split; reflexivity].
Defined.

Lemma step_regimm_taken_witness :
  Cpu.get_pc (step_result 4 Cpu.new bgezal_bus).1 =
    ((Cpu.get_pc Cpu.new +w 4) +w 4) +w Cpu.branch_offset 1.
Proof.
  apply (Cpu.step_regimm_taken 4 Cpu.new bgezal_bus 0x04110001 (IType.mk 1 0 0x11 1) 0
           _ (step_result 4 Cpu.new bgezal_bus).2);
    [vm_compute; reflexivity | vm_compute; reflexivity | reflexivity
    | right; split; [right; reflexivity | vm_compute; discriminate]
    | vm_compute; reflexivity | vm_compute; reflexivity | vm_compute; reflexivity].
Defined.

Lemma step_regimm_link_witness :
  Cpu.reg (step_result 4 Cpu.new bgezal_bus).1 31 = ((Cpu.get_pc Cpu.new +w 4) +w 4) +w 4.
Proof.
  apply (Cpu.step_regimm_link 4 Cpu.new bgezal_bus 0x04110001 (IType.mk 1 0 0x11 1) 0
           _ (step_result 4 Cpu.new bgezal_bus).2);
    [split; reflexivity | vm_compute; reflexivity | vm_compute; reflexivity | reflexivity
    | right; split; [reflexivity | vm_compute; discriminate]
    | vm_compute; reflexivity | vm_compute; reflexivity | vm_compute; reflexivity].
Defined.

Lemma step_jump_target_witness :
  Cpu.get_pc (step_result 4 Cpu.new jal_bus).1 =
    Z.lor (Z.land (Cpu.get_pc Cpu.new +w 4) 0xF000_0000) (as_u32 (Z.shiftl 0x03F0_0002 2)).
Proof.
  apply (Cpu.step_jump_target 4 Cpu.new jal_bus 0x0FF00002 (JType.mk 3 0x03F0_0002)
           _ (step_result 4 Cpu.new jal_bus).2); vm_compute; reflexivity.
Defined.

Lemma step_jump_register_witness :
  Cpu.get_pc (step_result 4 Cpu.new jr_bus).1 = Cpu.reg Cpu.new 0.
Proof.
  apply (Cpu.step_jump_register 4 Cpu.new jr_bus 0x00000008 (RType.mk 0 0 0 0 0 8)
           _ (step_result 4 Cpu.new jr_bus).2);
    [vm_compute; reflexivity | vm_compute; reflexivity | left; reflexivity
    | vm_compute; reflexivity].
Defined.

Lemma exec_accumulate_witness :
  exists c', Cpu.exec_body (fun c b => Done (c, b)) Cpu.new addiu_bus (Special2 (Special2.mk 0x1C 1 2 0 0 0)) =
               Done (c', addiu_bus) /\
    Cpu.get_hi c' * 2 ^ 32 + Cpu.get_lo c' =
      trunc 64 (Cpu.acc_update 0 (Cpu.reg Cpu.new 1) (Cpu.reg Cpu.new 2)
                               (Cpu.get_hi Cpu.new * 2 ^ 32 + Cpu.get_lo Cpu.new)) /\
    Cpu.get_pc c' = Cpu.get_pc Cpu.new /\ (forall k, Cpu.reg c' k = Cpu.reg Cpu.new k).
Proof.
  apply (Cpu.exec_accumulate _ _ _ (Special2.mk 0x1C 1 2 0 0 0));
    [left; reflexivity | vm_compute; split; [discriminate | reflexivity]
    | vm_compute; split; [discriminate | reflexivity]].
Defined.

Lemma step_shape_witness : Cpu.shape (step_result 4 Cpu.new jal_bus).1.
Proof.
  apply (Cpu.step_shape 4 Cpu.new jal_bus _ (step_result 4 Cpu.new jal_bus).2);
    [split; reflexivity | vm_compute; reflexivity].
Defined.

Lemma reachable_typed_witness :
  Cpu.cpu_ok (step_result 4 Cpu.new addiu_bus).1 /\ Bus.bus_ok (step_result 4 Cpu.new addiu_bus).2.
Proof.
  apply (reachable_typed (rom_of_words [0x24020005]) []).
  - apply (bool_decide_unpack _). vm_compute. reflexivity.
  - constructor.
  - exists addiu_bus. split; [vm_compute; reflexivity|].
    apply rtc_once. apply (mstep_step 4). vm_compute. reflexivity.
Defined.

(** JAL to [0xBFC0_0008] with ADDIU r31, r0, 0x77 in its delay slot. *)
Definition jal_slot_bus : Bus.MemoryBus := test_bus [0x0FF00002; 0x241F0077; 0x00000000].
Definition jal_slot_pc4 : Z := Cpu.get_pc Cpu.new +w 4.
Definition jal_slot_run : run (Cpu.CPU * Bus.MemoryBus) :=
  Cpu.execute 3 (Cpu.set_pc (Cpu.set_reg (Cpu.set_pc Cpu.new jal_slot_pc4) 31 (jal_slot_pc4 +w 4))
                   (jal_slot_pc4 +w 4)) jal_slot_bus (decode 0x241F0077).

Lemma step_jal_link_before_slot_witness :
  Cpu.step 4 Cpu.new jal_slot_bus =
    Done (Cpu.set_pc (result jal_slot_run (Cpu.new, jal_slot_bus)).1
            (Z.lor (Z.land jal_slot_pc4 0xF000_0000) (as_u32 (Z.shiftl (JType.target (JType.decode 0x0FF00002)) 2))),
          (result jal_slot_run (Cpu.new, jal_slot_bus)).2).
Proof.
  apply (Cpu.step_jal_link_before_slot 3 Cpu.new jal_slot_bus 0x0FF00002 (JType.decode 0x0FF00002) 0x241F0077);
    vm_compute; reflexivity.
Defined.

Lemma lh_kseg_reads_zero_witness :
  Cpu.exec_mem Cpu.new (test_bus [0x87E20000]) (IType.mk 0x21 31 2 0) =
    Some (Done (Cpu.set_reg Cpu.new 2 0, test_bus [0x87E20000])).
Proof.
  refine (Cpu.lh_kseg_reads_zero Cpu.new (test_bus [0x87E20000]) (IType.mk 0x21 31 2 0) eq_refl _ _);
    [apply (bool_decide_unpack _); vm_compute; reflexivity | vm_compute; congruence].
Defined.

End Machine.
