(* ===== verification/Display.v ===== *)
(** * The host display ([aiz32mips_emu/src/ui/display.rs])

    [SdlDisplay] presents the guest's frame buffer in an SDL window.  It
    sees the machine only through the bus: [read_regs] reads the GPU's
    WIDTH, HEIGHT, PITCH, BPP and FBADDR registers by virtual accesses,
    and [present_from_bus] copies, row by row, [4 * width] bytes of
    video memory from [0x1000_0000 + fb_off + y * pitch * 4] into the
    texture, a byte the bus refuses reading 0.

    The state kept here is what the emulator can observe of the SDL
    objects: the texture size [cur_w] x [cur_h], the [scale], the window
    size last set and the last frame presented, as the rows of bytes
    copied into the texture (SDL's own line padding is not observable).
    The SDL calls themselves (window, texture creation, locking, copy,
    present) are host services assumed to succeed; the event queue is a
    list of events, of which [pump_events_quit] drains a prefix.  The [u32] sums and
    products of [present_from_bus] are checked ([add_u32], [mul_u32]),
    as in a debug build: a frame whose last row lies past [u32::MAX]
    panics instead of wrapping. *)

From S2P Require Import Prelude Devices Bus Cpu Machine.

Module Display.

Record SdlDisplay := mkDisplay {
  cur_w : Z; cur_h : Z; scale : Z;
  win_w : Z; win_h : Z;
  frame : list (list Z) }.

(** [SdlDisplay::new]: a window of [320 x 200] times the initial scale;
    the scale kept is at least 1. *)
Definition new (initial_scale : Z) : run SdlDisplay :=
  ww ← mul_u32 320 initial_scale;
  wh ← mul_u32 200 initial_scale;
  Done (mkDisplay 0 0 (Z.max initial_scale 1) ww wh []).

(** [read_regs]: the first bus error ends it ([?]). *)
Definition read_regs (b : Bus.MemoryBus) : MemResult (Z * Z * Z * Z * Z) :=
  match Bus.read16_virt b Machine.REG_WIDTH with Err e => Err e | Ok w =>
  match Bus.read16_virt b Machine.REG_HEIGHT with Err e => Err e | Ok h =>
  match Bus.read16_virt b Machine.REG_PITCH with Err e => Err e | Ok pit =>
  match Bus.read8_virt b Machine.REG_BPP with Err e => Err e | Ok bpp =>
  match Bus.read32_virt b Machine.REG_FBADDR with Err e => Err e | Ok fblo =>
  Ok (w, h, pit, bpp, fblo) end end end end end.

(** [ensure_texture]: a new size resizes the window by the scale. *)
Definition ensure_texture (d : SdlDisplay) (w h : Z) : run SdlDisplay :=
  if (cur_w d =? w) && (cur_h d =? h) then Done d
  else
    ww ← mul_u32 w (scale d);
    wh ← mul_u32 h (scale d);
    Done (mkDisplay w h (scale d) ww wh (frame d)).

(** The inner loop of [present_from_bus]: the [4 * w] bytes of one row,
    from the virtual address [0x1000_0000 + src_line_off + x]. *)
Definition copy_row (b : Bus.MemoryBus) (src_line_off w : Z) : run (list Z) :=
  n ← mul_u32 w 4;
  for_range (Z.to_nat n) 0 (fun x dst =>
    a ← add_u32 0x1000_0000 src_line_off;
    a ← add_u32 a x;
    Done (dst ++ [Cpu.unwrap_or (Bus.read8_virt b a) 0])) [].

(** The rows of the texture, [y] from [0] to [h - 1]. *)
Definition copy_frame (b : Bus.MemoryBus) (w h stride fb_off : Z) : run (list (list Z)) :=
  for_range (Z.to_nat h) 0 (fun y rows =>
    o ← mul_u32 y stride;
    src_line_off ← add_u32 fb_off o;
    row ← copy_row b src_line_off w;
    Done (rows ++ [row])) [].

(** [present_from_bus]: nothing is drawn unless the frame is at least
    one pixel and 32 bits per pixel. *)
Definition present_from_bus (d : SdlDisplay) (b : Bus.MemoryBus)
    : run (SdlDisplay * MemResult unit) :=
  match read_regs b with
  | Err e => Done (d, Err e)
  | Ok (w, h, pitch_pixels, bpp, fb_off) =>
      if (w =? 0) || (h =? 0) || negb (bpp =? 32) then Done (d, Ok tt)
      else
        d ← ensure_texture d w h;
        stride ← mul_u32 pitch_pixels 4;
        rows ← copy_frame b w h stride fb_off;
        _ ← mul_u32 w (scale d);
        _ ← mul_u32 h (scale d);
        Done (mkDisplay (cur_w d) (cur_h d) (scale d) (win_w d) (win_h d) rows, Ok tt)
  end.

(** The events of SDL's queue that [pump_events_quit] tells apart. *)
Inductive Event := Quit | Other.

#[export] Instance Event_eq_dec : EqDecision Event.
Proof. solve_decision. Defined.

(** [pump_events_quit]: it drains the queue up to the first [Quit] and
    answers whether there was one; the events after it stay queued. *)
Fixpoint pump_events_quit (q : list Event) : bool * list Event :=
  match q with
  | [] => (false, [])
  | Quit :: rest => (true, rest)
  | Other :: rest => pump_events_quit rest
  end.

(** The frame [present_from_bus] is meant to show: row [y], byte [x] is
    the byte of video memory at [fb_off + y * stride + x], or 0 where the
    bus refuses the read. *)
Definition expected_frame (b : Bus.MemoryBus) (w h stride fb_off : Z) : list (list Z) :=
  map (fun y => map (fun x => Cpu.unwrap_or (Bus.read8_virt b (0x1000_0000 + (fb_off + y * stride) + x)) 0)
                    (seqZ 0 (4 * w)))
      (seqZ 0 h).

(** ** Lemmas *)

Lemma pump_events_quit_spec (q : list Event) :
  fst (pump_events_quit q) = bool_decide (Quit ∈ q) /\
  (Quit ∉ q -> snd (pump_events_quit q) = []).
Proof.
  induction q as [|[] q IH]; cbn [pump_events_quit fst snd].
  - split; [reflexivity|auto].
  - rewrite bool_decide_true by apply list_elem_of_here. split; [reflexivity|].
    intros H. exfalso. apply H, list_elem_of_here.
  - destruct IH as [IH1 IH2]. split.
    + rewrite IH1. apply bool_decide_ext. rewrite elem_of_cons.
      split; [auto | intros [E|H]; [discriminate | exact H]].
    + intros H. apply IH2. intros H'. apply H, list_elem_of_further, H'.
Qed.

Lemma add_u32_Done (a b : Z) : a + b < 2 ^ 32 -> add_u32 a b = Done (a + b).
Proof. intros H. unfold add_u32. destruct (Z.ltb_spec (a + b) (2 ^ 32)); [reflexivity | lia]. Qed.

Lemma mul_u32_Done (a b : Z) : a * b < 2 ^ 32 -> mul_u32 a b = Done (a * b).
Proof. intros H. unfold mul_u32. destruct (Z.ltb_spec (a * b) (2 ^ 32)); [reflexivity | lia]. Qed.

Lemma add_u32_Panic (a b : Z) : 2 ^ 32 <= a + b -> add_u32 a b = Panic ArithOverflow.
Proof. intros H. unfold add_u32. destruct (Z.ltb_spec (a + b) (2 ^ 32)); [lia | reflexivity]. Qed.

Lemma ensure_texture_Done (d : SdlDisplay) (w h : Z) :
  w * scale d < 2 ^ 32 -> h * scale d < 2 ^ 32 ->
  exists d', ensure_texture d w h = Done d' /\ cur_w d' = w /\ cur_h d' = h /\
             scale d' = scale d /\ frame d' = frame d.
Proof.
  intros Hw Hh. unfold ensure_texture.
  destruct (Z.eqb_spec (cur_w d) w), (Z.eqb_spec (cur_h d) h); cbn [andb];
    try (eexists; split; [reflexivity|]; cbn; auto; fail).
  all: rewrite !mul_u32_Done by lia; cbn; eexists; split; [reflexivity|]; cbn; auto.
Qed.

Lemma copy_row_Done (b : Bus.MemoryBus) (off w : Z) :
  0 <= off -> 0 <= w -> 0x1000_0000 + off + 4 * w <= 2 ^ 32 ->
  copy_row b off w = Done (map (fun x => Cpu.unwrap_or (Bus.read8_virt b (0x1000_0000 + off + x)) 0) (seqZ 0 (4 * w))).
Proof.
  intros Ho Hw Hov. unfold copy_row. rewrite mul_u32_Done by lia. cbn [mbind run_bind].
  rewrite (for_range_snoc (fun x => Cpu.unwrap_or (Bus.read8_virt b (0x1000_0000 + off + x)) 0)).
  - by rewrite Z2Nat.id, Z.mul_comm by lia.
  - intros k l Hk. rewrite Z2Nat.id in Hk by lia.
    rewrite add_u32_Done by lia. cbn [mbind run_bind]. rewrite add_u32_Done by lia. reflexivity.
Qed.

Lemma copy_frame_Done (b : Bus.MemoryBus) (w h stride fb_off : Z) :
  0 <= w -> 0 < h -> 0 <= stride -> 0 <= fb_off ->
  0x1000_0000 + fb_off + (h - 1) * stride + 4 * w <= 2 ^ 32 ->
  copy_frame b w h stride fb_off = Done (expected_frame b w h stride fb_off).
Proof.
  intros Hw Hh Hs Hf Hov. unfold copy_frame, expected_frame.
  rewrite (for_range_snoc (fun y => map (fun x => Cpu.unwrap_or (Bus.read8_virt b (0x1000_0000 + (fb_off + y * stride) + x)) 0)
                                         (seqZ 0 (4 * w))));
    [by rewrite Z2Nat.id by lia|].
  intros y l Hy. rewrite Z2Nat.id in Hy by lia.
  assert (y * stride <= (h - 1) * stride) by (apply Z.mul_le_mono_nonneg_r; lia).
  rewrite mul_u32_Done by nia. cbn [mbind run_bind]. rewrite add_u32_Done by nia. cbn [mbind run_bind].
  rewrite copy_row_Done by nia. reflexivity.
Qed.

(** The bus of [main], booted with a one-word ROM image, after the
    guest programs a [4 x 2] frame of 32 bits per pixel and clears it to
    [0x11223344]. *)
Definition clear_bus : Bus.MemoryBus :=
  result (b ← Machine.boot [0; 0; 0; 0] [];
          Machine.writes16 b [(Machine.REG_WIDTH, 4); (Machine.REG_HEIGHT, 2); (Machine.REG_PITCH, 4);
                              (Machine.REG_PARAM, 0x3344); (Machine.REG_PARAM, 0x1122);
                              (Machine.REG_CMD, 0x0001)])
         (Bus.new true (mkShared (buf_zero 0) 0 0)).

(** The same bus after the guest sets FBADDR to [0xF000_0000]. *)
Definition high_fb_bus : Bus.MemoryBus :=
  result (Machine.write32 clear_bus Machine.REG_FBADDR 0xF000_0000) clear_bus.

(** The display of [main], at scale 3. *)
Definition display3 : SdlDisplay := result (new 3) (mkDisplay 0 0 1 0 0 []).

(** ** Theorems *)

Section Present.
Variables (d : SdlDisplay) (b : Bus.MemoryBus) (w h p fb : Z).
Hypothesis Hregs : read_regs b = Ok (w, h, p, 32, fb).
Hypotheses (Hw : 0 < w) (Hh : 0 < h).
Hypotheses (Hsw : w * scale d < 2 ^ 32) (Hsh : h * scale d < 2 ^ 32).

Lemma present_unfold :
  exists d', ensure_texture d w h = Done d' /\ cur_w d' = w /\ cur_h d' = h /\ scale d' = scale d /\
    present_from_bus d b =
      (stride ← mul_u32 p 4; rows ← copy_frame b w h stride fb;
       _ ← mul_u32 w (scale d); _ ← mul_u32 h (scale d);
       Done (mkDisplay w h (scale d) (win_w d') (win_h d') rows, Ok tt)).
Proof.
  destruct (ensure_texture_Done d w h Hsw Hsh) as (d' & E & Ew & Eh & Es & _).
  exists d'. unfold present_from_bus. rewrite Hregs, E.
  replace ((w =? 0) || (h =? 0) || negb (32 =? 32)) with false by (symmetry; apply orb_false_iff; split; [apply orb_false_iff|]; split; apply Z.eqb_neq || reflexivity; lia).
  cbn [mbind run_bind]. rewrite Ew, Eh, Es. auto.
Qed.

(** [C13] With a frame of at least one pixel at 32 bits per pixel that
    lies below [2^32] in the guest's address space, [present_from_bus]
    succeeds, sizes the texture to [w x h] and presents row [y], byte [x]
    from the video memory byte at [fb + y * 4 * pitch + x] (0 where the
    bus refuses the read). *)
Theorem present_shows_frame :
  0 <= p -> 0 <= fb -> p * 4 < 2 ^ 32 ->
  0x1000_0000 + fb + (h - 1) * (p * 4) + 4 * w <= 2 ^ 32 ->
  exists d', present_from_bus d b = Done (d', Ok tt) /\ cur_w d' = w /\ cur_h d' = h /\
             frame d' = expected_frame b w h (p * 4) fb.
Proof.
  intros Hp Hf Hs Hov. destruct present_unfold as (d' & _ & _ & _ & _ & ->).
  rewrite (mul_u32_Done p 4) by lia. cbn [mbind run_bind].
  rewrite copy_frame_Done by nia. cbn [mbind run_bind].
  rewrite !mul_u32_Done by lia. cbn [mbind run_bind]. eauto.
Qed.

(** [C25] A frame buffer offset the guest sets at [0xF000_0000] or above
    makes the first address [0x1000_0000 + fb_off] of [present_from_bus]
    overflow [u32]: the host panics (in a build with overflow checks)
    before it reads a byte. *)
Theorem present_high_fb_panics :
  0 <= p -> p * 4 < 2 ^ 32 -> w * 4 < 2 ^ 32 -> 0xF000_0000 <= fb < 2 ^ 32 ->
  present_from_bus d b = Panic ArithOverflow.
Proof.
  intros Hp Hs H4 Hf. destruct present_unfold as (d' & _ & _ & _ & _ & ->).
  rewrite (mul_u32_Done p 4) by lia. cbn [mbind run_bind]. unfold copy_frame.
  destruct (Z.to_nat h) as [|n] eqn:En; [lia|]. cbn [for_range].
  rewrite (mul_u32_Done 0) by lia. cbn [mbind run_bind]. rewrite add_u32_Done by lia. cbn [mbind run_bind].
  unfold copy_row. rewrite (mul_u32_Done w 4) by lia. cbn [mbind run_bind].
  destruct (Z.to_nat (w * 4)) as [|m] eqn:Em; [lia|]. cbn [for_range].
  rewrite add_u32_Panic by lia. reflexivity.
Qed.

End Present.

(** Witnesses *)

Lemma present_shows_frame_witness :
  exists d', present_from_bus display3 clear_bus = Done (d', Ok tt) /\ cur_w d' = 4 /\ cur_h d' = 2 /\
             frame d' = expected_frame clear_bus 4 2 (4 * 4) 0.
Proof.
  refine (present_shows_frame display3 clear_bus 4 2 4 0 _ _ _ _ _ _ _ _ _);
    [vm_compute; reflexivity | lia | lia | vm_compute; reflexivity | vm_compute; reflexivity
    | lia | lia | lia | lia].
Defined.

Lemma present_high_fb_panics_witness :
  present_from_bus display3 high_fb_bus = Panic ArithOverflow.
Proof.
  refine (present_high_fb_panics display3 high_fb_bus 4 2 4 0xF000_0000 _ _ _ _ _ _ _ _ _);
    [vm_compute; reflexivity | lia | lia | vm_compute; reflexivity | vm_compute; reflexivity
    | lia | lia | lia | lia].
Defined.

(** End to end: the guest clears a [4 x 2] frame to [0x11223344]
    through the MMIO window, and the host presents two rows of four
    pixels, each stored [44 33 22 11] (B, G, R, A in memory). *)
Example scenario_present_clear :
  fmap (fun '(d, r) => (frame d, r)) (present_from_bus display3 clear_bus) =
    Done ([concat (repeat [0x44; 0x33; 0x22; 0x11] 4); concat (repeat [0x44; 0x33; 0x22; 0x11] 4)], Ok tt).
Proof. vm_compute. reflexivity. Qed.

End Display.
