(* ===== verification/Main.v ===== *)
(** * The emulator's main loop ([aiz32mips_emu/src/main.rs])

    [main] boots the bus ([Machine.boot]), creates the CPU and the
    display, reads the cycle count from its third argument, and steps the
    CPU in a loop that polls the window for a quit request before each
    step and presents the frame every [present_every] steps; the finite
    loop presents once more at its end.  Its state is [Host]: the CPU,
    the bus, the display and the counter [steps_since_present].

    The host's inputs and outputs are explicit: the answers of
    [pump_events_quit] are a function [quit] of the poll's index
    ([quit_of] computes it from SDL's event queue at each poll), and the
    results of the calls of [present_from_bus] (ignored by [main], the
    window refreshes the user sees) are the loop's trace.  The infinite
    loop ([cycles_arg = "inf"]) is run up to a horizon of iterations
    chosen by the caller.  The command line is the string [cycles_arg];
    its parse is [u64::from_str], and the count [main] prints is
    [u64::to_string], modelled digit by digit. *)

From Stdlib Require Import String Ascii.
From S2P Require Import Prelude Registers Devices Bus Cpu Machine Display.

Module Main.

(** ** The cycle count *)

(** The value of an ASCII decimal digit. *)
Definition digit_value (ch : ascii) : option Z :=
  let d := Z.of_nat (nat_of_ascii ch) - 48 in
  if (0 <=? d) && (d <=? 9) then Some d else None.

(** The digit loop of [u64::from_str_radix(s, 10)]: each digit multiplies
    the value by 10 and adds itself; a value past [u64::MAX] is the
    [PosOverflow] error, any other byte the [InvalidDigit] error. *)
Fixpoint digits_value (acc : Z) (s : string) : option Z :=
  match s with
  | EmptyString => Some acc
  | String ch rest =>
      match digit_value ch with
      | None => None
      | Some d =>
          let acc' := acc * 10 + d in
          if acc' <? 2 ^ 64 then digits_value acc' rest else None
      end
  end.

(** [cycles_arg.parse::<u64>()]: an empty string and a lone sign are
    errors; one leading [+] is skipped; a leading [-] is not a digit of
    an unsigned type. *)
Definition parse_u64 (s : string) : option Z :=
  match s with
  | EmptyString => None
  | String ch rest =>
      if ascii_dec ch "+"%char then
        match rest with EmptyString => None | _ => digits_value 0 rest end
      else digits_value 0 s
  end.

(** Lines 73-78 of [main]: ["inf"] runs forever, anything that does not
    parse is [10_000] cycles. *)
Definition cycles_of_arg (cycles_arg : string) : bool * Z :=
  let infinite := String.eqb cycles_arg "inf" in
  (infinite, if infinite then 0
             else match parse_u64 cycles_arg with Some n => n | None => 10000 end).

(** [cycles.to_string()], the count [main] prints: the decimal digits,
    most significant first; a [u64] has at most 20. *)
Definition digit_char (d : Z) : ascii := ascii_of_nat (48 + Z.to_nat d).

Fixpoint decimal (fuel : nat) (n : Z) (acc : string) : string :=
  match fuel with
  | O => acc
  | S k =>
      let acc := String (digit_char (n mod 10)) acc in
      if n <? 10 then acc else decimal k (n / 10) acc
  end.

Definition u64_to_string (n : Z) : string := decimal 20 n EmptyString.

(** ** The loop *)

Record Host := mkHost {
  cpu : Cpu.CPU; bus : Bus.MemoryBus; sdl : Display.SdlDisplay;
  steps_since_present : Z }.

Definition present_every : Z := 10000.

(** The body of both loops after the quit poll: a step, the counter,
    and every [present_every] steps a present whose result is ignored. *)
Definition loop_body (fuel : nat) (s : Host) : run (Host * list (MemResult unit)) :=
  '(c, b) ← Cpu.step fuel (cpu s) (bus s);
  sp ← add_u32 (steps_since_present s) 1;
  if present_every <=? sp then
    '(d, r) ← Display.present_from_bus (sdl s) b;
    Done (mkHost c b d 0, [r])
  else Done (mkHost c b (sdl s) sp, []).

(** [for _ in 0..cycles] (or [loop], up to a horizon): the [i]-th poll
    answers [quit i]; a quit request ends the loop ([break]). *)
Fixpoint loop_for (n : nat) (i : nat) (quit : nat -> bool) (fuel : nat) (s : Host)
    (tr : list (MemResult unit)) : run (Host * list (MemResult unit)) :=
  match n with
  | O => Done (s, tr)
  | S n =>
      if quit i then Done (s, tr)
      else '(s, ev) ← loop_body fuel s; loop_for n (S i) quit fuel s (tr ++ ev)
  end.

(** The answer of the [i]-th poll ([if sdl.pump_events_quit() { break; }])
    when [events i] is SDL's queue at that poll. *)
Definition quit_of (events : nat -> list Display.Event) (i : nat) : bool :=
  fst (Display.pump_events_quit (events i)).

(** [main] from the images read from the files: the bus, [CPU::new],
    [SdlDisplay::new(3)], the cycle count, then the loops. *)
Definition main (rom font : list Z) (cycles_arg : string) (quit : nat -> bool)
    (fuel horizon : nat) : run (Host * list (MemResult unit)) :=
  b ← Machine.boot rom font;
  d ← Display.new 3;
  let s := mkHost Cpu.new b d 0 in
  let '(infinite, cycles) := cycles_of_arg cycles_arg in
  if infinite then loop_for horizon 0 quit fuel s []
  else
    '(s, tr) ← loop_for (Z.to_nat cycles) 0 quit fuel s [];
    '(d, r) ← Display.present_from_bus (sdl s) (bus s);
    Done (mkHost (cpu s) (bus s) d (steps_since_present s), tr ++ [r]).

(** The register dump: R0 to R9, HI and LO as [i32], the PC and SP. *)
Definition dump (c : Cpu.CPU) : list Z * Z * Z * Z * Z :=
  (map (fun i => as_i32 (Cpu.reg c i)) (seqZ 0 10),
   as_i32 (Cpu.get_hi c), as_i32 (Cpu.get_lo c),
   Cpu.get_pc c, Registers.Registers.get_sp (Cpu.registers c)).

(** ** The cycle count: lemmas *)

Lemma digit_value_char (d : Z) : 0 <= d < 10 -> digit_value (digit_char d) = Some d.
Proof.
  intros Hd. unfold digit_value, digit_char. rewrite nat_ascii_embedding by lia.
  replace (Z.of_nat (48 + Z.to_nat d) - 48) with d by lia.
  destruct (Z.leb_spec 0 d), (Z.leb_spec d 9); cbn; auto; lia.
Qed.

(** The digits [decimal] prepends are read back by [digits_value] as the
    number they print, scaled by a power of ten [e], with the same
    overflow. *)
Lemma decimal_S (k : nat) (n : Z) (s : string) :
  decimal (S k) n s = if n <? 10 then String (digit_char (n mod 10)) s
                      else decimal k (n / 10) (String (digit_char (n mod 10)) s).
Proof. reflexivity. Qed.

Lemma digits_value_decimal (k : nat) (n acc : Z) (s : string) :
  0 <= n < 10 ^ Z.of_nat (S k) -> 0 <= acc ->
  exists e, 10 <= e /\ n < e /\
    digits_value acc (decimal (S k) n s) =
      if acc * e + n <? 2 ^ 64 then digits_value (acc * e + n) s else None.
Proof.
  revert n s acc. induction k as [|k IH]; intros n s acc Hn Hacc;
    rewrite decimal_S; destruct (Z.ltb_spec n 10) as [Hlt|Hge].
  2: { cbn in Hn. lia. }
  1, 2: exists 10; split; [lia|]; split; [lia|]; cbn [digits_value];
    rewrite digit_value_char by (apply Z.mod_pos_bound; lia); rewrite Z.mod_small by lia; reflexivity.
  assert (Hk : 0 <= n / 10 < 10 ^ Z.of_nat (S k)).
  { rewrite (Nat2Z.inj_succ (S k)), Z.pow_succ_r in Hn by lia. split; [apply Z.div_pos; lia|].
    apply Z.div_lt_upper_bound; lia. }
  destruct (IH (n / 10) (String (digit_char (n mod 10)) s) acc Hk Hacc) as (e & He & Hne & ->).
  pose proof (Z.div_mod n 10 ltac:(lia)). pose proof (Z.mod_pos_bound n 10 ltac:(lia)).
  exists (e * 10). split; [lia|]. split; [lia|].
  replace (acc * (e * 10) + n) with ((acc * e + n / 10) * 10 + n mod 10) by lia.
  destruct (Z.ltb_spec (acc * e + n / 10) (2 ^ 64));
    cbn [digits_value]; rewrite ?digit_value_char by lia; cbn zeta.
  - reflexivity.
  - destruct (Z.ltb_spec ((acc * e + n / 10) * 10 + n mod 10) (2 ^ 64)); [lia | reflexivity].
Qed.

Lemma decimal_head (k : nat) (n : Z) (s : string) :
  exists d r, 0 <= d < 10 /\ decimal (S k) n s = String (digit_char d) r.
Proof.
  revert n s. induction k as [|k IH]; intros n s; cbn [decimal].
  - destruct (n <? 10); eexists _, _; (split; [apply (Z.mod_pos_bound n 10); lia | reflexivity]).
  - destruct (n <? 10); [eexists _, _; (split; [apply (Z.mod_pos_bound n 10); lia | reflexivity])|].
    apply IH.
Qed.

Lemma digit_char_not (d : Z) (c : ascii) :
  0 <= d < 10 -> (nat_of_ascii c < 48)%nat \/ (57 < nat_of_ascii c)%nat -> digit_char d <> c.
Proof.
  intros Hd Hc <-. unfold digit_char in Hc. rewrite nat_ascii_embedding in Hc by lia. lia.
Qed.

Lemma parse_u64_decimal (n : Z) : 0 <= n < 2 ^ 64 -> parse_u64 (u64_to_string n) = Some n.
Proof.
  intros Hn. unfold u64_to_string.
  destruct (decimal_head 19 n EmptyString) as (d & r & Hd & Er).
  destruct (digits_value_decimal 19 n 0 EmptyString) as (e & _ & _ & Ev); [cbn; lia | lia |].
  unfold parse_u64. rewrite Er. destruct (ascii_dec (digit_char d) "+"%char) as [E|_].
  { exfalso. revert E. apply digit_char_not; [lia | left; apply Nat.ltb_lt; reflexivity]. }
  rewrite <- Er, Ev. replace (0 * e + n) with n by lia.
  destruct (Z.ltb_spec n (2 ^ 64)); [reflexivity | lia].
Qed.

Lemma digits_value_bound (s : string) (acc n : Z) :
  0 <= acc < 2 ^ 64 -> digits_value acc s = Some n -> 0 <= n < 2 ^ 64.
Proof.
  revert acc. induction s as [|ch s IH]; intros acc Hacc; cbn [digits_value]; [congruence|].
  unfold digit_value. destruct (_ && _) eqn:Ed; [|discriminate].
  apply andb_true_iff in Ed as [E1 E2]. apply Z.leb_le in E1, E2.
  destruct (Z.ltb_spec (acc * 10 + (Z.of_nat (nat_of_ascii ch) - 48)) (2 ^ 64)); [|discriminate].
  apply IH. lia.
Qed.

(** ** The loop: lemmas *)

Lemma loop_body_counter (fuel : nat) (s s' : Host) (ev : list (MemResult unit)) :
  0 <= steps_since_present s < present_every -> loop_body fuel s = Done (s', ev) ->
  (steps_since_present s + 1 = present_every /\ length ev = 1%nat /\ steps_since_present s' = 0) \/
  (steps_since_present s + 1 < present_every /\ ev = [] /\ steps_since_present s' = steps_since_present s + 1).
Proof.
  intros Hsp H. unfold loop_body in H.
  destruct (Cpu.step fuel (cpu s) (bus s)) as [[c b]|] eqn:Es; [|discriminate]. cbn [mbind run_bind] in H.
  rewrite Display.add_u32_Done in H by (unfold present_every in *; lia). cbn [mbind run_bind] in H.
  destruct (Z.leb_spec present_every (steps_since_present s + 1)).
  - run_inv H. injection H as <- <-. left. cbn. unfold present_every in *. lia.
  - injection H as <- <-. right. cbn. auto.
Qed.

(** ** Theorems *)

(** [C15] Round trip of the cycle count: for every [u64] value [n], the
    argument [n.to_string()] is read back by [main] as a finite run of
    exactly [n] cycles. *)
Theorem cycles_arg_roundtrip (n : Z) :
  0 <= n < 2 ^ 64 -> cycles_of_arg (u64_to_string n) = (false, n).
Proof.
  intros Hn. unfold cycles_of_arg. rewrite parse_u64_decimal by exact Hn.
  destruct (decimal_head 19 n EmptyString) as (d & r & Hd & Er).
  unfold u64_to_string. rewrite Er.
  destruct (String.eqb_spec (String (digit_char d) r) "inf") as [E|_]; [|reflexivity].
  injection E as E _. exfalso. revert E. apply digit_char_not; [lia | right; apply Nat.ltb_lt; reflexivity].
Qed.

(** Whatever the command line, the cycle count [main] runs is a
    [u64], and the loop is infinite exactly for ["inf"]. *)
Theorem cycles_of_arg_bounds (arg : string) :
  fits 64 (snd (cycles_of_arg arg)) /\ (fst (cycles_of_arg arg) = true <-> arg = "inf"%string).
Proof.
  unfold cycles_of_arg, fits. cbn [fst snd]. split; [|apply String.eqb_eq].
  destruct (String.eqb arg "inf"); [lia|].
  destruct (parse_u64 arg) as [n|] eqn:E; [|lia]. revert E. unfold parse_u64.
  destruct arg as [|ch rest]; [discriminate|].
  destruct (ascii_dec ch "+"%char); [destruct rest; [discriminate|]|];
    apply digits_value_bound; lia.
Qed.

(** [C14] The loop presents a frame every [present_every] steps: from a
    counter below [present_every], [n] iterations without a quit request
    that do not panic call [present_from_bus] once for each multiple of
    [present_every] the counter passes, and leave the counter at the
    steps since the last present; so the [u32] counter never reaches
    [present_every]. *)
Theorem loop_presents_every (n i fuel : nat) (s s' : Host) (tr tr' : list (MemResult unit)) :
  0 <= steps_since_present s < present_every ->
  loop_for n i (fun _ => false) fuel s tr = Done (s', tr') ->
  length tr' = (length tr + Z.to_nat ((steps_since_present s + Z.of_nat n) / present_every))%nat /\
  steps_since_present s' = (steps_since_present s + Z.of_nat n) mod present_every.
Proof.
  unfold present_every. revert i s tr. induction n as [|n IH]; intros i s tr Hsp H; cbn [loop_for] in H.
  - injection H as <- <-. rewrite Z.add_0_r, Z.div_small, Z.mod_small by lia. lia.
  - destruct (loop_body fuel s) as [[s1 ev]|] eqn:Eb; [|discriminate]. cbn [mbind run_bind] in H.
    destruct (loop_body_counter fuel s s1 ev Hsp Eb) as [(Hp & Hev & Hs1) | (Hp & -> & Hs1)];
      (apply IH in H as [IHl IHs]; [|unfold present_every in *; lia]; rewrite IHl, IHs, Hs1;
       rewrite ?length_app, ?Hev; unfold present_every in *).
    + replace (steps_since_present s + Z.of_nat (S n)) with (Z.of_nat n + 1 * 10000) by lia.
      rewrite Z.div_add, Z.mod_add by lia. cbn [length]. split; [|reflexivity].
      assert (0 <= Z.of_nat n / 10000) by (apply Z.div_pos; lia).
      rewrite Z.add_0_l, Z2Nat.inj_add by lia. cbn. lia.
    + replace (steps_since_present s + Z.of_nat (S n)) with (steps_since_present s + 1 + Z.of_nat n) by lia.
      cbn [length]. rewrite Nat.add_0_r. auto.
Qed.

(** The loop body's own arithmetic is safe: from a counter below
    [present_every], the [u32] increment never overflows, so a step that
    does not panic is followed either by the counter's increment or, on
    reaching [present_every], by one call of [present_from_bus] and a
    counter reset to 0. *)
Theorem loop_body_safe (fuel : nat) (s : Host) (c : Cpu.CPU) (b : Bus.MemoryBus) :
  0 <= steps_since_present s < present_every ->
  Cpu.step fuel (cpu s) (bus s) = Done (c, b) ->
  loop_body fuel s =
    if steps_since_present s + 1 =? present_every then
      '(d, r) ← Display.present_from_bus (sdl s) b; Done (mkHost c b d 0, [r])
    else Done (mkHost c b (sdl s) (steps_since_present s + 1), []).
Proof.
  unfold present_every. intros Hsp Es. unfold loop_body. rewrite Es. cbn [mbind run_bind].
  rewrite Display.add_u32_Done by lia. cbn [mbind run_bind]. unfold present_every.
  destruct (Z.leb_spec 10000 (steps_since_present s + 1)), (Z.eqb_spec (steps_since_present s + 1) 10000);
    reflexivity || lia.
Qed.

(** End to end, [main] on a ROM holding the one instruction ADDIU
    r2, r0, 5 with the argument ["3"]: the first step sets r2 = 5 and
    the PC to [0xBFC0_0004]; the next fetches fall past the 4-byte ROM
    and leave the CPU as it is; no periodic present is due, and the
    final present shows the 320 x 200 frame of [boot], black. *)
Example scenario_main_three_cycles :
  fmap (fun '(s, tr) => (Cpu.reg (cpu s) 2, Cpu.get_pc (cpu s), tr, Display.frame (sdl s)))
       (main (Machine.rom_of_words [0x24020005]) [] "3"%string (fun _ => false) 4 0) =
    Done (5, 0xBFC0_0004, [Ok tt], repeat (repeat 0 1280) 200).
Proof. vm_compute. reflexivity. Qed.

(** ** Witnesses *)

(** The machine of [Display.clear_bus], one step before a present. *)
Definition host_9999 : Host := mkHost Cpu.new Display.clear_bus Display.display3 9999.

Lemma cycles_arg_roundtrip_witness : cycles_of_arg (u64_to_string 18446744073709551615) = (false, 18446744073709551615).
Proof. apply cycles_arg_roundtrip. lia. Defined.

Lemma loop_presents_every_witness :
  match loop_for 2 0 (fun _ => false) 4 host_9999 [] with
  | Done (s', tr') => length tr' = 1%nat /\ steps_since_present s' = 1
  | Panic _ => False
  end.
Proof.
  destruct (loop_for 2 0 (fun _ => false) 4 host_9999 []) as [[s' tr']|] eqn:E;
    [| vm_compute in E; discriminate].
  destruct (loop_presents_every 2 0 4 host_9999 s' [] tr' ltac:(cbn; unfold present_every; lia) E) as [H1 H2].
  rewrite H1, H2. split; reflexivity.
Defined.


End Main.
